(** * The DuckDB lakehouse backend of Sveltia CMS: a shallow embedding

    The JavaScript modules under [src/lib/services/backends/duckdb] are
    embedded module by module.  Module-level variables become an explicit
    state record, awaited calls into the platform (the [fetch] API, the
    DuckDB connection, [crypto.subtle]) become oracles that may throw, and
    thrown values are carried in a sum type.  Numbers that hold integers
    are integers, with the rounding of doubles written out where the code
    computes with them, and a plain object used as a map is a finite map
    under [Object.prototype].  Logging ([debugLog], [console.*]) is left
    out: it has no effect on the state. *)

From Stdlib Require Import ZArith String Ascii List Bool Lia.
From stdpp Require Import base option list gmap strings pretty.

Open Scope Z_scope.

(** ** JavaScript values shared by the modules *)

Module Js.

(** A thrown value: an [Error] instance with its message, or any other
    value, kept as [String(value)]. *)
Inductive thrown : Type :=
| ErrorObj (message : string)
| NonError (repr : string).

(** [error.message] as the [catch] blocks read it; a non-[Error] value
    has no such property and interpolates as [undefined]. *)
Definition message_of (e : thrown) : string :=
  match e with
  | ErrorObj m => m
  | NonError _ => "undefined"
  end.

(** [error instanceof Error ? error.message : String(error)] *)
Definition describe (e : thrown) : string :=
  match e with
  | ErrorObj m => m
  | NonError r => r
  end.

(** Truthiness of a [string | null | undefined] value. *)
Definition truthy (v : option string) : bool :=
  match v with
  | Some s => negb (String.eqb s "")
  | None => false
  end.

(** [a || b] on strings. *)
Definition or_else (a : option string) (b : string) : string :=
  match a with
  | Some s => if String.eqb s "" then b else s
  | None => b
  end.

(** Computations over a state [S] that may throw. *)
Definition M (S A : Type) : Type := S -> (thrown + A) * S.

Definition ret {S A} (a : A) : M S A := fun s => (inr a, s).

Definition throw {S A} (e : thrown) : M S A := fun s => (inl e, s).

Definition bind {S A B} (m : M S A) (k : A -> M S B) : M S B :=
  fun s =>
    match m s with
    | (inr a, s') => k a s'
    | (inl e, s') => (inl e, s')
    end.

(** [try { m } catch (error) { h error }] *)
Definition try_catch {S A} (m : M S A) (h : thrown -> M S A) : M S A :=
  fun s =>
    match m s with
    | (inr a, s') => (inr a, s')
    | (inl e, s') => h e s'
    end.

Definition gets {S A} (f : S -> A) : M S A := fun s => (inr (f s), s).

Definition modify {S} (f : S -> S) : M S unit := fun s => (inr tt, f s).

(** *** Numbers

    A number that holds an integer is modelled by that integer.  Numbers
    are IEEE 754 doubles: every integer up to [2^53] in magnitude is one,
    and the result of an addition or a multiplication is the double
    nearest to the exact result, the one with the even significand when
    two are equally near.  Results at or beyond [2^1024] in magnitude
    ([Infinity]) are outside the model. *)

Definition MAX_SAFE_INTEGER : Z := 2 ^ 53 - 1.

(** The nearest double to an integer. *)
Definition to_double (z : Z) : Z :=
  let a := Z.abs z in
  if a <? 2 ^ 53 then z
  else
    let e := Z.log2 a - 52 in
    let q := a / 2 ^ e in
    let r := a mod 2 ^ e in
    let half := 2 ^ (e - 1) in
    let q' := if (half <? r) || ((r =? half) && Z.odd q) then q + 1 else q in
    Z.sgn z * (q' * 2 ^ e).

(** [a + b] and [a * b] on numbers. *)
Definition add (a b : Z) : Z := to_double (a + b).

Definition mul (a b : Z) : Z := to_double (a * b).

(** The integers on which arithmetic is exact. *)
Definition safe (z : Z) : Prop := Z.abs z <= MAX_SAFE_INTEGER.

(** *** Plain objects

    An object written [{}] or [{ k: v, ... }], by a spread, by
    [JSON.parse] or by [Object.fromEntries], and used as a map from keys
    to strings: its own properties are a finite map, and its prototype is
    [Object.prototype].  A property read [o[k]] finds the own property
    when there is one and the member of [Object.prototype] of that name
    otherwise; the names below are the members every engine has. *)

Definition Object_prototype : list string :=
  [ "constructor"; "__defineGetter__"; "__defineSetter__"; "hasOwnProperty";
    "__lookupGetter__"; "__lookupSetter__"; "isPrototypeOf"; "propertyIsEnumerable";
    "toString"; "valueOf"; "__proto__"; "toLocaleString" ].

(** What a property read yields: the string of an own property, or a
    member of [Object.prototype] (a function, or for [__proto__] the
    prototype itself). *)
Inductive value : Type :=
| Str (s : string)
| Member (name : string).

(** [o[k]], [None] for [undefined]. *)
Definition get (o : gmap string string) (k : string) : option value :=
  match o !! k with
  | Some s => Some (Str s)
  | None => if bool_decide (k ∈ Object_prototype) then Some (Member k) else None
  end.

(** Truthiness of what a property read yields: functions and objects are
    truthy. *)
Definition truthy_value (v : option value) : bool :=
  match v with
  | Some (Str s) => negb (String.eqb s "")
  | Some (Member _) => true
  | None => false
  end.

(** [String(v)], as a template literal interpolates [v]: a member of
    [Object.prototype] prints as a native function under its own name
    ([constructor] is the function [Object]); the prototype itself prints
    as any plain object does. *)
Definition String_of (v : value) : string :=
  match v with
  | Str s => s
  | Member name =>
      if String.eqb name "__proto__" then "[object Object]"
      else "function " +:+ (if String.eqb name "constructor" then "Object" else name)
           +:+ "() { [native code] }"
  end.

End Js.

Declare Scope js_scope.
Delimit Scope js_scope with js.
Notation "x <- m ;; k" := (Js.bind m (fun x => k))
  (at level 100, m at next level, right associativity) : js_scope.
Notation "m ;;; k" := (Js.bind m (fun _ => k))
  (at level 100, right associativity) : js_scope.

(** ** credentials.js *)

Module Credentials.
Import Js.

Inductive Operation : Type := GET | PUT | DELETE.

Definition Operation_eqb (a b : Operation) : bool :=
  match a, b with
  | GET, GET | PUT, PUT | DELETE, DELETE => true
  | _, _ => false
  end.

(** [const config = { proxyUrl: null, provider: null }] *)
Record Config : Type := mkConfig {
  proxyUrl : option string;
  provider : option string
}.

(** [const cache = { urls: {}, expiry: 0 }] *)
Record PresignedUrlCache : Type := mkCache {
  urls : gmap string string;
  expiry : Z
}.

(** The body handed to [proxyRequest], before [provider] is spread in. *)
Inductive Body : Type :=
| PresignBody (operation : Operation) (path : string) (contentType : option string)
| PresignBatchBody (paths : list string).

(** One [fetch] to the proxy: always a POST with a JSON body. *)
Record Request : Type := mkRequest {
  req_url : string;
  req_authorization : string;
  req_provider : option string;
  req_body : Body
}.

(** The fields of the JSON answer the callers read ([PresignResponse] has
    [url] and [expiresIn], [PresignBatchResponse] has [urls] and
    [expiresIn]). *)
Record ProxyJson : Type := mkJson {
  json_url : string;
  json_urls : gmap string string;
  json_expiresIn : Z
}.

Record Response : Type := mkResponse {
  status : Z;
  text : thrown + string;
  json : thrown + ProxyJson
}.

(** [response.ok]: the status is in the range 200-299. *)
Definition ok (r : Response) : bool := (200 <=? status r) && (status r <=? 299).

Inductive Fetched : Type :=
| Rejected (e : thrown)
| Resolved (r : Response).

(** The network: how the [n]-th request sent to the proxy is answered, and
    how many milliseconds pass on the wall clock until then. *)
Definition Network : Type := nat -> Z * Fetched.

(** The module-level variables, the wall clock read by [Date.now()], and
    the requests sent so far. *)
Record State : Type := mkState {
  config : Config;
  sessionToken : option string;
  cache : PresignedUrlCache;
  now : Z;
  sent : list Request
}.

Definition initial (t : Z) : State :=
  mkState (mkConfig None None) None (mkCache ∅ 0) t [].

Definition set_config (c : Config) (s : State) : State :=
  mkState c (sessionToken s) (cache s) (now s) (sent s).

Definition set_sessionToken (t : option string) (s : State) : State :=
  mkState (config s) t (cache s) (now s) (sent s).

Definition set_cache (c : PresignedUrlCache) (s : State) : State :=
  mkState (config s) (sessionToken s) c (now s) (sent s).

(** The caller comes back when the wall clock shows [t]. *)
Definition atTime (t : Z) (s : State) : State :=
  mkState (config s) (sessionToken s) (cache s) t (sent s).

Definition REFRESH_BUFFER_MS : Z := 60 * 1000.

Definition throwError {A} (msg : string) : M State A := throw (ErrorObj msg).

Definition configureProxy (proxyConfig : Config) : M State unit :=
  if negb (truthy (proxyUrl proxyConfig)) then
    throwError "Credential proxy URL is required"
  else if negb (truthy (provider proxyConfig)) then
    throwError "Storage provider is required"
  else
    modify (set_config (mkConfig (proxyUrl proxyConfig) (provider proxyConfig))).

Definition setSessionToken (token : option string) : M State unit :=
  if negb (truthy token) then throwError "Valid session token is required"
  else modify (set_sessionToken token).

Definition clearCredentials (s : State) : State :=
  set_cache (mkCache ∅ 0) (set_sessionToken None s).

(** [Date.now()] is a time value, at most 8.64e15 in magnitude, so that the
    sum with the buffer is exact. *)
Definition isCacheValid (s : State) : bool :=
  now s + REFRESH_BUFFER_MS <? expiry (cache s).

(** [cache.urls = { ...cache.urls, ...urls }]: the new entries win.
    [cache.expiry = now + expiresIn * 1000], in the arithmetic of
    numbers. *)
Definition updateCache (new_urls : gmap string string) (expiresIn : Z) (s : State) : State :=
  set_cache (mkCache (new_urls ∪ urls (cache s)) (add (now s) (mul expiresIn 1000))) s.

(** Sending the request: it is recorded, and the wall clock has moved on
    when the answer is there. *)
Definition fetch (net : Network) (r : Request) : M State Fetched :=
  fun s =>
    let '(dt, answer) := net (length (sent s)) in
    (inr answer, mkState (config s) (sessionToken s) (cache s) (now s + dt) (sent s ++ [r])).

(** [await response.text().catch(() => 'Unknown error')] *)
Definition errorText_of (r : Response) : string :=
  match text r with
  | inr t => t
  | inl _ => "Unknown error"
  end.

Definition proxyRequest (net : Network) (endpoint : string) (body : Body) : M State ProxyJson :=
  (cfg <- gets config ;;
   tok <- gets sessionToken ;;
   if negb (truthy (proxyUrl cfg)) then
     throwError "Credential proxy not configured. Call configureProxy() first."
   else if negb (truthy tok) then
     throwError "Not authenticated. Call setSessionToken() first."
   else
     let url := or_else (proxyUrl cfg) "" +:+ endpoint in
     try_catch
       (answer <- fetch net (mkRequest url ("Bearer " +:+ or_else tok "") (provider cfg) body) ;;
        match answer with
        | Rejected e => throw e
        | Resolved response =>
            if negb (ok response) then
              let errorText := errorText_of response in
              if (status response =? 401) || (status response =? 403) then
                modify clearCredentials ;;;
                throwError ("Authentication failed: " +:+ errorText)
              else
                throwError ("Credential proxy request failed (" +:+ pretty (status response)
                            +:+ "): " +:+ errorText)
            else
              match json response with
              | inr data => ret data
              | inl e => throw e
              end
        end)
       (fun error =>
          match error with
          | ErrorObj _ => throw error
          | NonError r =>
              throwError ("Failed to communicate with credential proxy: " +:+ r)
          end))%js.

(** [cache.urls[path]] is a property read on a plain object: what is
    tested, and returned on a hit, is the cached URL or, for a path that
    names a member of [Object.prototype] and has no URL of its own, that
    member. *)
Definition getPresignedUrl (net : Network) (path : string) (operation : Operation)
    (contentType : string) : M State value :=
  (if negb (truthy (Some path)) then throwError "Valid file path is required"
   else
     c <- gets cache ;;
     valid <- gets isCacheValid ;;
     if Operation_eqb operation GET && valid && truthy_value (get (urls c) path) then
       (* what was read is truthy, so it is not [undefined] *)
       match get (urls c) path with
       | Some v => ret v
       | None => ret (Str "")
       end
     else
       response <- proxyRequest net "/presign"
                     (PresignBody operation path
                        (if Operation_eqb operation PUT then Some contentType else None)) ;;
       (if Operation_eqb operation GET then
          modify (updateCache {[ path := json_url response ]} (json_expiresIn response))
        else ret tt) ;;;
       ret (Str (json_url response)))%js.

(** [Object.fromEntries(validPaths.map((p) => [p, cache.urls[p]]))]: an
    own property for every valid path, holding what the property read
    yields, [undefined] included. *)
Definition fromCache (validPaths : list string) (c : PresignedUrlCache)
    : gmap string (option value) :=
  foldl (fun acc p => <[ p := get (urls c) p ]> acc) ∅ validPaths.

Definition fetchPresignedUrls (net : Network) (paths : list string)
    : M State (gmap string (option value)) :=
  (if (length paths =? 0)%nat then throwError "Valid array of paths is required"
   else
     let validPaths := filter (fun p => truthy (Some p) = true) paths in
     if (length validPaths =? 0)%nat then throwError "No valid paths provided"
     else
       c <- gets cache ;;
       valid <- gets isCacheValid ;;
       let pathsToFetch :=
         if valid then filter (fun p => truthy_value (get (urls c) p) = false) validPaths
         else validPaths in
       if (length pathsToFetch =? 0)%nat then ret (fromCache validPaths c)
       else
         response <- proxyRequest net "/presign-batch" (PresignBatchBody pathsToFetch) ;;
         modify (updateCache (json_urls response) (json_expiresIn response)) ;;;
         c' <- gets cache ;;
         ret (fromCache validPaths c'))%js.

(** Vocabulary for statements about the module. *)

Definition configured (s : State) : Prop := truthy (proxyUrl (config s)) = true.

Definition authenticated (s : State) : Prop := truthy (sessionToken s) = true.

(** The proxy answered 401 or 403. *)
Definition denied (r : Response) : bool := (status r =? 401) || (status r =? 403).

Definition deniedAnswer (a : Fetched) : bool :=
  match a with
  | Resolved r => denied r
  | Rejected _ => false
  end.

(** The test that lets [getPresignedUrl] answer a GET without the proxy. *)
Definition servedFromCache (s : State) (path : string) : bool :=
  isCacheValid s && truthy_value (get (urls (cache s)) path).

(** The request [proxyRequest] builds in state [s]. *)
Definition request_of (s : State) (endpoint : string) (body : Body) : Request :=
  mkRequest (or_else (proxyUrl (config s)) "" +:+ endpoint)
            ("Bearer " +:+ or_else (sessionToken s) "") (provider (config s)) body.

(** The state once the answer to request [r] is there, [dt] ms later. *)
Definition afterFetch (dt : Z) (r : Request) (s : State) : State :=
  mkState (config s) (sessionToken s) (cache s) (now s + dt) (sent s ++ [r]).

(** The token and the whole cache are gone. *)
Definition wiped (s : State) : Prop :=
  sessionToken s = None /\ urls (cache s) = ∅ /\ expiry (cache s) = 0.

Record CacheState : Type := mkCacheState {
  cs_size : nat;
  cs_expiry : Z;
  cs_expiresIn : Z
}.

Definition getCacheState (s : State) : CacheState :=
  mkCacheState (size (urls (cache s))) (expiry (cache s))
               (Z.max 0 ((expiry (cache s) - now s) / 1000)).

End Credentials.

(** ** repository.js *)

Module Repository.
Import Js.

Record RepositoryInfo : Type := mkRepository {
  service : string;
  label : string;
  storageType : string;
  storageProvider : string;
  bucket : string;
  dataPath : string;
  pathPrefix : string;
  credentialProxy : string;
  catalogType : string;
  catalogEndpoint : string;
  assetMode : string;
  owner : string;
  repo : string;
  branch : string;
  repoURL : string;
  treeBaseURL : string;
  blobBaseURL : string;
  isSelfHosted : bool;
  databaseName : string
}.

(** The initial value of [repository], which [resetRepository] restores. *)
Definition repository : RepositoryInfo :=
  mkRepository "" "" "" "" "" "" "" "" "" "" "inline" "" "" "" "" "" "" false "".

Definition resetRepository (_ : RepositoryInfo) : RepositoryInfo := repository.

(** [s.replace(/\/+/g, '/')]: every maximal run of slashes becomes one. *)
Fixpoint collapse_slashes (s : string) : string :=
  match s with
  | EmptyString => EmptyString
  | String c rest =>
      match rest with
      | String c' _ =>
          if Ascii.eqb c "/" && Ascii.eqb c' "/" then collapse_slashes rest
          else String c (collapse_slashes rest)
      | EmptyString => String c EmptyString
      end
  end.

Definition starts_with_slash (s : string) : bool :=
  match s with
  | String c _ => Ascii.eqb c "/"
  | EmptyString => false
  end.

(** Whether two separators follow each other somewhere in [s]. *)
Fixpoint has_double_slash (s : string) : bool :=
  match s with
  | EmptyString => false
  | String c rest =>
      (Ascii.eqb c "/" && starts_with_slash rest) || has_double_slash rest
  end.

(** [parts.filter(Boolean)] on strings: the empty string is dropped. *)
Definition filter_Boolean (parts : list string) : list string :=
  List.filter (fun p => truthy (Some p)) parts.

Definition getFullStoragePath (r : RepositoryInfo) (relativePath : string) : string :=
  let parts := filter_Boolean [pathPrefix r; dataPath r; relativePath] in
  collapse_slashes (String.concat "/" parts).

(** [repository.bucket = ...; repository.dataPath = ...;
    repository.pathPrefix = ...] *)
Definition set_storage (bucket' dataPath' pathPrefix' : string) (r : RepositoryInfo)
    : RepositoryInfo :=
  mkRepository (service r) (label r) (storageType r) (storageProvider r)
               bucket' dataPath' pathPrefix'
               (credentialProxy r) (catalogType r) (catalogEndpoint r) (assetMode r)
               (owner r) (repo r) (branch r) (repoURL r) (treeBaseURL r) (blobBaseURL r)
               (isSelfHosted r) (databaseName r).

Definition set_assetMode (assetMode' : string) (r : RepositoryInfo) : RepositoryInfo :=
  mkRepository (service r) (label r) (storageType r) (storageProvider r)
               (bucket r) (dataPath r) (pathPrefix r)
               (credentialProxy r) (catalogType r) (catalogEndpoint r) assetMode'
               (owner r) (repo r) (branch r) (repoURL r) (treeBaseURL r) (blobBaseURL r)
               (isSelfHosted r) (databaseName r).

Definition getStorageURI (r : RepositoryInfo) (relativePath : string) : string :=
  let fullPath := getFullStoragePath r relativePath in
  "s3://" +:+ fullPath.

End Repository.

(** ** The connection interface of the query engine

    The statements the modules send through [conn.query], as syntax: the
    text built by string interpolation is kept as the statement it spells
    when the interpolated values contain no quote character. *)

Module Duck.
Import Js.

Definition Bytes : Type := list Byte.byte.

Inductive Expr : Type :=
| Lit (s : string)
| Num (n : Z)
| Null
| BlobParam
| CurrentTimestamp.

Inductive Cond : Type :=
| WhereEq (column : string) (value : string)
| WhereIn (column : string) (values : list string)
| WhereAnd (a b : Cond).

Inductive Statement : Type :=
| Insert (table : string) (columns : list string) (values : list Expr)
| Update (table : string) (sets : list (string * Expr)) (where_ : Cond)
| Select (columns : list string) (from : string) (where_ : Cond).

(** A result row, as [toArray()] yields it: column name and text. *)
Definition Row : Type := list (string * string).

(** [conn.query(sql, params)] over an engine whose state is [DB]. *)
Definition Query (DB : Type) : Type :=
  Statement -> list Bytes -> M DB (list Row).

(** A connection that only records what it is asked, and answers with no
    rows. *)
Definition recorder : Query (list (Statement * list Bytes)) :=
  fun sql params log => (inr [], log ++ [(sql, params)]).

(** The expression a statement gives to a column. *)
Fixpoint assoc (column : string) (binds : list (string * Expr)) : option Expr :=
  match binds with
  | [] => None
  | (c, e) :: rest => if String.eqb c column then Some e else assoc column rest
  end.

Definition assigned (column : string) (sql : Statement) : option Expr :=
  match sql with
  | Insert _ columns values => assoc column (combine columns values)
  | Update _ sets _ => assoc column sets
  | Select _ _ _ => None
  end.

End Duck.

(** ** queries/assets.js *)

Module Assets.
Import Js Duck.

Record Asset : Type := mkAsset {
  sha : string;
  path : string;
  name : string;
  size : Z;
  kind : string;
  blobURL : option string
}.

(** [Partial<Asset>]: the fields [updateAsset] looks at. *)
Record AssetUpdates : Type := mkUpdates {
  upd_name : option string;
  upd_path : option string;
  upd_size : option Z;
  upd_blobURL : option string
}.

Definition DEFAULT_INLINE_THRESHOLD : Z := 5 * 1024 * 1024.

Definition lower_ascii (c : ascii) : ascii :=
  let n := N_of_ascii c in
  if ((65 <=? n) && (n <=? 90))%N then ascii_of_N (n + 32) else c.

Fixpoint toLowerCase (s : string) : string :=
  match s with
  | EmptyString => EmptyString
  | String c rest => String (lower_ascii c) (toLowerCase rest)
  end.

Definition mimeTypes : list (string * string) :=
  [ ("jpg", "image/jpeg"); ("jpeg", "image/jpeg"); ("png", "image/png");
    ("gif", "image/gif"); ("webp", "image/webp"); ("svg", "image/svg+xml");
    ("mp4", "video/mp4"); ("webm", "video/webm");
    ("mp3", "audio/mpeg"); ("wav", "audio/wav"); ("ogg", "audio/ogg");
    ("pdf", "application/pdf"); ("doc", "application/msword");
    ("docx", "application/vnd.openxmlformats-officedocument.wordprocessingml.document");
    ("txt", "text/plain"); ("md", "text/markdown"); ("json", "application/json") ].

Fixpoint lookup_table (key : string) (table : list (string * string)) : option string :=
  match table with
  | [] => None
  | (k, v) :: rest => if String.eqb k key then Some v else lookup_table key rest
  end.

Definition assets_columns : list string :=
  [ "id"; "path"; "filename"; "mime_type"; "size"; "kind"; "content"; "sha";
    "storage_mode"; "storage_url"; "created_at"; "updated_at" ].

Section WithConnection.

Context {DB : Type}.

(** The connection handed to the functions of this module. *)
Variable conn_query : Query DB.

(** [getPathInfo(path).extension], from [@sveltia/utils/file]. *)
Variable extension : string -> option string.

(** [mimeTypes[key]]: a property read on the object literal, which finds
    the members of [Object.prototype] where the table has no entry. *)
Definition mimeTypes_get (key : string) : option value :=
  match lookup_table key mimeTypes with
  | Some v => Some (Str v)
  | None => if bool_decide (key ∈ Object_prototype) then Some (Member key) else None
  end.

(** [mimeTypes[extension?.toLowerCase()] || 'application/octet-stream'];
    without an extension the key is [undefined]. *)
Definition getMimeTypeFromPath (path : string) : value :=
  let key :=
    match extension path with
    | Some ext => toLowerCase ext
    | None => "undefined"
    end in
  match mimeTypes_get key with
  | Some v => if truthy_value (Some v) then v else Str "application/octet-stream"
  | None => Str "application/octet-stream"
  end.

(** [assetMode === 'inline' && content && content.length <= threshold]:
    the content to store inline when all three hold. *)
Definition useInline (assetMode : string) (content : option Bytes) (threshold : Z)
    : option Bytes :=
  match content with
  | Some bytes =>
      if String.eqb assetMode "inline" && (Z.of_nat (length bytes) <=? threshold)
      then Some bytes else None
  | None => None
  end.

Definition insertAsset (repository : Repository.RepositoryInfo) (asset : Asset)
    (content : option Bytes) (threshold : Z) : M DB unit :=
  let assetMode := Repository.assetMode repository in
  try_catch
    (match useInline assetMode content threshold with
     | Some bytes =>
         (_ <- conn_query
                 (Insert "cms.assets" assets_columns
                    [ Lit (sha asset); Lit (path asset); Lit (name asset);
                      Lit (String_of (getMimeTypeFromPath (path asset)));
                      Num (Z.of_nat (length bytes)); Lit (kind asset);
                      BlobParam; Lit (sha asset); Lit "inline"; Null;
                      CurrentTimestamp; CurrentTimestamp ])
                 [bytes] ;;
          ret tt)%js
     | None =>
         let storageUrl := or_else (blobURL asset) (path asset) in
         (_ <- conn_query
                 (Insert "cms.assets" assets_columns
                    [ Lit (sha asset); Lit (path asset); Lit (name asset);
                      Lit (String_of (getMimeTypeFromPath (path asset)));
                      Num (size asset); Lit (kind asset);
                      Null; Lit (sha asset); Lit "external"; Lit storageUrl;
                      CurrentTimestamp; CurrentTimestamp ])
                 [] ;;
          ret tt)%js
     end)
    (fun error => throw (ErrorObj ("Failed to insert asset: " +:+ message_of error))).

(** [if (cond) { setClauses.push(...) }] *)
Definition push_if {A} (cond : bool) (items : list A) (acc : list A) : list A :=
  if cond then acc ++ items else acc.

Definition updateAsset (id : string) (updates : AssetUpdates) (content : option Bytes)
    : M DB unit :=
  try_catch
    (let setClauses : list (string * Expr) := [] in
     let params : list Bytes := [] in
     let setClauses :=
       push_if (truthy (upd_name updates))
               [("filename", Lit (or_else (upd_name updates) ""))] setClauses in
     let setClauses :=
       push_if (truthy (upd_path updates))
               [("path", Lit (or_else (upd_path updates) ""))] setClauses in
     let setClauses :=
       match upd_size updates with
       | Some n => setClauses ++ [("size", Num n)]
       | None => setClauses
       end in
     let '(setClauses, params) :=
       match content with
       | Some bytes =>
           (setClauses ++ [("content", BlobParam); ("storage_mode", Lit "inline");
                           ("storage_url", Null)],
            params ++ [bytes])
       | None =>
           if truthy (upd_blobURL updates) then
             (setClauses ++ [("storage_url", Lit (or_else (upd_blobURL updates) ""));
                             ("storage_mode", Lit "external"); ("content", Null)],
              params)
           else (setClauses, params)
       end in
     let setClauses := setClauses ++ [("updated_at", CurrentTimestamp)] in
     if (length setClauses =? 0)%nat then ret tt
     else
       (_ <- conn_query (Update "cms.assets" setClauses (WhereEq "id" id)) params ;;
        ret tt)%js)
    (fun error => throw (ErrorObj ("Failed to update asset: " +:+ message_of error))).

End WithConnection.

(** Vocabulary for statements about the module. *)

(** What a statement with its parameters stores: the bytes themselves, or
    a reference to where they are. *)
Definition storesInline (bytes : Bytes) (sql : Statement) (params : list Bytes) : Prop :=
  assigned "storage_mode" sql = Some (Lit "inline") /\
  assigned "content" sql = Some BlobParam /\ params = [bytes] /\
  assigned "storage_url" sql = Some Null.

Definition storesExternal (url : string) (sql : Statement) (params : list Bytes) : Prop :=
  assigned "storage_mode" sql = Some (Lit "external") /\
  assigned "content" sql = Some Null /\ params = [] /\
  assigned "storage_url" sql = Some (Lit url).

(** One statement sent through the connection, a failure reported under
    [prefix]. *)
Definition issue {DB} (prefix : string) (q : Query DB) (sql : Statement)
    (params : list Bytes) : M DB unit :=
  try_catch (_ <- q sql params ;; ret tt)%js
            (fun error => throw (ErrorObj (prefix +:+ message_of error))).

End Assets.

(** ** queries/schema.js *)

Module Schema.
Import Js Duck.

(** The two probes of [schemaExists]. *)
Definition schemata_probe : Statement :=
  Select ["schema_name"] "information_schema.schemata" (WhereEq "schema_name" "cms").

Definition tables_probe : Statement :=
  Select ["table_name"] "information_schema.tables"
         (WhereAnd (WhereEq "table_schema" "cms") (WhereIn "table_name" ["entries"; "assets"])).

Section WithConnection.

Context {DB : Type}.
Variable conn_query : Query DB.

Definition schemaExists : M DB bool :=
  try_catch
    (schemaRows <- conn_query schemata_probe [] ;;
     if (length schemaRows =? 0)%nat then ret false
     else
       tableRows <- conn_query tables_probe [] ;;
       ret (length tableRows =? 2)%nat)%js
    (fun _ => ret false).

End WithConnection.

End Schema.

(** A reference engine for the two information-schema queries: the
    catalog of one database, a set of namespaces and a set of tables
    qualified by their namespace.  [faults] makes the engine reject a
    statement. *)

Module Catalog.
Import Js Duck.

Record Catalog : Type := mkCatalog {
  schemata : gset string;
  tables : gset (string * string)
}.

Fixpoint field (column : string) (row : Row) : option string :=
  match row with
  | [] => None
  | (c, v) :: rest => if String.eqb c column then Some v else field column rest
  end.

Fixpoint holds (w : Cond) (row : Row) : bool :=
  match w with
  | WhereEq column value =>
      match field column row with
      | Some v => String.eqb v value
      | None => false
      end
  | WhereIn column values =>
      match field column row with
      | Some v => existsb (String.eqb v) values
      | None => false
      end
  | WhereAnd a b => holds a row && holds b row
  end.

Definition schemata_row (s : string) : Row := [("schema_name", s)].

Definition tables_row (t : string * string) : Row :=
  [("table_schema", t.1); ("table_name", t.2)].

Definition relation (cat : Catalog) (from : string) : option (list Row) :=
  if String.eqb from "information_schema.schemata" then
    Some (map schemata_row (elements (schemata cat)))
  else if String.eqb from "information_schema.tables" then
    Some (map tables_row (elements (tables cat)))
  else None.

(** What the two probes select, on the items of the catalog. *)
Definition is_cms (s : string) : bool := String.eqb s "cms".

Definition is_cms_table (t : string * string) : bool :=
  String.eqb t.1 "cms" && (String.eqb t.2 "entries" || String.eqb t.2 "assets").

Definition project (columns : list string) (row : Row) : Row :=
  List.filter (fun cv => existsb (String.eqb cv.1) columns) row.

Definition query (faults : Statement -> option thrown) : Query Catalog :=
  fun sql _ cat =>
    match faults sql with
    | Some e => (inl e, cat)
    | None =>
        match sql with
        | Select columns from w =>
            match relation cat from with
            | Some rows => (inr (map (project columns) (List.filter (holds w) rows)), cat)
            | None => (inl (ErrorObj ("Catalog Error: Table " +:+ from +:+ " does not exist")), cat)
            end
        | _ => (inl (ErrorObj "Not implemented Error: statement is not a query"), cat)
        end
    end.

End Catalog.

(** ** commits.js *)

Module Commits.
Import Js Duck.

Record Entry : Type := mkEntry {
  entry_id : string;
  entry_sha : option string
}.

(** The fields of a [FileChange] that [commitChanges] itself reads. *)
Record FileChange : Type := mkFileChange {
  action : string;
  path : string;
  data : option string;
  entry : option Entry;
  asset : option Assets.Asset
}.

Record CommitOptions : Type := mkOptions {
  collection_name : option string
}.

Record CommitResults : Type := mkResults {
  sha : string;
  date : Z;
  files : list (string * string)
}.

Definition hex_digit (n : N) : ascii :=
  nth (N.to_nat n) (list_ascii_of_string "0123456789abcdef") "0"%char.

(** [b.toString(16)] for a byte. *)
Definition toString16 (b : Byte.byte) : string :=
  let n := Byte.to_N b in
  if (n <? 16)%N then String (hex_digit n) EmptyString
  else String (hex_digit (n / 16)) (String (hex_digit (n mod 16)) EmptyString).

Definition padStart (targetLength : nat) (pad : ascii) (s : string) : string :=
  string_of_list_ascii (repeat pad (targetLength - String.length s)) +:+ s.

Definition hashHex (hashArray : Bytes) : string :=
  String.concat "" (map (fun b => padStart 2 "0" (toString16 b)) hashArray).

(** [new Uint8Array(n)] *)
Definition Uint8Array_new (n : nat) : Bytes := replicate n Byte.x00.

(** [target.set(source, offset)]; a [RangeError] when the source does not
    fit. *)
Definition Uint8Array_set (source : Bytes) (offset : nat) (target : Bytes)
    : thrown + Bytes :=
  if (offset + length source <=? length target)%nat then
    inr (take offset target ++ source ++ drop (offset + length source) target)
  else inl (ErrorObj "offset is out of bounds").

Definition asset_extensions : list string :=
  ["jpg"; "jpeg"; "png"; "gif"; "svg"; "webp"; "mp4"; "webm"; "pdf"; "doc"].

Definition endsWith (suffix s : string) : bool :=
  (String.length suffix <=? String.length s)%nat
  && String.eqb (substring (String.length s - String.length suffix)
                           (String.length suffix) s) suffix.

(** [c.path.match(/\.(jpg|jpeg|png|gif|svg|webp|mp4|webm|pdf|doc)$/i)] *)
Definition matches_asset_extension (path : string) : bool :=
  existsb (fun ext => endsWith ("." +:+ ext) (Assets.toLowerCase path)) asset_extensions.

Definition isEntryChange (c : FileChange) : bool :=
  let isEntryFile := truthy (Some (path c)) && negb (matches_asset_extension (path c)) in
  isEntryFile && (bool_decide (is_Some (data c)) || bool_decide (is_Some (entry c))).

Definition isAssetChange (c : FileChange) : bool := bool_decide (is_Some (asset c)).

Section WithWorld.

(** Everything outside this module that a commit touches: the engine and
    its tables, the credential cache, the object store, the clock. *)
Context {W Conn : Type}.

(** [crypto.subtle.digest('SHA-256', content)] *)
Variable digest_SHA256 : Bytes -> thrown + Bytes.

Variable getConnection : M W Conn.
Variable getPresignedUrl : string -> Credentials.Operation -> string -> M W string.

(** [fetch(url, { method: 'PUT', body, headers: { 'Content-Type': ... } })] *)
Variable fetch_PUT : string -> Bytes -> string -> M W Credentials.Response.

(** The table mutations of a commit ([processEntryChanges],
    [processAssetChanges]) and the two exports. *)
Variable processEntryChanges : Conn -> list FileChange -> string -> M W unit.
Variable processAssetChanges : Conn -> list FileChange -> M W unit.
Variable exportEntriesToParquet : Conn -> M W Bytes.
Variable exportAssetsToParquet : Conn -> M W Bytes.

(** [new Date()] *)
Variable Date_new : M W Z.

Definition lift {A} (r : thrown + A) : M W A := fun w => (r, w).

Definition generateSha (content : Bytes) : M W string :=
  try_catch
    (hashBuffer <- lift (digest_SHA256 content) ;;
     let hashArray := hashBuffer in
     let hashHex := hashHex hashArray in
     ret (substring 0 40 hashHex))%js
    (fun error => throw (ErrorObj ("Failed to generate SHA: " +:+ describe error))).

Definition uploadParquetFile (path : string) (content : Bytes) : M W unit :=
  try_catch
    (presignedUrl <- getPresignedUrl path Credentials.PUT "application/octet-stream" ;;
     response <- fetch_PUT presignedUrl content "application/octet-stream" ;;
     if negb (Credentials.ok response) then
       throw (ErrorObj ("Upload failed (" +:+ pretty (Credentials.status response)
                        +:+ "): " +:+ Credentials.errorText_of response))
     else ret tt)%js
    (fun error =>
       throw (ErrorObj ("Failed to upload " +:+ path +:+ ": " +:+ describe error))).

(** [await Promise.all([a, b])]: both uploads are started whatever happens
    to the other, and the commit goes on only when both succeeded.  The
    rejection passed on is taken to be that of the first one listed. *)
Definition Promise_all2 (a b : M W unit) : M W unit :=
  fun w =>
    let '(ra, w1) := a w in
    let '(rb, w2) := b w1 in
    match ra, rb with
    | inr _, inr _ => (inr tt, w2)
    | inl e, _ => (inl e, w2)
    | inr _, inl e => (inl e, w2)
    end.

Definition file_sha (commit_sha : string) (change : FileChange) : string :=
  or_else (match entry change with Some e => entry_sha e | None => None end)
          (or_else (match asset change with Some a => Some (Assets.sha a) | None => None end)
                   commit_sha).

Definition commitChanges (repository : Repository.RepositoryInfo)
    (changes : list FileChange) (options : CommitOptions) : M W CommitResults :=
  try_catch
    (conn <- getConnection ;;
     let entryChanges := List.filter isEntryChange changes in
     let assetChanges := List.filter isAssetChange changes in
     let collectionName := or_else (collection_name options) "" in
     processEntryChanges conn entryChanges collectionName ;;;
     processAssetChanges conn assetChanges ;;;
     entriesParquet <- exportEntriesToParquet conn ;;
     assetsParquet <- exportAssetsToParquet conn ;;
     let entriesPath := Repository.getFullStoragePath repository "entries.parquet" in
     let assetsPath := Repository.getFullStoragePath repository "assets.parquet" in
     Promise_all2 (uploadParquetFile entriesPath entriesParquet)
                  (uploadParquetFile assetsPath assetsParquet) ;;;
     let combinedContent :=
       Uint8Array_new (length entriesParquet + length assetsParquet) in
     combinedContent <- lift (Uint8Array_set entriesParquet 0 combinedContent) ;;
     combinedContent <-
       lift (Uint8Array_set assetsParquet (length entriesParquet) combinedContent) ;;
     sha <- generateSha combinedContent ;;
     let files := map (fun change => (path change, file_sha sha change)) changes in
     date <- Date_new ;;
     ret (mkResults sha date files))%js
    (fun error => throw (ErrorObj ("Failed to commit changes: " +:+ describe error))).

(** The two snapshots a commit exports: what the run has produced when
    both exports are done, entries first. *)
Definition exportedSnapshots (changes : list FileChange) (options : CommitOptions)
    : M W (Bytes * Bytes) :=
  (conn <- getConnection ;;
   processEntryChanges conn (List.filter isEntryChange changes)
     (or_else (collection_name options) "") ;;;
   processAssetChanges conn (List.filter isAssetChange changes) ;;;
   entriesParquet <- exportEntriesToParquet conn ;;
   assetsParquet <- exportAssetsToParquet conn ;;
   ret (entriesParquet, assetsParquet))%js.

End WithWorld.

(** The commit identifier as a function of the two snapshots alone. *)
Definition commitId (digest_SHA256 : Bytes -> thrown + Bytes)
    (entriesParquet assetsParquet : Bytes) : thrown + string :=
  match digest_SHA256 (entriesParquet ++ assetsParquet) with
  | inr hash => inr (substring 0 40 (hashHex hash))
  | inl e => inl e
  end.

End Commits.

(** ** init.js *)

Module Init.
Import Js.

(** The calls into the engine, the connection and the worker that
    [closeDuckDB] makes; a handle is named by a number. *)
Inductive Effect : Type :=
| ConnectionClose (conn : nat)
| DatabaseTerminate (db : nat)
| WorkerTerminate (worker : nat).

(** The module-level variables, and the calls made so far. *)
Record State : Type := mkState {
  db : option nat;
  conn : option nat;
  worker : option nat;
  isInitializing : bool;
  extensionsLoaded : bool;
  performed : list Effect
}.

Definition set_db (v : option nat) (s : State) : State :=
  mkState v (conn s) (worker s) (isInitializing s) (extensionsLoaded s) (performed s).

Definition set_conn (v : option nat) (s : State) : State :=
  mkState (db s) v (worker s) (isInitializing s) (extensionsLoaded s) (performed s).

Definition set_worker (v : option nat) (s : State) : State :=
  mkState (db s) (conn s) v (isInitializing s) (extensionsLoaded s) (performed s).

Definition set_extensionsLoaded (v : bool) (s : State) : State :=
  mkState (db s) (conn s) (worker s) (isInitializing s) v (performed s).

(** Whether a call throws, and what, given the calls made before it. *)
Definition Platform : Type := list Effect -> Effect -> option thrown.

Definition perform (platform : Platform) (e : Effect) : M State unit :=
  fun s =>
    let s' := mkState (db s) (conn s) (worker s) (isInitializing s)
                      (extensionsLoaded s) (performed s ++ [e]) in
    match platform (performed s) e with
    | Some err => (inl err, s')
    | None => (inr tt, s')
    end.

Definition closeDuckDB (platform : Platform) : M State unit :=
  (c <- gets conn ;;
   match c with
   | Some h =>
       try_catch (perform platform (ConnectionClose h)) (fun _ => ret tt) ;;;
       modify (set_conn None)
   | None => ret tt
   end ;;;
   d <- gets db ;;
   match d with
   | Some h =>
       try_catch (perform platform (DatabaseTerminate h)) (fun _ => ret tt) ;;;
       modify (set_db None)
   | None => ret tt
   end ;;;
   w <- gets worker ;;
   match w with
   | Some h =>
       try_catch (perform platform (WorkerTerminate h)) (fun _ => ret tt) ;;;
       modify (set_worker None)
   | None => ret tt
   end ;;;
   modify (set_extensionsLoaded false))%js.

(** The calls [closeDuckDB] is to make in state [s], in order. *)
Definition teardown (s : State) : list Effect :=
  match conn s with Some h => [ConnectionClose h] | None => [] end
  ++ match db s with Some h => [DatabaseTerminate h] | None => [] end
  ++ match worker s with Some h => [WorkerTerminate h] | None => [] end.

Definition isDuckDBReady (s : State) : bool :=
  bool_decide (db s <> None) && negb (isInitializing s).

Definition hasActiveConnection (s : State) : bool :=
  bool_decide (conn s <> None).

End Init.

(** ** credentials.js: the token exchange

    [exchangeToken] reads and writes none of the module-level variables;
    its state is the list of requests it has sent. *)

Module TokenExchange.
Import Js.

Definition DEFAULT_PRESIGN_EXPIRY : Z := 900.

Record Args : Type := mkArgs {
  oauthToken : option string;
  provider : option string;
  proxyURL : option string
}.

(** The POST to [proxyURL/token-exchange]: a JSON body with the token and
    the provider, and no [Authorization] header. *)
Record Request : Type := mkRequest {
  req_url : string;
  req_token : string;
  req_provider : string
}.

Definition User : Type := list (string * string).

(** The fields of the answer that are read; [expiresIn] may be absent. *)
Record Json : Type := mkJson {
  json_sessionToken : option string;
  json_user : option User;
  json_expiresIn : option Z
}.

Record Response : Type := mkResponse {
  status : Z;
  text : thrown + string;
  json : thrown + Json
}.

Definition ok (r : Response) : bool := (200 <=? status r) && (status r <=? 299).

Inductive Fetched : Type :=
| Rejected (e : thrown)
| Resolved (r : Response).

Definition Network : Type := nat -> Fetched.

Record Exchanged : Type := mkExchanged {
  sessionToken : string;
  user : User;
  expiresIn : Z
}.

Definition quote : string := String (ascii_of_nat 34) EmptyString.

Definition provider_message : string :=
  "Provider must be either " +:+ quote +:+ "github" +:+ quote +:+ " or "
  +:+ quote +:+ "gitlab" +:+ quote.

Definition is_provider (p : option string) : bool :=
  match p with
  | Some v => String.eqb v "github" || String.eqb v "gitlab"
  | None => false
  end.

Definition fetch (net : Network) (r : Request) : M (list Request) Fetched :=
  fun log => (inr (net (length log)), log ++ [r]).

(** [data.expiresIn || DEFAULT_PRESIGN_EXPIRY] *)
Definition expiresIn_or_default (e : option Z) : Z :=
  match e with
  | Some n => if n =? 0 then DEFAULT_PRESIGN_EXPIRY else n
  | None => DEFAULT_PRESIGN_EXPIRY
  end.

Definition exchangeToken (net : Network) (args : Args) : M (list Request) Exchanged :=
  if negb (truthy (oauthToken args)) then
    throw (ErrorObj "Valid OAuth token is required")
  else if negb (truthy (provider args)) || negb (is_provider (provider args)) then
    throw (ErrorObj provider_message)
  else if negb (truthy (proxyURL args)) then
    throw (ErrorObj "Valid credential proxy URL is required")
  else
    let url := or_else (proxyURL args) "" +:+ "/token-exchange" in
    try_catch
      (answer <- fetch net (mkRequest url (or_else (oauthToken args) "")
                              (or_else (provider args) "")) ;;
       match answer with
       | Rejected e => throw e
       | Resolved response =>
           if negb (ok response) then
             let errorText := match text response with
                              | inr t => t
                              | inl _ => "Unknown error"
                              end in
             throw (ErrorObj ("Token exchange failed (" +:+ pretty (status response)
                              +:+ "): " +:+ errorText))
           else
             match json response with
             | inl e => throw e
             | inr data =>
                 match json_user data with
                 | Some u =>
                     if truthy (json_sessionToken data) then
                       ret (mkExchanged (or_else (json_sessionToken data) "") u
                              (expiresIn_or_default (json_expiresIn data)))
                     else
                       throw (ErrorObj
                         "Invalid response from credential proxy: missing sessionToken or user")
                 | None =>
                     throw (ErrorObj
                       "Invalid response from credential proxy: missing sessionToken or user")
                 end
             end
       end)%js
      (fun error =>
         match error with
         | ErrorObj _ => throw error
         | NonError r => throw (ErrorObj ("Failed to exchange OAuth token: " +:+ r))
         end).

End TokenExchange.

(** ** repository.js: reading the configuration; index.js *)

Module Index.
Import Js.

Definition BACKEND_NAME : string := "duckdb".
Definition BACKEND_LABEL : string := "DuckDB Lakehouse".
Definition STORAGE_TYPES : list string := ["iceberg"; "ducklake"; "parquet"].
Definition STORAGE_PROVIDERS : list string := ["s3"; "r2"; "gcs"; "azure"].
Definition ASSET_MODES : list string := ["inline"; "external"].

(** [list.includes(value)] *)
Definition includes (value : string) (l : list string) : bool :=
  existsb (String.eqb value) l.

(** The [storage] and [catalog] objects of the backend configuration;
    every key may be absent. *)
Record StorageConfig : Type := mkStorage {
  cfg_provider : option string;
  cfg_bucket : option string;
  cfg_data_path : option string;
  cfg_path_prefix : option string
}.

Record CatalogConfig : Type := mkCatalogConfig {
  cfg_type : option string;
  cfg_endpoint : option string
}.

Record BackendConfig : Type := mkBackend {
  cfg_name : option string;
  cfg_storage_type : option string;
  cfg_credential_proxy : option string;
  cfg_asset_mode : option string;
  cfg_storage : option StorageConfig;
  cfg_catalog : option CatalogConfig
}.

Record ParsedStorage : Type := mkParsedStorage {
  storageProvider : string;
  bucket : string;
  dataPath : string;
  pathPrefix : string
}.

Record ParsedCatalog : Type := mkParsedCatalog {
  catalogType : string;
  catalogEndpoint : string
}.

(** [const { storage = {} } = backendConfig] *)
Definition parseStorageConfig (backendConfig : BackendConfig) : ParsedStorage :=
  let storage :=
    match cfg_storage backendConfig with
    | Some st => st
    | None => mkStorage None None None None
    end in
  mkParsedStorage (or_else (cfg_provider storage) "s3")
                  (or_else (cfg_bucket storage) "")
                  (or_else (cfg_data_path storage) "cms/data/")
                  (or_else (cfg_path_prefix storage) "").

Definition parseCatalogConfig (backendConfig : BackendConfig) : ParsedCatalog :=
  let catalog :=
    match cfg_catalog backendConfig with
    | Some c => c
    | None => mkCatalogConfig None None
    end in
  mkParsedCatalog (or_else (cfg_type catalog) "duckdb")
                  (or_else (cfg_endpoint catalog) "").

(** A destructuring default: it applies to an absent key only. *)
Definition or_default (v : option string) (d : string) : string :=
  match v with
  | Some x => x
  | None => d
  end.

(** [init]: its result, and the [repository] object it leaves.  [backend]
    is the [backend] key of the CMS configuration, if there is one. *)
Definition init (backend : option BackendConfig) (repository : Repository.RepositoryInfo)
    : option Repository.RepositoryInfo * Repository.RepositoryInfo :=
  match backend with
  | None => (None, repository)
  | Some backend =>
      if negb (bool_decide (cfg_name backend = Some BACKEND_NAME)) then (None, repository)
      else
        let storageType := or_default (cfg_storage_type backend) "parquet" in
        let credentialProxy := or_default (cfg_credential_proxy backend) "" in
        let assetMode := or_default (cfg_asset_mode backend) "inline" in
        if negb (includes storageType STORAGE_TYPES) then (None, repository)
        else
          let parsed := parseStorageConfig backend in
          if negb (includes (storageProvider parsed) STORAGE_PROVIDERS) then (None, repository)
          else if negb (truthy (Some (bucket parsed))) then (None, repository)
          else if negb (truthy (Some credentialProxy)) then (None, repository)
          else if negb (includes assetMode ASSET_MODES) then (None, repository)
          else
            let catalog := parseCatalogConfig backend in
            let databaseName :=
              BACKEND_NAME +:+ ":" +:+ storageProvider parsed +:+ ":" +:+ bucket parsed
              +:+ (if truthy (Some (pathPrefix parsed)) then ":" +:+ pathPrefix parsed
                   else "") in
            let assigned :=
              Repository.mkRepository BACKEND_NAME BACKEND_LABEL storageType
                (storageProvider parsed) (bucket parsed) (dataPath parsed)
                (pathPrefix parsed) credentialProxy (catalogType catalog)
                (catalogEndpoint catalog) assetMode "" "" "" "" "" "" false databaseName in
            (Some assigned, assigned)
  end.

End Index.

(** ** files.js: where the snapshots are read from *)

Module Files.
Import Js.

Definition ends_with_slash (s : string) : bool :=
  Commits.endsWith "/" s.

(** A path component with no separator at either end and none doubled. *)
Definition clean (p : string) : Prop :=
  p <> "" /\ Repository.has_double_slash p = false /\
  Repository.starts_with_slash p = false /\ ends_with_slash p = false.

(** [getDataPaths]: the entries path and the assets path. *)
Definition getDataPaths (r : Repository.RepositoryInfo) : string * string :=
  let dataPath := Repository.dataPath r in
  (dataPath +:+ "entries.parquet", dataPath +:+ "assets.parquet").

(** [s.includes('?')] *)
Fixpoint includes_question (s : string) : bool :=
  match s with
  | EmptyString => false
  | String c rest => Ascii.eqb c "?" || includes_question rest
  end.

(** [getPublicS3Url]; [now] is the reading of [Date.now()]. *)
Definition getPublicS3Url (r : Repository.RepositoryInfo) (now : Z) (path : string)
    (cacheBust : bool) : string :=
  let baseUrl :=
    if String.eqb (Repository.storageProvider r) "r2" then
      "https://" +:+ Repository.bucket r +:+ ".r2.cloudflarestorage.com/" +:+ path
    else
      "https://" +:+ Repository.bucket r +:+ ".s3.amazonaws.com/" +:+ path in
  if cacheBust then
    let separator := if includes_question baseUrl then "&" else "?" in
    baseUrl +:+ separator +:+ "_cb=" +:+ pretty now
  else baseUrl.

End Files.

(** ** The rest of the statements sent through the connection

    The statements of [Duck.Statement], and the data definition and table
    maintenance statements beside them, again as the syntax their text
    spells. *)

Module Sql.
Import Js Duck.

Inductive Command : Type :=
| Plain (s : Statement)
| CreateSchema (schema : string)
| CreateTable (schema table : string) (columns : list (string * string))
              (constraints : list string)
| CreateIndex (index schema table : string) (columns : list string)
| DropSchema (schema : string)
| DeleteFrom (table : string) (where_ : option Cond)
| InsertFromParquet (table url : string).

(** [conn.query(sql, params)] for any of them. *)
Definition Exec (DB : Type) : Type := Command -> list Bytes -> M DB (list Row).

(** The same connection, seen by the functions that send a
    [Duck.Statement]. *)
Definition plain {DB} (exec : Exec DB) : Query DB := fun s => exec (Plain s).

Definition recorder : Exec (list (Command * list Bytes)) :=
  fun sql params log => (inr [], log ++ [(sql, params)]).

(** The columns a [CREATE TABLE] declares. *)
Definition declared (c : Command) : list string :=
  match c with
  | CreateTable _ _ columns _ => map fst columns
  | _ => []
  end.

(** The columns a statement writes or reads by name. *)
Definition named (s : Statement) : list string :=
  match s with
  | Insert _ columns _ => columns
  | Update _ sets _ => map fst sets
  | Select columns _ _ => columns
  end.

End Sql.

(** ** queries/schema.js, the rest *)

Module SchemaOps.
Import Js Duck Sql.

(** [CREATE TABLE IF NOT EXISTS cms.entries (...)] *)
Definition getEntriesTableSQL : Command :=
  CreateTable "cms" "entries"
    [ ("id", "VARCHAR PRIMARY KEY"); ("collection", "VARCHAR NOT NULL");
      ("slug", "VARCHAR NOT NULL"); ("locale", "VARCHAR DEFAULT 'en'");
      ("path", "VARCHAR NOT NULL"); ("data", "JSON NOT NULL");
      ("status", "VARCHAR DEFAULT 'draft'"); ("sha", "VARCHAR");
      ("created_at", "TIMESTAMP DEFAULT current_timestamp");
      ("updated_at", "TIMESTAMP DEFAULT current_timestamp");
      ("created_by", "VARCHAR"); ("updated_by", "VARCHAR") ]
    [ "UNIQUE (collection, slug, locale)" ].

(** [CREATE TABLE IF NOT EXISTS cms.assets (...)] *)
Definition getAssetsTableSQL : Command :=
  CreateTable "cms" "assets"
    [ ("id", "VARCHAR PRIMARY KEY"); ("path", "VARCHAR NOT NULL UNIQUE");
      ("filename", "VARCHAR NOT NULL"); ("folder", "VARCHAR");
      ("mime_type", "VARCHAR"); ("size", "BIGINT"); ("width", "INTEGER");
      ("height", "INTEGER"); ("content", "BLOB"); ("storage_url", "VARCHAR");
      ("metadata", "JSON"); ("sha", "VARCHAR");
      ("created_at", "TIMESTAMP DEFAULT current_timestamp");
      ("updated_at", "TIMESTAMP DEFAULT current_timestamp") ]
    [].

Definition getIndicesSQL : list Command :=
  [ CreateIndex "idx_entries_collection" "cms" "entries" ["collection"];
    CreateIndex "idx_entries_status" "cms" "entries" ["status"];
    CreateIndex "idx_entries_collection_locale" "cms" "entries" ["collection"; "locale"];
    CreateIndex "idx_assets_folder" "cms" "assets" ["folder"];
    CreateIndex "idx_assets_mime_type" "cms" "assets" ["mime_type"];
    CreateIndex "idx_entries_updated_at" "cms" "entries" ["updated_at DESC"];
    CreateIndex "idx_assets_updated_at" "cms" "assets" ["updated_at DESC"] ].

Section WithConnection.

Context {DB : Type}.
Variable conn_query : Exec DB.

Definition run (sql : Command) : M DB unit :=
  (_ <- conn_query sql [] ;; ret tt)%js.

Definition initializeSchema : M DB unit :=
  try_catch
    (run (CreateSchema "cms") ;;;
     run getEntriesTableSQL ;;;
     run getAssetsTableSQL)%js
    (fun error =>
       throw (ErrorObj ("Failed to initialize database schema: " +:+ message_of error))).

(** [for (const indexSQL of indices) { await conn.query(indexSQL); }] *)
Fixpoint run_each (indices : list Command) : M DB unit :=
  match indices with
  | [] => ret tt
  | indexSQL :: rest => (run indexSQL ;;; run_each rest)%js
  end.

Definition createIndices : M DB unit :=
  let indices := getIndicesSQL in
  try_catch (run_each indices)
    (fun error => throw (ErrorObj ("Failed to create indices: " +:+ message_of error))).

Definition dropSchema : M DB unit :=
  try_catch (run (DropSchema "cms"))
    (fun error => throw (ErrorObj ("Failed to drop schema: " +:+ message_of error))).

End WithConnection.

End SchemaOps.

(** ** queries/assets.js, the rest *)

Module AssetOps.
Import Js Duck Sql.

(** The table as [initializeAssetsTable] declares it. *)
Definition assetsTableSQL : Command :=
  CreateTable "cms" "assets"
    [ ("id", "VARCHAR PRIMARY KEY"); ("path", "VARCHAR NOT NULL");
      ("filename", "VARCHAR NOT NULL"); ("mime_type", "VARCHAR");
      ("size", "BIGINT NOT NULL"); ("kind", "VARCHAR NOT NULL");
      ("content", "BLOB"); ("sha", "VARCHAR NOT NULL");
      ("storage_mode", "VARCHAR NOT NULL DEFAULT 'external'");
      ("storage_url", "VARCHAR"); ("folder_collection", "VARCHAR");
      ("folder_file", "VARCHAR"); ("folder_internal_path", "VARCHAR");
      ("folder_public_path", "VARCHAR");
      ("created_at", "TIMESTAMP DEFAULT CURRENT_TIMESTAMP");
      ("updated_at", "TIMESTAMP DEFAULT CURRENT_TIMESTAMP") ]
    [ "CONSTRAINT chk_storage_mode CHECK (storage_mode IN ('inline', 'external'))";
      "CONSTRAINT chk_storage CHECK ((storage_mode = 'inline' AND content IS NOT NULL AND storage_url IS NULL) OR (storage_mode = 'external' AND content IS NULL AND storage_url IS NOT NULL))" ].

(** What [fetchAssetContent] returns. *)
Record AssetContent : Type := mkAssetContent {
  content : option Bytes;
  storageUrl : option string;
  storageMode : string
}.

(** [value || null] on a text cell. *)
Definition or_null (v : option string) : option string :=
  if truthy v then v else None.

Definition bytes_of_string (s : string) : Bytes := list_byte_of_string s.

Section WithConnection.

Context {DB : Type}.
Variable conn_query : Exec DB.

Definition deleteAsset (id : string) : M DB unit :=
  try_catch
    (_ <- conn_query (DeleteFrom "cms.assets" (Some (WhereEq "id" id))) [] ;; ret tt)%js
    (fun error => throw (ErrorObj ("Failed to delete asset: " +:+ message_of error))).

(** A BLOB cell of a result row holds the bytes as they are; a NULL cell
    is a column without a value in the row. *)
Definition fetchAssetContent (id : string) : M DB AssetContent :=
  try_catch
    (rows <- conn_query
               (Plain (Select ["content"; "storage_url"; "storage_mode"] "cms.assets"
                         (WhereEq "id" id))) [] ;;
     match rows with
     | [] => throw (ErrorObj ("Asset not found: " +:+ id))
     | row :: _ =>
         ret (mkAssetContent
                (match Catalog.field "content" row with
                 | Some blob => Some (bytes_of_string blob)
                 | None => None
                 end)
                (or_null (Catalog.field "storage_url" row))
                (or_else (Catalog.field "storage_mode" row) "external"))
     end)%js
    (fun error => throw (ErrorObj ("Failed to fetch asset content: " +:+ message_of error))).

Definition initializeAssetsTable : M DB unit :=
  try_catch
    (_ <- conn_query (CreateSchema "cms") [] ;;
     _ <- conn_query assetsTableSQL [] ;;
     _ <- conn_query (CreateIndex "idx_assets_path" "cms" "assets" ["path"]) [] ;;
     _ <- conn_query (CreateIndex "idx_assets_kind" "cms" "assets" ["kind"]) [] ;;
     _ <- conn_query (CreateIndex "idx_assets_folder" "cms" "assets"
                        ["folder_collection"; "folder_file"]) [] ;;
     ret tt)%js
    (fun error => throw (ErrorObj ("Failed to initialize assets table: " +:+ message_of error))).

Definition loadAssetsFromParquet (parquetUrl : string) : M DB unit :=
  try_catch
    (_ <- conn_query (DeleteFrom "cms.assets" None) [] ;;
     _ <- conn_query (InsertFromParquet "cms.assets" parquetUrl) [] ;;
     ret tt)%js
    (fun error => throw (ErrorObj ("Failed to load assets from Parquet: " +:+ message_of error))).

End WithConnection.

End AssetOps.

(** The reference catalog of [Catalog], with the data definition
    statements: creating a namespace or a table adds it if it is not
    there, a table needs its namespace, and dropping a namespace takes its
    tables along.  Rows are not part of a catalog, so statements on rows
    other than the two probes are turned down. *)

Module CatalogDDL.
Import Js Duck Sql.

Definition add_schema (n : string) (cat : Catalog.Catalog) : Catalog.Catalog :=
  Catalog.mkCatalog ({[ n ]} ∪ Catalog.schemata cat) (Catalog.tables cat).

Definition add_table (n t : string) (cat : Catalog.Catalog) : Catalog.Catalog :=
  Catalog.mkCatalog (Catalog.schemata cat) ({[ (n, t) ]} ∪ Catalog.tables cat).

Definition drop_schema (n : string) (cat : Catalog.Catalog) : Catalog.Catalog :=
  Catalog.mkCatalog (Catalog.schemata cat ∖ {[ n ]})
                    (filter (fun t => t.1 <> n) (Catalog.tables cat)).

Definition no_faults : Command -> option thrown := fun _ => None.

Definition exec (faults : Command -> option thrown) : Exec Catalog.Catalog :=
  fun sql params cat =>
    match faults sql with
    | Some e => (inl e, cat)
    | None =>
        match sql with
        | Plain s => Catalog.query (fun _ => None) s params cat
        | CreateSchema n => (inr [], add_schema n cat)
        | CreateTable n t _ _ =>
            if bool_decide (n ∈ Catalog.schemata cat) then (inr [], add_table n t cat)
            else (inl (ErrorObj ("Catalog Error: Schema with name " +:+ n
                                 +:+ " does not exist!")), cat)
        | CreateIndex _ n t _ =>
            if bool_decide ((n, t) ∈ Catalog.tables cat) then (inr [], cat)
            else (inl (ErrorObj ("Catalog Error: Table with name " +:+ t
                                 +:+ " does not exist!")), cat)
        | DropSchema n => (inr [], drop_schema n cat)
        | DeleteFrom _ _ | InsertFromParquet _ _ =>
            (inl (ErrorObj "Not implemented Error: rows are outside the catalog"), cat)
        end
    end.

End CatalogDDL.

(** ** commits.js, the steps of a commit *)

Module CommitSteps.
Import Js Duck Sql.

(** [s.replace(/\.[^.]+$/, '')]: the match is sought from the left, and a
    position matches when a dot stands there and one or more characters
    other than a dot run from it to the end. *)
Definition is_dot (c : ascii) : bool := Ascii.eqb c ".".
Definition is_slash (c : ascii) : bool := Ascii.eqb c "/".

Fixpoint contains (p : ascii -> bool) (s : string) : bool :=
  match s with
  | EmptyString => false
  | String c rest => p c || contains p rest
  end.

Definition is_empty (s : string) : bool :=
  match s with EmptyString => true | _ => false end.

Fixpoint strip_extension (s : string) : string :=
  match s with
  | EmptyString => EmptyString
  | String c rest =>
      if is_dot c && negb (is_empty rest) && negb (contains is_dot rest) then EmptyString
      else String c (strip_extension rest)
  end.

(** [s.split(sep)] for a separator of one character. *)
Fixpoint split (sep : ascii -> bool) (s : string) : list string :=
  match s with
  | EmptyString => [EmptyString]
  | String c rest =>
      if sep c then EmptyString :: split sep rest
      else match split sep rest with
           | [] => [String c EmptyString]
           | segment :: segments => String c segment :: segments
           end
  end.

(** [array.pop()], on the array a [split] has returned. *)
Definition pop (segments : list string) : string := List.last segments EmptyString.

(** [path.replace(/\.[^.]+$/, '').split('/').pop() || '']: the name an
    entry goes by when a change carries no slug ([fileChangeToEntry]), and
    the entry a move deletes ([processEntryChanges]). *)
Definition slugOfPath (path : string) : string :=
  or_else (Some (pop (split is_slash (strip_extension path)))) "".

(** [change.data]: text, or bytes in a [Uint8Array]. *)
Inductive Data : Type :=
| Text (s : string)
| Binary (bytes : Bytes).

(** The fields of a [FileChange] that [processAssetChanges] reads. *)
Record FileChange : Type := mkFileChange {
  action : string;
  path : string;
  data : option Data;
  asset : option Assets.Asset
}.

(** [if (change.data)]: the empty text is falsy, an array never is. *)
Definition has_data (d : option Data) : bool :=
  match d with
  | Some (Text s) => truthy (Some s)
  | Some (Binary _) => true
  | None => false
  end.

(** [data instanceof Uint8Array ? data : new Uint8Array(await new
    Blob([data]).arrayBuffer())]; text is held as the bytes of its
    encoding. *)
Definition content_of (d : Data) : Bytes :=
  match d with
  | Text s => list_byte_of_string s
  | Binary bytes => bytes
  end.

Definition set_blobURL (url : string) (a : Assets.Asset) : Assets.Asset :=
  Assets.mkAsset (Assets.sha a) (Assets.path a) (Assets.name a) (Assets.size a)
                 (Assets.kind a) (Some url).

(** [asset.kind === 'image' ? `image/${asset.path.split('.').pop()}` :
    'application/octet-stream'] *)
Definition upload_mimeType (a : Assets.Asset) : string :=
  if String.eqb (Assets.kind a) "image"
  then "image/" +:+ pop (split is_dot (Assets.path a))
  else "application/octet-stream".

Section WithWorld.

(** The engine behind the connection and the object store behind the
    credential proxy. *)
Context {W : Type}.

Variable conn_query : Exec W.
Variable getPresignedUrl : string -> Credentials.Operation -> string -> M W string.

(** [fetch(url, { method: 'PUT', body, headers: { 'Content-Type': ... } })] *)
Variable fetch_PUT : string -> Bytes -> string -> M W Credentials.Response.

(** [getPathInfo(path).extension], from [@sveltia/utils/file]. *)
Variable extension : string -> option string.

Definition uploadExternalAsset (path : string) (content : Bytes) (mimeType : string)
    : M W unit :=
  try_catch
    (presignedUrl <- getPresignedUrl path Credentials.PUT mimeType ;;
     response <- fetch_PUT presignedUrl content mimeType ;;
     if negb (Credentials.ok response) then
       throw (ErrorObj ("Upload failed (" +:+ pretty (Credentials.status response)
                        +:+ "): " +:+ Credentials.errorText_of response))
     else ret tt)%js
    (fun error =>
       throw (ErrorObj ("Failed to upload external asset " +:+ path +:+ ": "
                        +:+ describe error))).

(** The asset and the path that the message of a failure names:
    [change.asset?.path || change.path]. *)
Definition named_path (change : FileChange) : string :=
  or_else (match asset change with Some a => Some (Assets.path a) | None => None end)
          (path change).

(** The body of the loop of [processAssetChanges], for one change.  The
    asset is the object the change holds: its [blobURL] is overwritten
    before it is passed on to [insertAsset]. *)
Definition processAssetChange (repository : Repository.RepositoryInfo)
    (change : FileChange) : M W unit :=
  let assetMode := Repository.assetMode repository in
  try_catch
    (if String.eqb (action change) "delete" then
       match asset change with
       | Some a =>
           if truthy (Some (Assets.sha a)) then AssetOps.deleteAsset conn_query (Assets.sha a)
           else ret tt
       | None => ret tt
       end
     else if String.eqb (action change) "create" || String.eqb (action change) "update" then
       match asset change, has_data (data change), data change with
       | Some a, true, Some d =>
           let content := content_of d in
           (a <- (if String.eqb assetMode "external"
                     && (5 * 1024 * 1024 <? Z.of_nat (length content))
                  then
                    let storagePath :=
                      Repository.getFullStoragePath repository ("assets/" +:+ Assets.path a) in
                    let mimeType := upload_mimeType a in
                    (uploadExternalAsset storagePath content mimeType ;;;
                     ret (set_blobURL storagePath a))
                  else ret a) ;;
            Assets.insertAsset (plain conn_query) extension repository a (Some content)
              Assets.DEFAULT_INLINE_THRESHOLD)%js
       | _, _, _ => ret tt
       end
     else ret tt)
    (fun error =>
       throw (ErrorObj ("Failed to process asset change (" +:+ action change +:+ " "
                        +:+ named_path change +:+ "): " +:+ describe error))).

Fixpoint for_each (repository : Repository.RepositoryInfo) (changes : list FileChange)
    : M W unit :=
  match changes with
  | [] => ret tt
  | change :: rest =>
      (processAssetChange repository change ;;; for_each repository rest)%js
  end.

Definition processAssetChanges (repository : Repository.RepositoryInfo)
    (changes : list FileChange) : M W unit :=
  if (length changes =? 0)%nat then ret tt
  else for_each repository changes.

End WithWorld.

End CommitSteps.

(** A world that takes everything and keeps a record of it: the
    statements sent through the connection, and the objects put into the
    store, each with the path it was signed for and its content type. *)

Module Ledger.
Import Js Duck Sql.

Record Ledger : Type := mkLedger {
  statements : list (Command * list Bytes);
  uploads : list (string * Bytes * string)
}.

Definition empty : Ledger := mkLedger [] [].

Definition conn_query : Exec Ledger :=
  fun sql params w => (inr [], mkLedger (statements w ++ [(sql, params)]) (uploads w)).

(** The URL signed for a path is taken to be the path. *)
Definition getPresignedUrl (path : string) (_ : Credentials.Operation) (_ : string)
    : M Ledger string :=
  ret path.

Definition fetch_PUT (url : string) (body : Bytes) (contentType : string)
    : M Ledger Credentials.Response :=
  fun w =>
    (inr (Credentials.mkResponse 200 (inr "") (inr (Credentials.mkJson "" ∅ 0))),
     mkLedger (statements w) (uploads w ++ [(url, body, contentType)])).

End Ledger.

(** A reference engine for the rows of [cms.assets], as
    [initializeAssetsTable] declares the table (the table of
    [initializeSchema] has other columns): a row is the list of its
    columns that are not NULL, each with its value as text; [id] is the
    primary key; the columns declared NOT NULL and the two CHECK
    constraints are enforced.  Other tables are unknown to it.

    [AsyncDuckDBConnection.query] takes the text of the statement and
    nothing else: what a caller passes as a second argument does not reach
    the engine, so that a statement with a [?] placeholder is a statement
    with a parameter that has no value, and is turned down.

    What the engine says when it turns a statement down is its own
    business: the messages are a parameter, [complaint]. *)

Module AssetsTable.
Import Js Duck Sql.

Record Table : Type := mkTable {
  rows : list Row;
  clock : Z
}.

(** The reasons to turn a statement down. *)
Inductive Fault : Type :=
| NoSuchTable (table : string)
| ColumnCount
| UnboundParameter
| NotNull
| CheckFailed (name : string)
| DuplicateKey
| Unsupported.

(** The value of an expression, [Some None] for NULL; a placeholder has
    none. *)
Definition eval (clock : Z) (e : Expr) : option (option string) :=
  match e with
  | Lit s => Some (Some s)
  | Num n => Some (Some (pretty n))
  | Null => Some None
  | BlobParam => None
  | CurrentTimestamp => Some (Some (pretty clock))
  end.

(** The bindings of a list of columns, in order; [None] when one of the
    expressions is a placeholder. *)
Fixpoint bindings (clock : Z) (sets : list (string * Expr))
    : option (list (string * option string)) :=
  match sets with
  | [] => Some []
  | (c, e) :: rest =>
      match eval clock e with
      | Some v =>
          match bindings clock rest with
          | Some bs => Some ((c, v) :: bs)
          | None => None
          end
      | None => None
      end
  end.

Definition remove_column (c : string) (row : Row) : Row :=
  List.filter (fun cv => negb (String.eqb cv.1 c)) row.

(** A row with a column set, or cleared by NULL. *)
Definition set_column (row : Row) (b : string * option string) : Row :=
  match b.2 with
  | Some v => remove_column b.1 row ++ [(b.1, v)]
  | None => remove_column b.1 row
  end.

Definition apply_bindings (bs : list (string * option string)) (row : Row) : Row :=
  fold_left set_column bs row.

Definition not_null_columns : list string :=
  ["id"; "path"; "filename"; "size"; "kind"; "sha"; "storage_mode"].

Definition is_set (c : string) (row : Row) : bool :=
  match Catalog.field c row with Some _ => true | None => false end.

Definition has_value (c v : string) (row : Row) : bool :=
  match Catalog.field c row with Some x => String.eqb x v | None => false end.

(** [chk_storage_mode] and [chk_storage]. *)
Definition chk_storage_mode (row : Row) : bool :=
  has_value "storage_mode" "inline" row || has_value "storage_mode" "external" row.

Definition chk_storage (row : Row) : bool :=
  (has_value "storage_mode" "inline" row && is_set "content" row
   && negb (is_set "storage_url" row))
  || (has_value "storage_mode" "external" row && negb (is_set "content" row)
      && is_set "storage_url" row).

Definition violation (row : Row) : option Fault :=
  if negb (forallb (fun c => is_set c row) not_null_columns)
  then Some NotNull
  else if negb (chk_storage_mode row)
  then Some (CheckFailed "chk_storage_mode")
  else if negb (chk_storage row)
  then Some (CheckFailed "chk_storage")
  else None.

Definition has_id (id : string) (row : Row) : bool := has_value "id" id row.

Definition ids (t : Table) : list string :=
  omap (Catalog.field "id") (rows t).

Definition where_holds (w : option Cond) (row : Row) : bool :=
  match w with
  | Some c => Catalog.holds c row
  | None => true
  end.

Section WithComplaints.

Variable complaint : Fault -> string.

Definition fails {A} (fault : Fault) (t : Table) : (thrown + A) * Table :=
  (inl (ErrorObj (complaint fault)), t).

Definition exec : Exec Table :=
  fun sql _ t =>
    match sql with
    | Plain (Insert table columns values) =>
        if negb (String.eqb table "cms.assets") then fails (NoSuchTable table) t
        else if negb (length columns =? length values)%nat then fails ColumnCount t
        else
          match bindings (clock t) (combine columns values) with
          | None => fails UnboundParameter t
          | Some bs =>
              let row := apply_bindings bs [] in
              match violation row with
              | Some fault => fails fault t
              | None =>
                  if existsb (fun id => has_id id row) (ids t) then fails DuplicateKey t
                  else (inr [], mkTable (rows t ++ [row]) (clock t))
              end
          end
    | Plain (Update table sets w) =>
        if negb (String.eqb table "cms.assets") then fails (NoSuchTable table) t
        else
          match bindings (clock t) sets with
          | None => fails UnboundParameter t
          | Some bs =>
              let rows' :=
                map (fun row => if Catalog.holds w row then apply_bindings bs row else row)
                    (rows t) in
              let changed := map (apply_bindings bs) (List.filter (Catalog.holds w) (rows t)) in
              match omap violation changed with
              | fault :: _ => fails fault t
              | [] =>
                  if existsb (fun b => String.eqb b.1 "id") bs
                     && negb (bool_decide (NoDup (omap (Catalog.field "id") rows'))) then
                    fails DuplicateKey t
                  else (inr [], mkTable rows' (clock t))
              end
          end
    | Plain (Select columns from w) =>
        if negb (String.eqb from "cms.assets") then fails (NoSuchTable from) t
        else
          (inr (map (Catalog.project columns) (List.filter (Catalog.holds w) (rows t))), t)
    | DeleteFrom table w =>
        if negb (String.eqb table "cms.assets") then fails (NoSuchTable table) t
        else
          (inr [], mkTable (List.filter (fun row => negb (where_holds w row)) (rows t))
                           (clock t))
    | _ => fails Unsupported t
    end.

End WithComplaints.

(** No row of the table has this key. *)
Definition fresh (id : string) (t : Table) : Prop :=
  forall row, row ∈ rows t -> has_id id row = false.

(** Text that ['...'] spells as it is: printable characters of ASCII,
    the apostrophe apart. *)
Definition plain_char (c : ascii) : bool :=
  let n := N_of_ascii c in
  ((32 <=? n) && (n <=? 126) && negb (n =? 39))%N.

Fixpoint is_plain (s : string) : bool :=
  match s with
  | EmptyString => true
  | String c rest => plain_char c && is_plain rest
  end.

Definition plain_or_absent (v : option string) : bool :=
  match v with
  | Some s => is_plain s
  | None => true
  end.

(** An asset whose fields the INSERT of [insertAsset] spells as they are:
    plain text between the quotes, and a size that a number prints in
    full and a BIGINT holds. *)
Definition storable (a : Assets.Asset) : Prop :=
  is_plain (Assets.sha a) = true /\ is_plain (Assets.path a) = true /\
  is_plain (Assets.name a) = true /\ is_plain (Assets.kind a) = true /\
  plain_or_absent (Assets.blobURL a) = true /\ safe (Assets.size a).

(** The same for the fields [updateAsset] looks at. *)
Definition spellable (u : Assets.AssetUpdates) : Prop :=
  plain_or_absent (Assets.upd_name u) = true /\
  plain_or_absent (Assets.upd_path u) = true /\
  plain_or_absent (Assets.upd_blobURL u) = true /\
  match Assets.upd_size u with
  | Some n => safe n
  | None => True
  end.

(** The row of an asset that is stored by reference. *)
Definition external_row (mime_type : string) (a : Assets.Asset) (clock : Z) : Row :=
  [ ("id", Assets.sha a); ("path", Assets.path a); ("filename", Assets.name a);
    ("mime_type", mime_type); ("size", pretty (Assets.size a));
    ("kind", Assets.kind a); ("sha", Assets.sha a); ("storage_mode", "external");
    ("storage_url", or_else (Assets.blobURL a) (Assets.path a));
    ("created_at", pretty clock); ("updated_at", pretty clock) ].

End AssetsTable.

(** ** init.js, bringing the engine up

    One call runs at a time: the module-level variables change only
    through the function that runs, except while [initDuckDB] sleeps in
    its waiting loop, when [others] stands for what the calls in flight do
    to them. *)

Module Lifecycle.
Import Js.

Definition REQUIRED_EXTENSIONS : list string := ["httpfs"; "parquet"; "iceberg"; "spatial"].

(** The calls into the platform and the library, in the order of the
    source; a handle is named by a number. *)
Inductive Call : Type :=
| Import
| SelectBundle
| FetchWorker (url : string)
| ReadText
| NewWorker
| NewDatabase (worker : nat)
| Instantiate (db : nat)
| TerminateWorker (worker : nat)
| Connect (db : nat)
| Query (conn : nat) (sql : string).

(** The fields of the bundle [selectBundle] picks that are read. *)
Record Bundle : Type := mkBundle {
  mainModule : string;
  mainWorker : string
}.

(** The response to the request for the worker script. *)
Record WorkerResponse : Type := mkWorkerResponse {
  ok : bool;
  status : Z;
  statusText : string;
  text : thrown + string
}.

(** What each call does, given the calls made before it. *)
Record Platform : Type := mkPlatform {
  import_ : list Call -> option thrown;
  selectBundle : list Call -> thrown + Bundle;
  fetch : list Call -> string -> thrown + WorkerResponse;
  newWorker : list Call -> thrown + nat;
  newDatabase : list Call -> nat -> thrown + nat;
  instantiate : list Call -> nat -> option thrown;
  terminate : list Call -> nat -> option thrown;
  connect : list Call -> nat -> thrown + nat;
  query : list Call -> nat -> string -> option thrown
}.

(** The module-level variables of [Init], and the calls made so far. *)
Record World : Type := mkWorld {
  vars : Init.State;
  calls : list Call
}.

Definition set_vars (f : Init.State -> Init.State) (w : World) : World :=
  mkWorld (f (vars w)) (calls w).

Definition set_isInitializing (v : bool) (s : Init.State) : Init.State :=
  Init.mkState (Init.db s) (Init.conn s) (Init.worker s) v (Init.extensionsLoaded s)
               (Init.performed s).

Definition unit_of (r : option thrown) : thrown + unit :=
  match r with
  | Some e => inl e
  | None => inr tt
  end.

(** A call: it is recorded, and answers as the platform says. *)
Definition call {A} (c : Call) (answer : list Call -> thrown + A) : M World A :=
  fun w => (answer (calls w), mkWorld (vars w) (calls w ++ [c])).

Section WithPlatform.

Variable platform : Platform.

Definition createWorkerFromUrl (workerUrl : string) : M World nat :=
  try_catch
    (response <- call (FetchWorker workerUrl) (fun h => fetch platform h workerUrl) ;;
     if negb (ok response) then
       throw (ErrorObj ("Failed to fetch worker: " +:+ pretty (status response) +:+ " "
                        +:+ statusText response))
     else
       _ <- call ReadText (fun _ => text response) ;;
       call NewWorker (newWorker platform))%js
    (fun error =>
       throw (ErrorObj ("Failed to create worker from URL: " +:+ describe error))).

(** [try { ... } finally { isInitializing = false; }] *)
Definition finally_ {A} (body : M World A) (cleanup : World -> World) : M World A :=
  fun w => let '(r, w') := body w in (r, cleanup w').

(** [initDuckDB] from the point where it has set out to initialize. *)
Definition initialize : M World nat :=
  (modify (set_vars (set_isInitializing true)) ;;;
   finally_
     (try_catch
        (_ <- call Import (fun h => unit_of (import_ platform h)) ;;
         bundle <- call SelectBundle (selectBundle platform) ;;
         k <- createWorkerFromUrl (mainWorker bundle) ;;
         modify (set_vars (Init.set_worker (Some k))) ;;;
         d <- call (NewDatabase k) (fun h => newDatabase platform h k) ;;
         modify (set_vars (Init.set_db (Some d))) ;;;
         _ <- call (Instantiate d) (fun h => unit_of (instantiate platform h d)) ;;
         ret d)
        (fun error =>
           k <- gets (fun w => Init.worker (vars w)) ;;
           match k with
           | Some h =>
               _ <- call (TerminateWorker h) (fun c => unit_of (terminate platform c h)) ;;
               modify (set_vars (Init.set_worker None))
           | None => ret tt
           end ;;;
           modify (set_vars (Init.set_db None)) ;;;
           throw (ErrorObj ("Failed to initialize DuckDB WASM: " +:+ describe error))))
     (set_vars (set_isInitializing false)))%js.

(** [while (isInitializing) { await new Promise((resolve) =>
    setTimeout(resolve, 50)); }]: [None] when the flag is still set after
    [fuel] sleeps. *)
Fixpoint wait (others : World -> World) (fuel : nat) (w : World) : option World :=
  if Init.isInitializing (vars w) then
    match fuel with
    | O => None
    | S fuel' => wait others fuel' (others w)
    end
  else Some w.

Definition initDuckDB (others : World -> World) (fuel : nat) (w : World)
    : option ((thrown + nat) * World) :=
  match Init.db (vars w) with
  | Some d => Some (inr d, w)
  | None =>
      if Init.isInitializing (vars w) then
        match wait others fuel w with
        | Some w' =>
            match Init.db (vars w') with
            | Some d => Some (inr d, w')
            | None => Some (inl (ErrorObj "DuckDB initialization failed while waiting"), w')
            end
        | None => None
        end
      else Some (initialize w)
  end.

Definition query_ (connection : nat) (sql : string) : M World unit :=
  call (Query connection sql) (fun h => unit_of (query platform h connection sql)).

Fixpoint load_each (connection : nat) (extensions : list string) : M World unit :=
  match extensions with
  | [] => ret tt
  | extension :: rest =>
      (try_catch
         (query_ connection ("INSTALL " +:+ extension) ;;;
          query_ connection ("LOAD " +:+ extension))
         (fun error =>
            throw (ErrorObj ("Failed to load DuckDB extension '" +:+ extension +:+ "': "
                             +:+ describe error))) ;;;
       load_each connection rest)%js
  end.

Definition loadExtensions (connection : nat) : M World unit :=
  (loaded <- gets (fun w => Init.extensionsLoaded (vars w)) ;;
   if loaded then ret tt
   else
     load_each connection REQUIRED_EXTENSIONS ;;;
     modify (set_vars (Init.set_extensionsLoaded true)))%js.

Definition configureForPresignedURLs (connection : nat) : M World unit :=
  query_ connection "SET reliable_head_requests = false".

(** [getConnection] once the engine has been seen to: from [if (conn !==
    null)] on. *)
Definition connection_of : M World nat :=
  (c <- gets (fun w => Init.conn (vars w)) ;;
   match c with
   | Some h => ret h
   | None =>
       d <- gets (fun w => Init.db (vars w)) ;;
       match d with
       | None => throw (ErrorObj "DuckDB is not initialized")
       | Some d =>
           try_catch
             (h <- call (Connect d) (fun c => connect platform c d) ;;
              modify (set_vars (Init.set_conn (Some h))) ;;;
              loadExtensions h ;;;
              configureForPresignedURLs h ;;;
              ret h)
             (fun error =>
                modify (set_vars (Init.set_conn None)) ;;;
                throw (ErrorObj ("Failed to create DuckDB connection: " +:+ describe error)))
       end
   end)%js.

Definition getConnection (others : World -> World) (fuel : nat) (w : World)
    : option ((thrown + nat) * World) :=
  match Init.db (vars w) with
  | None =>
      match initDuckDB others fuel w with
      | Some (inr _, w') => Some (connection_of w')
      | Some (inl e, w') => Some (inl e, w')
      | None => None
      end
  | Some _ => Some (connection_of w)
  end.

(** [closeDuckDB], on the variables of the world. *)
Definition closeDuckDB (closing : Init.Platform) (w : World) : (thrown + unit) * World :=
  let '(r, s) := Init.closeDuckDB closing (vars w) in (r, mkWorld s (calls w)).

End WithPlatform.

(** The calls of a first [getConnection] on which nothing fails, for a
    bundle, a worker [k], an engine [d] and a connection [c]. *)
Definition bring_up (bundle : Bundle) (k d c : nat) : list Call :=
  [Import; SelectBundle; FetchWorker (mainWorker bundle); ReadText; NewWorker;
   NewDatabase k; Instantiate d; Connect d]
  ++ flat_map (fun extension => [Query c ("INSTALL " +:+ extension);
                                 Query c ("LOAD " +:+ extension)]) REQUIRED_EXTENSIONS
  ++ [Query c "SET reliable_head_requests = false"].

(** A platform on which every call succeeds. *)
Definition sound (bundle : Bundle) (k d c : nat) : Platform :=
  mkPlatform (fun _ => None) (fun _ => inr bundle)
             (fun _ _ => inr (mkWorkerResponse true 200 "OK" (inr "")))
             (fun _ => inr k) (fun _ _ => inr d) (fun _ _ => None) (fun _ _ => None)
             (fun _ _ => inr c) (fun _ _ _ => None).

(** Nothing is set and no call is in flight. *)
Definition idle (w : World) : Prop :=
  Init.db (vars w) = None /\ Init.conn (vars w) = None /\ Init.worker (vars w) = None /\
  Init.isInitializing (vars w) = false /\ Init.extensionsLoaded (vars w) = false.

End Lifecycle.

(** ** auth.js, signing in and out

    The module-level state of the modules that signing in and out touch:
    the engine, the credentials, the repository, and the requests made to
    exchange a token. *)

Module Session.
Import Js.

Record App : Type := mkApp {
  engine : Lifecycle.World;
  credentials : Credentials.State;
  repository : Repository.RepositoryInfo;
  exchanges : list TokenExchange.Request
}.

Definition in_engine {A} (m : M Lifecycle.World A) : M App A :=
  fun a =>
    let '(r, w) := m (engine a) in
    (r, mkApp w (credentials a) (repository a) (exchanges a)).

Definition in_credentials {A} (m : M Credentials.State A) : M App A :=
  fun a =>
    let '(r, c) := m (credentials a) in
    (r, mkApp (engine a) c (repository a) (exchanges a)).

Definition in_exchanges {A} (m : M (list TokenExchange.Request) A) : M App A :=
  fun a =>
    let '(r, x) := m (exchanges a) in
    (r, mkApp (engine a) (credentials a) (repository a) x).

Definition clearCredentials : M App unit :=
  in_credentials (modify Credentials.clearCredentials).

Definition resetRepository : M App unit :=
  modify (fun a => mkApp (engine a) (credentials a)
                         (Repository.resetRepository (repository a)) (exchanges a)).

(** [backend?.oauth_provider || 'github'], and [github] again for
    anything that is neither [github] nor [gitlab]. *)
Definition getOAuthProvider (oauth_provider : option string) : string :=
  let provider := or_else oauth_provider "github" in
  if negb (String.eqb provider "github") && negb (String.eqb provider "gitlab")
  then "github" else provider.

(** What [signIn] returns: the user of the token exchange, if there was
    one, with [backendName] and [token] set. *)
Record SignedIn : Type := mkSignedIn {
  profile : TokenExchange.User;
  backendName : string;
  token : string
}.

Section WithPlatform.

Variable platform : Lifecycle.Platform.
Variable closing : Init.Platform.
Variable others : Lifecycle.World -> Lifecycle.World.
Variable net : TokenExchange.Network.

(** [backend.oauth_provider] of the configuration. *)
Variable oauth_provider : option string.

(** [performOAuth(credentialProxy, oauthProvider)], down to
    [result?.token]: the popup of [authorize], which is outside these
    modules. *)
Variable performOAuth : string -> string -> thrown + option string.

Definition signOut : M App unit :=
  try_catch
    (in_engine (Lifecycle.closeDuckDB closing) ;;;
     clearCredentials ;;;
     resetRepository)%js
    (fun error =>
       (try_catch (clearCredentials ;;; resetRepository) (fun _ => ret tt) ;;;
        throw (ErrorObj ("Error during sign-out: " +:+ describe error)))%js).

(** [configureProxy({ proxyUrl: credentialProxy, provider: storageProvider
    || 's3' })] *)
Definition configure (credentialProxy : string) : M App unit :=
  (r <- gets repository ;;
   in_credentials
     (Credentials.configureProxy
        (Credentials.mkConfig
           (Some credentialProxy)
           (Some (or_else (Some (Repository.storageProvider r)) "s3")))))%js.

(** [signIn] up to the point where it brings the engine up: [None] when
    it returns nothing because the authorization was given up. *)
Definition authenticate (options_token : option string) : M App (option SignedIn) :=
  (r <- gets repository ;;
   let credentialProxy := Repository.credentialProxy r in
   if negb (truthy (Some credentialProxy)) then
     throw (ErrorObj "Credential proxy URL not configured")
   else
     let oauthProvider := getOAuthProvider oauth_provider in
     if truthy options_token then
       in_credentials (Credentials.setSessionToken options_token) ;;;
       configure credentialProxy ;;;
       ret (Some (mkSignedIn [] Index.BACKEND_NAME (or_else options_token "")))
     else
       match performOAuth credentialProxy oauthProvider with
       | inl e => throw e
       | inr result =>
           if negb (truthy result) then ret None
           else
             x <- in_exchanges
                    (TokenExchange.exchangeToken net
                       (TokenExchange.mkArgs result (Some oauthProvider)
                                             (Some credentialProxy))) ;;
             in_credentials
               (Credentials.setSessionToken (Some (TokenExchange.sessionToken x))) ;;;
             configure credentialProxy ;;;
             ret (Some (mkSignedIn (TokenExchange.user x) Index.BACKEND_NAME
                                   (TokenExchange.sessionToken x)))
       end)%js.

(** The [catch] of [signIn]. *)
Definition sign_in_failed {A} (error : thrown) : M App A :=
  (clearCredentials ;;;
   throw (ErrorObj ("Failed to sign in: " +:+ describe error)))%js.

(** [signIn]; [None] when it is still waiting for an initialization in
    flight after [fuel] sleeps. *)
Definition signIn (fuel : nat) (options_token : option string) (a : App)
    : option ((thrown + option SignedIn) * App) :=
  match authenticate options_token a with
  | (inl error, a1) => Some (sign_in_failed error a1)
  | (inr None, a1) => Some (inr None, a1)
  | (inr (Some u), a1) =>
      match Lifecycle.initDuckDB platform others fuel (engine a1) with
      | None => None
      | Some (inl error, w) =>
          Some (sign_in_failed error
                  (mkApp w (credentials a1) (repository a1) (exchanges a1)))
      | Some (inr _, w) =>
          Some (inr (Some u), mkApp w (credentials a1) (repository a1) (exchanges a1))
      end
  end.

End WithPlatform.

End Session.

(** ** Concrete runs

    Small inputs on which the statements below are instantiated. *)

Module Examples.
Import Js.

(** A configured and authenticated session with an empty cache, at
    wall-clock time 1000. *)
Definition session : Credentials.State :=
  Credentials.mkState (Credentials.mkConfig (Some "https://proxy.example") (Some "s3"))
    (Some "session-token") (Credentials.mkCache ∅ 0) 1000 [].

Definition signed (url : string) (expiresIn : Z) : Credentials.ProxyJson :=
  Credentials.mkJson url {[ "b.parquet" := url ]} expiresIn.

Definition answer (data : Credentials.ProxyJson) : Credentials.Response :=
  Credentials.mkResponse 200 (inr "") (inr data).

(** A proxy that signs everything for 900 seconds, 5 ms after being
    asked. *)
Definition signing : Credentials.Network :=
  fun _ => (5, Credentials.Resolved (answer (signed "https://store.example/signed" 900))).

(** The same GET, and the same PUT, asked twice: at time 1000 and again
    at time 2000. *)
Definition get_once : (thrown + value) * Credentials.State :=
  Credentials.getPresignedUrl signing "a.parquet" Credentials.GET
    "application/octet-stream" session.

Definition get_again : (thrown + value) * Credentials.State :=
  Credentials.getPresignedUrl signing "a.parquet" Credentials.GET
    "application/octet-stream" (Credentials.atTime 2000 get_once.2).

Definition put_once : (thrown + value) * Credentials.State :=
  Credentials.getPresignedUrl signing "a.parquet" Credentials.PUT
    "application/octet-stream" session.

Definition put_again : (thrown + value) * Credentials.State :=
  Credentials.getPresignedUrl signing "a.parquet" Credentials.PUT
    "application/octet-stream" (Credentials.atTime 2000 put_once.2).

Definition unauthorized : Credentials.Response :=
  Credentials.mkResponse 401 (inr "Unauthorized") (inl (ErrorObj "Unexpected token")).

(** A proxy that turns every request down. *)
Definition denying : Credentials.Network :=
  fun _ => (5, Credentials.Resolved unauthorized).

(** A first answer good for 100 seconds, later ones for 900. *)
Definition short_then_long : Credentials.Network :=
  fun n =>
    match n with
    | O => (5, Credentials.Resolved (answer (signed "https://store.example/a" 100)))
    | _ => (5, Credentials.Resolved (answer (signed "https://store.example/b" 900)))
    end.

Definition first_run : (thrown + value) * Credentials.State :=
  Credentials.getPresignedUrl short_then_long "a.parquet" Credentials.GET
    "application/octet-stream" session.

Definition second_run : (thrown + value) * Credentials.State :=
  Credentials.getPresignedUrl short_then_long "b.parquet" Credentials.GET
    "application/octet-stream" (Credentials.atTime 50000 first_run.2).

(** The same second request, made as a batch. *)
Definition second_batch : (thrown + gmap string (option value)) * Credentials.State :=
  Credentials.fetchPresignedUrls short_then_long ["b.parquet"; "c.parquet"]
    (Credentials.atTime 50000 first_run.2).

Definition inline_repository : Repository.RepositoryInfo :=
  Repository.set_assetMode "inline" Repository.repository.

Definition photo : Assets.Asset :=
  Assets.mkAsset "3f2a" "media/photo.png" "photo.png" 3 "image" None.

Definition three_bytes : Duck.Bytes := [Byte.x01; Byte.x02; Byte.x03].

Definition png_extension : string -> option string := fun _ => Some "png".

(** A commit in a world where nothing fails: the exports yield fixed
    bytes and the digest is a stand-in that returns its input. *)
Definition plain_digest : Duck.Bytes -> thrown + Duck.Bytes := fun content => inr content.

Definition plain_result : Commits.CommitResults :=
  Commits.mkResults "0aff10" 1700000000000 [].

End Examples.

(** ** Further concrete runs *)

Module Scenarios.
Import Js.

(** A session whose cache holds a URL for [a.parquet], good for a long
    while. *)
Definition warm : Credentials.State :=
  Credentials.mkState (Credentials.mkConfig (Some "https://proxy.example") (Some "s3"))
    (Some "session-token")
    (Credentials.mkCache {[ "a.parquet" := "https://store.example/a" ]} 1000000) 1000 [].

(** A batch on the warm cache for a path it cannot serve and a path that
    names a member of [Object.prototype]. *)
Definition mixed_run : (thrown + gmap string (option value)) * Credentials.State :=
  Credentials.fetchPresignedUrls Examples.signing ["toString"; "b.parquet"] warm.

Definition mixed_result : gmap string (option value) :=
  match mixed_run.1 with
  | inr result => result
  | inl _ => ∅
  end.

(** A GET that the proxy turns down. *)
Definition denied_run : (thrown + value) * Credentials.State :=
  Credentials.getPresignedUrl Examples.denying "a.parquet" Credentials.GET
    "application/octet-stream" Examples.session.

(** A network that is down. *)
Definition offline : Credentials.Network :=
  fun _ => (5, Credentials.Rejected (ErrorObj "Failed to fetch")).

Definition offline_run : (thrown + value) * Credentials.State :=
  Credentials.getPresignedUrl offline "a.parquet" Credentials.GET
    "application/octet-stream" Examples.session.

Definition offline_error : thrown :=
  match offline_run.1 with
  | inl e => e
  | inr _ => ErrorObj ""
  end.

(** A proxy that exchanges any token for a session of an hour. *)
Definition exchanged : TokenExchange.Json :=
  TokenExchange.mkJson (Some "session-token") (Some [("login", "octocat")]) (Some 3600).

Definition exchange_response : TokenExchange.Response :=
  TokenExchange.mkResponse 200 (inr "") (inr exchanged).

Definition exchanging : TokenExchange.Network :=
  fun _ => TokenExchange.Resolved exchange_response.

(** A proxy that gives its sessions a lifetime of 0 seconds. *)
Definition exchanged_for_nothing : TokenExchange.Json :=
  TokenExchange.mkJson (Some "session-token") (Some [("login", "octocat")]) (Some 0).

Definition exchanging_for_nothing : TokenExchange.Network :=
  fun _ => TokenExchange.Resolved
             (TokenExchange.mkResponse 200 (inr "") (inr exchanged_for_nothing)).

(** A site with a prefix, and one whose data path ends with a separator. *)
Definition prefixed_repository : Repository.RepositoryInfo :=
  Repository.set_storage "my-bucket" "cms/data" "site" Repository.repository.

Definition slashed_repository : Repository.RepositoryInfo :=
  Repository.set_storage "my-bucket" "cms/data/" "" Repository.repository.

Definition external_repository : Repository.RepositoryInfo :=
  Repository.set_assetMode "external" Repository.repository.

(** An engine that cannot create the entries table. *)
Definition no_entries_table : Sql.Command -> option thrown :=
  fun sql =>
    match sql with
    | Sql.CreateTable _ "entries" _ _ => Some (ErrorObj "Out of Memory Error")
    | _ => None
    end.

Definition empty_catalog : Catalog.Catalog := Catalog.mkCatalog ∅ ∅.

Definition empty_table : AssetsTable.Table := AssetsTable.mkTable [] 0.

(** An engine that answers with short codes. *)
Definition codes : AssetsTable.Fault -> string :=
  fun fault =>
    match fault with
    | AssetsTable.NoSuchTable _ => "no such table"
    | AssetsTable.ColumnCount => "column count"
    | AssetsTable.UnboundParameter => "parameter without a value"
    | AssetsTable.NotNull => "not null"
    | AssetsTable.CheckFailed _ => "check"
    | AssetsTable.DuplicateKey => "duplicate key"
    | AssetsTable.Unsupported => "unsupported"
    end.

(** The table once [Examples.photo] is in it, stored by reference. *)
Definition photo_table : AssetsTable.Table :=
  (Assets.insertAsset (Sql.plain (AssetsTable.exec codes)) Examples.png_extension
     external_repository Examples.photo None Assets.DEFAULT_INLINE_THRESHOLD empty_table).2.

Definition renamed : Assets.AssetUpdates :=
  Assets.mkUpdates (Some "portrait.png") None None None.

(** The photo has moved to a content delivery network. *)
Definition moved : Assets.AssetUpdates :=
  Assets.mkUpdates (Some "portrait.png") None None (Some "https://cdn.example/3f2a.png").

(** Nothing set, nothing called. *)
Definition blank : Lifecycle.World :=
  Lifecycle.mkWorld (Init.mkState None None None false false []) [].

Definition bundle : Lifecycle.Bundle :=
  Lifecycle.mkBundle "https://cdn.example/duckdb-eh.wasm"
                     "https://cdn.example/duckdb-browser-eh.worker.js".

(** A platform on which every call succeeds: worker 1, engine 2,
    connection 3. *)
Definition sound : Lifecycle.Platform := Lifecycle.sound bundle 1 2 3.

(** The same platform, except that the module cannot be instantiated. *)
Definition no_instance : Lifecycle.Platform :=
  Lifecycle.mkPlatform (fun _ => None) (fun _ => inr bundle)
    (fun _ _ => inr (Lifecycle.mkWorkerResponse true 200 "OK" (inr "")))
    (fun _ => inr 1%nat) (fun _ _ => inr 2%nat)
    (fun _ _ => Some (ErrorObj "WebAssembly.instantiate failed")) (fun _ _ => None)
    (fun _ _ => inr 3%nat) (fun _ _ _ => None).

(** The same platform, except that no extension can be installed. *)
Definition no_extensions : Lifecycle.Platform :=
  Lifecycle.mkPlatform (fun _ => None) (fun _ => inr bundle)
    (fun _ _ => inr (Lifecycle.mkWorkerResponse true 200 "OK" (inr "")))
    (fun _ => inr 1%nat) (fun _ _ => inr 2%nat) (fun _ _ => None) (fun _ _ => None)
    (fun _ _ => inr 3%nat)
    (fun _ _ _ => Some (ErrorObj "Extension could not be fetched")).

Definition stay : Lifecycle.World -> Lifecycle.World := fun w => w.

(** The engine is up, and no connection is open. *)
Definition engine_up : Lifecycle.World :=
  Lifecycle.mkWorld (Init.mkState (Some 2%nat) None (Some 1%nat) false false []) [].

Definition first_connection : option ((thrown + nat) * Lifecycle.World) :=
  Lifecycle.getConnection sound stay 0 blank.

Definition connected : Lifecycle.World :=
  match first_connection with
  | Some (_, w) => w
  | None => blank
  end.

Definition failed_connection : option ((thrown + nat) * Lifecycle.World) :=
  Lifecycle.getConnection no_extensions stay 0 engine_up.

Definition failed_connection_error : thrown :=
  match failed_connection with
  | Some (inl e, _) => e
  | _ => ErrorObj ""
  end.

Definition failed_connection_world : Lifecycle.World :=
  match failed_connection with
  | Some (_, w) => w
  | None => engine_up
  end.

(** An application with an open session, and one whose repository has no
    credential proxy. *)
Definition configured_repository : Repository.RepositoryInfo :=
  Repository.mkRepository "duckdb" "DuckDB Lakehouse" "parquet" "s3" "my-bucket" "cms/data/"
    "" "https://proxy.example" "" "" "inline" "" "" "" "" "" "" false "duckdb:s3:my-bucket".

Definition app : Session.App :=
  Session.mkApp blank Examples.session configured_repository [].

Definition unconfigured_app : Session.App :=
  Session.mkApp blank Examples.session Repository.repository [].

Definition no_popup : string -> string -> thrown + option string := fun _ _ => inr None.

Definition failed_sign_in : option ((thrown + option Session.SignedIn) * Session.App) :=
  Session.signIn sound stay exchanging None no_popup 0 None unconfigured_app.

Definition failed_sign_in_app : Session.App :=
  match failed_sign_in with
  | Some (_, a) => a
  | None => unconfigured_app
  end.

Definition failed_sign_in_error : thrown :=
  match failed_sign_in with
  | Some (inl e, _) => e
  | _ => ErrorObj ""
  end.

Definition token_user : Session.SignedIn := Session.mkSignedIn [] "duckdb" "pat-123".

Definition token_sign_in : option ((thrown + option Session.SignedIn) * Session.App) :=
  Session.signIn sound stay exchanging None no_popup 0 (Some "pat-123") app.

Definition signed_in_app : Session.App :=
  match token_sign_in with
  | Some (_, a) => a
  | None => app
  end.

End Scenarios.

(** * Properties *)

(** ** The credential cache *)

Section CredentialsFacts.
Import Js Credentials.

Lemma truthy_Some (p : string) : truthy (Some p) = true <-> p <> "".
Proof.
  unfold truthy. destruct (String.eqb_spec p ""); cbn; split; intros; congruence.
Qed.

(** Arithmetic on safe integers is exact. *)
Lemma to_double_safe (z : Z) : safe z -> to_double z = z.
Proof.
  unfold safe, MAX_SAFE_INTEGER, to_double. intros Hz.
  destruct (Z.ltb_spec (Z.abs z) (2 ^ 53)); [reflexivity | lia].
Qed.

Lemma add_mul_safe (t e : Z) :
  safe (e * 1000) -> safe (t + e * 1000) -> add t (mul e 1000) = t + e * 1000.
Proof.
  intros He Ht. unfold add, mul. rewrite (to_double_safe _ He). apply to_double_safe, Ht.
Qed.

(** Beyond them it is not: a lifetime of 9007199254740 seconds, answered
    at time 1005, gives an expiry that ends in 004. *)
Lemma add_mul_rounds : add 1005 (mul 9007199254740 1000) = 9007199254741004.
Proof. reflexivity. Qed.

(** An own property is what a property read finds first; a string is only
    ever read from an own property. *)
Lemma get_own (m : gmap string string) (p u : string) :
  m !! p = Some u -> get m p = Some (Str u).
Proof. unfold get. intros ->. reflexivity. Qed.

Lemma get_Str (m : gmap string string) (p u : string) :
  get m p = Some (Str u) -> m !! p = Some u.
Proof.
  unfold get. destruct (m !! p) as [x|]; [congruence|].
  destruct (bool_decide _); discriminate.
Qed.

Lemma truthy_Str (u : string) : truthy_value (Some (Str u)) = true <-> u <> "".
Proof.
  cbn. destruct (String.eqb_spec u ""); cbn; split; intros; congruence.
Qed.

(** Nothing is read from an empty object but the members of the
    prototype. *)
Lemma get_empty (p : string) :
  get ∅ p = if bool_decide (p ∈ Object_prototype) then Some (Member p) else None.
Proof. unfold get. rewrite lookup_empty. reflexivity. Qed.

Lemma proxyRequest_run net endpoint body s :
  configured s -> authenticated s ->
  proxyRequest net endpoint body s =
    let s' := afterFetch (net (length (sent s))).1 (request_of s endpoint body) s in
    match (net (length (sent s))).2 with
    | Rejected (ErrorObj m) => (inl (ErrorObj m), s')
    | Rejected (NonError r) =>
        (inl (ErrorObj ("Failed to communicate with credential proxy: " +:+ r)), s')
    | Resolved response =>
        if ok response then
          match json response with
          | inr data => (inr data, s')
          | inl (ErrorObj m) => (inl (ErrorObj m), s')
          | inl (NonError r) =>
              (inl (ErrorObj ("Failed to communicate with credential proxy: " +:+ r)), s')
          end
        else if denied response then
          (inl (ErrorObj ("Authentication failed: " +:+ errorText_of response)),
           clearCredentials s')
        else
          (inl (ErrorObj ("Credential proxy request failed (" +:+ pretty (status response)
                          +:+ "): " +:+ errorText_of response)), s')
    end.
Proof.
  unfold configured, authenticated. intros Hc Ha.
  unfold proxyRequest, bind, gets, try_catch, fetch, throwError, throw, ret, modify.
  rewrite Hc, Ha. cbn [negb].
  destruct (net (length (sent s))) as [dt answer]. cbn [fst snd].
  destruct answer as [[m|r]|response]; try reflexivity.
  unfold denied.
  destruct (ok response); cbn [negb].
  - destruct (json response) as [[m|r]|data]; reflexivity.
  - destruct ((status response =? 401) || (status response =? 403)); reflexivity.
Qed.

(** Without a proxy URL or a token nothing is sent and nothing changes. *)
Lemma proxyRequest_refused net endpoint body s :
  ~ (configured s /\ authenticated s) ->
  exists e, proxyRequest net endpoint body s = (inl e, s).
Proof.
  unfold configured, authenticated. intros H.
  unfold proxyRequest, bind, gets, throwError, throw.
  destruct (truthy (proxyUrl (config s))); cbn [negb]; [| eauto].
  destruct (truthy (sessionToken s)); cbn [negb]; [| eauto].
  exfalso. auto.
Qed.

(** A request was sent exactly when the two sets of [sent] differ. *)
Lemma proxyRequest_sent net endpoint body s r s' :
  proxyRequest net endpoint body s = (r, s') ->
  sent s' <> sent s ->
  configured s /\ authenticated s.
Proof.
  intros Hrun Hsent.
  destruct (truthy (proxyUrl (config s))) eqn:Hc, (truthy (sessionToken s)) eqn:Ha;
    try (split; assumption);
    exfalso;
    (destruct (proxyRequest_refused net endpoint body s) as [e He];
     [ unfold configured, authenticated; intros [? ?]; congruence
     | rewrite He in Hrun; injection Hrun as _ <-; auto ]).
Qed.

Lemma denied_not_ok response : denied response = true -> ok response = false.
Proof.
  unfold denied, ok. intros H. apply orb_true_iff in H as [H|H]; apply Z.eqb_eq in H; rewrite H; reflexivity.
Qed.

Lemma proxyRequest_denied net endpoint body s response :
  configured s -> authenticated s ->
  (net (length (sent s))).2 = Resolved response ->
  denied response = true ->
  proxyRequest net endpoint body s =
    (inl (ErrorObj ("Authentication failed: " +:+ errorText_of response)),
     clearCredentials (afterFetch (net (length (sent s))).1 (request_of s endpoint body) s)).
Proof.
  intros Hc Ha Hnet Hd. rewrite proxyRequest_run by assumption.
  cbv zeta. rewrite Hnet, (denied_not_ok _ Hd), Hd. reflexivity.
Qed.

Lemma proxyRequest_ok net endpoint body s response data :
  configured s -> authenticated s ->
  (net (length (sent s))).2 = Resolved response ->
  ok response = true -> json response = inr data ->
  proxyRequest net endpoint body s =
    (inr data, afterFetch (net (length (sent s))).1 (request_of s endpoint body) s).
Proof.
  intros Hc Ha Hnet Hok Hj. rewrite proxyRequest_run by assumption.
  cbv zeta. rewrite Hnet, Hok, Hj. reflexivity.
Qed.

(** What [proxyRequest] leaves behind when it did send: one more request,
    and either the same credentials or, after a denial, none. *)
Lemma proxyRequest_after net endpoint body s r s' :
  configured s -> authenticated s ->
  proxyRequest net endpoint body s = (r, s') ->
  let s1 := afterFetch (net (length (sent s))).1 (request_of s endpoint body) s in
  sent s' = sent s ++ [request_of s endpoint body] /\
  (if deniedAnswer (net (length (sent s))).2 then s' = clearCredentials s1 /\ exists e, r = inl e
   else s' = s1).
Proof.
  intros Hc Ha. rewrite proxyRequest_run by assumption. cbv zeta.
  destruct ((net (length (sent s))).2) as [[m|x]|response] eqn:Hnet; cbn [deniedAnswer].
  - intros [= <- <-]. done.
  - intros [= <- <-]. done.
  - destruct (denied response) eqn:Hd.
    + rewrite (denied_not_ok _ Hd). intros [= <- <-]. split; [done|]. split; [done|eauto].
    + destruct (ok response).
      * destruct (json response) as [[m|x]|data]; intros [= <- <-]; done.
      * intros [= <- <-]. done.
Qed.

(** A valid cache that holds a URL for the path answers a GET at once:
    nothing is sent and nothing changes. *)
Lemma getPresignedUrl_read net path contentType s v :
  path <> "" -> isCacheValid s = true ->
  get (urls (cache s)) path = Some v -> truthy_value (Some v) = true ->
  getPresignedUrl net path GET contentType s = (inr v, s).
Proof.
  intros Hp Hv Hl Ht.
  apply truthy_Some in Hp.
  unfold getPresignedUrl, bind, gets, ret. rewrite Hp. cbn [negb Operation_eqb andb].
  rewrite Hv, Hl, Ht. reflexivity.
Qed.

Lemma getPresignedUrl_hit net path contentType s u :
  path <> "" -> isCacheValid s = true -> urls (cache s) !! path = Some u -> u <> "" ->
  getPresignedUrl net path GET contentType s = (inr (Str u), s).
Proof.
  intros Hp Hv Hl Hu.
  apply getPresignedUrl_read; try assumption.
  - apply get_own, Hl.
  - apply truthy_Str, Hu.
Qed.

(** The same, from the test the function makes: what is returned is what
    the property read yields. *)
Lemma getPresignedUrl_served net path contentType s :
  path <> "" -> servedFromCache s path = true ->
  exists v,
    get (urls (cache s)) path = Some v /\
    getPresignedUrl net path GET contentType s = (inr v, s).
Proof.
  intros Hp Hserved. unfold servedFromCache in Hserved.
  apply andb_true_iff in Hserved as [Hvalid Htruthy].
  destruct (get (urls (cache s)) path) as [v|] eqn:Hl; [|discriminate].
  exists v. split; [reflexivity|]. apply getPresignedUrl_read; assumption.
Qed.

(** So, while the cache is valid, a GET for a path that names a member of
    [Object.prototype] and has no URL in the cache is answered with that
    member, and nothing is sent. *)
Lemma getPresignedUrl_inherited net path contentType s :
  isCacheValid s = true -> path ∈ Object_prototype -> urls (cache s) !! path = None ->
  servedFromCache s path = true /\
  getPresignedUrl net path GET contentType s = (inr (Member path), s).
Proof.
  intros Hvalid Hmember Hown.
  assert (get (urls (cache s)) path = Some (Member path)) as Hget.
  { unfold get. rewrite Hown, bool_decide_eq_true_2 by exact Hmember. reflexivity. }
  split.
  - unfold servedFromCache. rewrite Hvalid, Hget. reflexivity.
  - apply getPresignedUrl_read; try assumption; [| reflexivity].
    intros ->. unfold Object_prototype in Hmember. set_solver.
Qed.

(** Otherwise the call goes to the proxy, and only a GET touches the
    cache afterwards. *)
Lemma getPresignedUrl_miss net path operation contentType s :
  path <> "" ->
  (operation = GET -> servedFromCache s path = false) ->
  getPresignedUrl net path operation contentType s =
    match proxyRequest net "/presign"
            (PresignBody operation path
               (if Operation_eqb operation PUT then Some contentType else None)) s with
    | (inr response, s') =>
        (inr (Str (json_url response)),
         if Operation_eqb operation GET
         then updateCache {[ path := json_url response ]} (json_expiresIn response) s'
         else s')
    | (inl e, s') => (inl e, s')
    end.
Proof.
  intros Hp Hmiss. apply truthy_Some in Hp.
  unfold getPresignedUrl, bind, gets, ret, modify. rewrite Hp. cbn [negb].
  assert (Operation_eqb operation GET && isCacheValid s
          && truthy_value (get (urls (cache s)) path) = false) as ->.
  { destruct operation; try reflexivity.
    specialize (Hmiss eq_refl). unfold servedFromCache in Hmiss. exact Hmiss. }
  destruct (proxyRequest net "/presign" _ s) as [[e|response] s']; [reflexivity|].
  destruct (Operation_eqb operation GET); reflexivity.
Qed.

Lemma servedFromCache_not_GET s path operation :
  operation <> GET -> operation = GET -> servedFromCache s path = false.
Proof. congruence. Qed.

Lemma getPresignedUrl_PUT_sends net path contentType s r s' :
  configured s -> authenticated s -> path <> "" ->
  getPresignedUrl net path PUT contentType s = (r, s') ->
  length (sent s') = S (length (sent s)) /\
  (deniedAnswer (net (length (sent s))).2 = false ->
   config s' = config s /\ sessionToken s' = sessionToken s /\ cache s' = cache s).
Proof.
  intros Hc Ha Hp.
  rewrite getPresignedUrl_miss by (assumption || discriminate). cbn [Operation_eqb].
  destruct (proxyRequest net "/presign" _ s) as [res s1] eqn:Hrun.
  destruct (proxyRequest_after _ _ _ _ _ _ Hc Ha Hrun) as [Hsent Hstate].
  assert (length (sent s1) = S (length (sent s))) as Hlen.
  { rewrite Hsent, length_app. cbn. lia. }
  assert (deniedAnswer (net (length (sent s))).2 = false ->
          config s1 = config s /\ sessionToken s1 = sessionToken s /\ cache s1 = cache s)
    as Hkeep.
  { intros Hd. rewrite Hd in Hstate. subst s1. done. }
  destruct res; intros [= <- <-]; auto.
Qed.

(** A PUT or DELETE never adds to the cache: it is left as it was, or
    emptied by a denial. *)
Lemma getPresignedUrl_write_cache net path operation contentType s r s' :
  operation <> GET ->
  getPresignedUrl net path operation contentType s = (r, s') ->
  cache s' = cache s \/ cache s' = mkCache ∅ 0.
Proof.
  intros Hop.
  destruct (String.eqb_spec path "") as [->|Hp].
  { unfold getPresignedUrl, throwError, throw. cbn. intros [= <- <-]. auto. }
  rewrite getPresignedUrl_miss by (assumption || congruence).
  assert (Operation_eqb operation GET = false) as -> by (destruct operation; cbn; congruence).
  destruct (proxyRequest net "/presign" _ s) as [res s1] eqn:Hrun.
  assert (cache s1 = cache s \/ cache s1 = mkCache ∅ 0) as Hcache.
  { destruct (truthy (proxyUrl (config s))) eqn:Hc, (truthy (sessionToken s)) eqn:Ha.
    1: { destruct (proxyRequest_after _ _ _ _ _ _ Hc Ha Hrun) as [_ Hstate].
         destruct (deniedAnswer _).
         - destruct Hstate as [-> _]. auto.
         - subst s1. auto. }
    all: destruct (proxyRequest_refused net "/presign"
                     (PresignBody operation path
                        (if Operation_eqb operation PUT then Some contentType else None)) s)
           as [e He];
         [ unfold configured, authenticated; intros [? ?]; congruence
         | rewrite He in Hrun; injection Hrun as _ <-; auto ]. }
  destruct res; intros [= <- <-]; exact Hcache.
Qed.

(** A GET that returned a URL has it in the cache, whether it came from
    there or from the proxy. *)
Lemma getPresignedUrl_GET_cached net path contentType s u s' :
  getPresignedUrl net path GET contentType s = (inr (Str u), s') ->
  path <> "" /\ (u <> "" -> urls (cache s') !! path = Some u).
Proof.
  intros Hrun.
  destruct (String.eqb_spec path "") as [->|Hp].
  { unfold getPresignedUrl, throwError, throw in Hrun. cbn in Hrun. discriminate. }
  split; [assumption|]. intros Hu.
  destruct (servedFromCache s path) eqn:Hserved.
  - unfold servedFromCache in Hserved. apply andb_true_iff in Hserved as [Hvalid Htruthy].
    destruct (get (urls (cache s)) path) as [v|] eqn:Hl; [|discriminate].
    rewrite (getPresignedUrl_read net path contentType s v Hp Hvalid Hl Htruthy) in Hrun.
    injection Hrun as -> <-. apply get_Str, Hl.
  - rewrite getPresignedUrl_miss in Hrun by auto.
    destruct (proxyRequest net "/presign" _ s) as [[e|response] s1]; [discriminate|].
    cbn [Operation_eqb] in Hrun. injection Hrun as <- <-.
    cbn. apply lookup_union_Some_l, lookup_singleton_eq.
Qed.

(** So in any state, warm or cold, a GET that returned a URL is answered
    again with the same URL and without the proxy while the window
    lasts. *)
Lemma getPresignedUrl_GET_again net path contentType s u s' t :
  getPresignedUrl net path GET contentType s = (inr (Str u), s') -> u <> "" ->
  t < expiry (cache s') - REFRESH_BUFFER_MS ->
  getPresignedUrl net path GET contentType (atTime t s') = (inr (Str u), atTime t s').
Proof.
  intros Hrun Hu Ht.
  destruct (getPresignedUrl_GET_cached _ _ _ _ _ _ Hrun) as [Hp Hl].
  apply getPresignedUrl_hit; auto.
  unfold isCacheValid. cbn. apply Z.ltb_lt. lia.
Qed.

(** C1. In a configured and authenticated state, a GET for a path, once
    answered by the proxy with a URL, is answered from the cache when it is
    asked again while [now < cached expiry - 60s]: the two calls send one
    signing request and return the same URL.  Two PUTs for the same path
    send two signing requests, and a PUT or DELETE never stores anything in
    the cache. *)
Theorem getPresignedUrl_caches_GET_only net s path contentType :
  configured s -> authenticated s -> path <> "" ->
  (forall response data t2 r1 s1 r2 s2,
      servedFromCache s path = false ->
      (net (length (sent s))).2 = Resolved response ->
      ok response = true -> json response = inr data -> json_url data <> "" ->
      getPresignedUrl net path GET contentType s = (r1, s1) ->
      t2 < expiry (cache s1) - REFRESH_BUFFER_MS ->
      getPresignedUrl net path GET contentType (atTime t2 s1) = (r2, s2) ->
      r1 = inr (Str (json_url data)) /\ r2 = inr (Str (json_url data)) /\
      length (sent s2) = S (length (sent s)))
  /\
  (forall t2 r1 s1 r2 s2,
      deniedAnswer (net (length (sent s))).2 = false ->
      getPresignedUrl net path PUT contentType s = (r1, s1) ->
      getPresignedUrl net path PUT contentType (atTime t2 s1) = (r2, s2) ->
      length (sent s2) = S (S (length (sent s))))
  /\
  (forall operation r1 s1,
      operation <> GET ->
      getPresignedUrl net path operation contentType s = (r1, s1) ->
      cache s1 = cache s \/ cache s1 = mkCache ∅ 0).
Proof.
  intros Hc Ha Hp. split; [| split].
  - intros response data t2 r1 s1 r2 s2 Hmiss Hnet Hok Hj Hu Hrun1 Ht2 Hrun2.
    rewrite getPresignedUrl_miss in Hrun1 by auto.
    rewrite (proxyRequest_ok _ _ _ _ _ _ Hc Ha Hnet Hok Hj) in Hrun1.
    cbn [Operation_eqb] in Hrun1. injection Hrun1 as <- <-.
    rewrite (getPresignedUrl_hit net path contentType _ (json_url data)) in Hrun2.
    + injection Hrun2 as <- <-. split; [done|]. split; [done|].
      cbn. rewrite length_app. cbn. lia.
    + assumption.
    + unfold isCacheValid. cbn in *. lia.
    + cbn. apply lookup_union_Some_l. apply lookup_singleton_eq.
    + assumption.
  - intros t2 r1 s1 r2 s2 Hd Hrun1 Hrun2.
    destruct (getPresignedUrl_PUT_sends _ _ _ _ _ _ Hc Ha Hp Hrun1) as [Hlen1 Hkeep].
    destruct (Hkeep Hd) as (Hcfg & Htok & _).
    assert (configured (atTime t2 s1)) as Hc1 by (unfold configured; cbn; rewrite Hcfg; exact Hc).
    assert (authenticated (atTime t2 s1)) as Ha1
      by (unfold authenticated; cbn; rewrite Htok; exact Ha).
    destruct (getPresignedUrl_PUT_sends _ _ _ _ _ _ Hc1 Ha1 Hp Hrun2) as [Hlen2 _].
    cbn in Hlen2. lia.
  - intros operation r1 s1 Hop Hrun. eapply getPresignedUrl_write_cache; eauto.
Qed.

(** A call that sent something did get past the path check and the cache. *)
Lemma getPresignedUrl_sent net path operation contentType s r s' :
  getPresignedUrl net path operation contentType s = (r, s') ->
  sent s' <> sent s ->
  path <> "" /\ (operation = GET -> servedFromCache s path = false).
Proof.
  intros Hrun Hsent.
  destruct (String.eqb_spec path "") as [->|Hp].
  { exfalso. apply Hsent. unfold getPresignedUrl, throwError, throw in Hrun. cbn in Hrun.
    injection Hrun as _ <-. reflexivity. }
  split; [assumption|]. intros ->.
  destruct (servedFromCache s path) eqn:Hserved; [exfalso | reflexivity].
  apply Hsent.
  destruct (getPresignedUrl_served net path contentType s Hp Hserved) as (v & _ & Hhit).
  rewrite Hhit in Hrun. injection Hrun as _ <-. reflexivity.
Qed.

(** [fetchPresignedUrls] either leaves the state alone or makes one batch
    request and, when that succeeds, merges the answer into the cache. *)
Lemma fetchPresignedUrls_cases net paths s r s' :
  fetchPresignedUrls net paths s = (r, s') ->
  s' = s \/
  exists pathsToFetch,
    match proxyRequest net "/presign-batch" (PresignBatchBody pathsToFetch) s with
    | (inr response, s1) =>
        s' = updateCache (json_urls response) (json_expiresIn response) s1 /\
        exists result, r = inr result
    | (inl e, s1) => s' = s1 /\ r = inl e
    end.
Proof.
  unfold fetchPresignedUrls.
  destruct (length paths =? 0)%nat.
  { intros [= <- <-]. auto. }
  set (validPaths := filter _ paths).
  destruct (length validPaths =? 0)%nat.
  { intros [= <- <-]. auto. }
  unfold bind at 1. unfold gets at 1. unfold bind at 1. unfold gets at 1.
  set (pathsToFetch := if isCacheValid s then _ else _).
  destruct (length pathsToFetch =? 0)%nat.
  { intros [= <- <-]. auto. }
  intros Hrun. right. exists pathsToFetch.
  unfold bind, modify, gets, ret in Hrun.
  destruct (proxyRequest net "/presign-batch" (PresignBatchBody pathsToFetch) s)
    as [[e|response] s1].
  - injection Hrun as <- <-. done.
  - injection Hrun as <- <-. eauto.
Qed.





Lemma getPresignedUrl_GET_fetched net path contentType s response data r s' :
  configured s -> authenticated s -> path <> "" ->
  servedFromCache s path = false ->
  (net (length (sent s))).2 = Resolved response ->
  ok response = true -> json response = inr data ->
  getPresignedUrl net path GET contentType s = (r, s') ->
  r = inr (Str (json_url data)) /\
  s' = updateCache {[ path := json_url data ]} (json_expiresIn data)
         (afterFetch (net (length (sent s))).1
            (request_of s "/presign" (PresignBody GET path None)) s).
Proof.
  intros Hc Ha Hp Hmiss Hnet Hok Hj Hrun.
  rewrite getPresignedUrl_miss in Hrun by auto.
  rewrite (proxyRequest_ok _ _ _ _ _ _ Hc Ha Hnet Hok Hj) in Hrun.
  cbn [Operation_eqb] in Hrun. injection Hrun as <- <-. done.
Qed.

Lemma fetchPresignedUrls_fetched net paths s response data r s' :
  (net (length (sent s))).2 = Resolved response ->
  ok response = true -> json response = inr data ->
  fetchPresignedUrls net paths s = (r, s') ->
  sent s' <> sent s ->
  exists pathsToFetch,
    s' = updateCache (json_urls data) (json_expiresIn data)
           (afterFetch (net (length (sent s))).1
              (request_of s "/presign-batch" (PresignBatchBody pathsToFetch)) s).
Proof.
  intros Hnet Hok Hj Hrun Hsent.
  destruct (fetchPresignedUrls_cases _ _ _ _ _ Hrun) as [-> | [pathsToFetch Hcase]];
    [congruence|].
  exists pathsToFetch.
  destruct (proxyRequest net "/presign-batch" _ s) as [res s1] eqn:Hreq.
  assert (sent s1 <> sent s) as Hsent1.
  { destruct res as [e|response']; [destruct Hcase as [<- _]; assumption|].
    destruct Hcase as [-> _]. assumption. }
  destruct (proxyRequest_sent _ _ _ _ _ _ Hreq Hsent1) as [Hc Ha].
  rewrite (proxyRequest_ok _ _ _ _ _ _ Hc Ha Hnet Hok Hj) in Hreq.
  injection Hreq as <- <-. destruct Hcase as [-> _]. reflexivity.
Qed.

(** An entry of the cache is served as long as the one shared expiry
    allows, whichever response brought it in. *)
Lemma served_until_shared_expiry net a u s :
  a <> "" -> u <> "" -> urls (cache s) !! a = Some u ->
  forall t contentType,
    t < expiry (cache s) - REFRESH_BUFFER_MS ->
    getPresignedUrl net a GET contentType (atTime t s) = (inr (Str u), atTime t s).
Proof.
  intros Ha Hu Hl t contentType Ht.
  apply getPresignedUrl_hit; try assumption.
  unfold isCacheValid. cbn. apply Z.ltb_lt. lia.
Qed.

(** C10. The cache has one expiry for all its paths.  A GET presign that
    the proxy answers sets it to [now + expiresIn * 1000] (exactly, the
    numbers being safe integers) and merges the new URLs into the map,
    for [getPresignedUrl] and for [fetchPresignedUrls] alike.  So once a
    later presign for other paths has been answered, the URL cached
    earlier for path [a] is returned without a signing request at every
    time before the new shared expiry minus the buffer, also at times at
    which the expiry set by its own response no longer served it. *)
Theorem shared_expiry_keeps_older_urls net s a contentType resp1 data1 r1 s1 :
  configured s -> authenticated s -> a <> "" ->
  servedFromCache s a = false ->
  (net (length (sent s))).2 = Resolved resp1 ->
  ok resp1 = true -> json resp1 = inr data1 -> json_url data1 <> "" ->
  getPresignedUrl net a GET contentType s = (r1, s1) ->
  safe (json_expiresIn data1 * 1000) ->
  safe (now s1 + json_expiresIn data1 * 1000) ->
  r1 = inr (Str (json_url data1)) /\
  expiry (cache s1) = now s1 + json_expiresIn data1 * 1000 /\
  (forall t3, now s1 + json_expiresIn data1 * 1000 - REFRESH_BUFFER_MS <= t3 ->
              servedFromCache (atTime t3 s1) a = false) /\
  forall t2 resp2 data2,
    (net (length (sent s1))).2 = Resolved resp2 ->
    ok resp2 = true -> json resp2 = inr data2 ->
    safe (json_expiresIn data2 * 1000) ->
    (forall b contentType2 r2 s2,
        b <> a ->
        getPresignedUrl net b GET contentType2 (atTime t2 s1) = (r2, s2) ->
        sent s2 <> sent s1 ->
        safe (now s2 + json_expiresIn data2 * 1000) ->
        expiry (cache s2) = now s2 + json_expiresIn data2 * 1000 /\
        urls (cache s2) = {[ b := json_url data2 ]} ∪ urls (cache s1) /\
        forall t3 contentType3,
          t3 < now s2 + json_expiresIn data2 * 1000 - REFRESH_BUFFER_MS ->
          getPresignedUrl net a GET contentType3 (atTime t3 s2)
          = (inr (Str (json_url data1)), atTime t3 s2))
    /\
    (forall paths r2 s2,
        json_urls data2 !! a = None ->
        fetchPresignedUrls net paths (atTime t2 s1) = (r2, s2) ->
        sent s2 <> sent s1 ->
        safe (now s2 + json_expiresIn data2 * 1000) ->
        expiry (cache s2) = now s2 + json_expiresIn data2 * 1000 /\
        urls (cache s2) = json_urls data2 ∪ urls (cache s1) /\
        forall t3 contentType3,
          t3 < now s2 + json_expiresIn data2 * 1000 - REFRESH_BUFFER_MS ->
          getPresignedUrl net a GET contentType3 (atTime t3 s2)
          = (inr (Str (json_url data1)), atTime t3 s2)).
Proof.
  intros Hc Ha Hp Hmiss Hnet1 Hok1 Hj1 Hu1 Hrun1 Hsafe1 Hsum1.
  destruct (getPresignedUrl_GET_fetched _ _ _ _ _ _ _ _ Hc Ha Hp Hmiss Hnet1 Hok1 Hj1 Hrun1)
    as [-> Hs1].
  assert (urls (cache s1) !! a = Some (json_url data1)) as Hcached.
  { rewrite Hs1. cbn. apply lookup_union_Some_l, lookup_singleton_eq. }
  assert (config s1 = config s /\ sessionToken s1 = sessionToken s) as [Hcfg Htok]
    by (rewrite Hs1; done).
  assert (now s1 = now (afterFetch (net (length (sent s))).1
                          (request_of s "/presign" (PresignBody GET a None)) s)) as Hnow1
    by (rewrite Hs1; reflexivity).
  assert (expiry (cache s1) = now s1 + json_expiresIn data1 * 1000) as Hexp1.
  { rewrite Hnow1 in Hsum1 |- *. rewrite Hs1. cbn [expiry cache updateCache set_cache].
    apply add_mul_safe; assumption. }
  split; [reflexivity|]. split; [exact Hexp1|].
  split.
  { intros t3 Ht3. unfold servedFromCache, isCacheValid.
    cbn [now atTime cache]. rewrite Hexp1.
    destruct (Z.ltb_spec (t3 + REFRESH_BUFFER_MS) (now s1 + json_expiresIn data1 * 1000));
      [lia | reflexivity]. }
  intros t2 resp2 data2 Hnet2 Hok2 Hj2 Hsafe2.
  assert (configured (atTime t2 s1)) as Hc2
    by (unfold configured; cbn; rewrite Hcfg; exact Hc).
  assert (authenticated (atTime t2 s1)) as Ha2
    by (unfold authenticated; cbn; rewrite Htok; exact Ha).
  split.
  - intros b contentType2 r2 s2 Hb Hrun2 Hsent2 Hsum2.
    destruct (getPresignedUrl_sent _ _ _ _ _ _ _ Hrun2 Hsent2) as [Hbp Hmiss2].
    destruct (getPresignedUrl_GET_fetched _ _ _ _ _ _ _ _ Hc2 Ha2 Hbp (Hmiss2 eq_refl)
                Hnet2 Hok2 Hj2 Hrun2) as [_ Hs2].
    assert (urls (cache s2) = {[ b := json_url data2 ]} ∪ urls (cache s1)) as Hurls
      by (rewrite Hs2; reflexivity).
    assert (expiry (cache s2) = now s2 + json_expiresIn data2 * 1000) as Hexp2.
    { revert Hsum2. rewrite Hs2. cbn [expiry cache updateCache set_cache now].
      intros Hsum2. apply add_mul_safe; assumption. }
    split; [exact Hexp2|]. split; [exact Hurls|].
    rewrite <- Hexp2.
    apply served_until_shared_expiry; try assumption.
    rewrite Hurls, lookup_union_r; [exact Hcached|].
    apply lookup_singleton_ne. exact Hb.
  - intros paths r2 s2 Hfresh Hrun2 Hsent2 Hsum2.
    destruct (fetchPresignedUrls_fetched _ _ _ _ _ _ _ Hnet2 Hok2 Hj2 Hrun2 Hsent2)
      as [pathsToFetch Hs2].
    assert (urls (cache s2) = json_urls data2 ∪ urls (cache s1)) as Hurls
      by (rewrite Hs2; reflexivity).
    assert (expiry (cache s2) = now s2 + json_expiresIn data2 * 1000) as Hexp2.
    { revert Hsum2. rewrite Hs2. cbn [expiry cache updateCache set_cache now].
      intros Hsum2. apply add_mul_safe; assumption. }
    split; [exact Hexp2|]. split; [exact Hurls|].
    rewrite <- Hexp2.
    apply served_until_shared_expiry; try assumption.
    rewrite Hurls, lookup_union_r; [exact Hcached | exact Hfresh].
Qed.

End CredentialsFacts.

(** ** Storage paths *)

Section RepositoryFacts.
Import Js Repository.

Lemma collapse_slashes_start s :
  starts_with_slash (collapse_slashes s) = starts_with_slash s.
Proof.
  induction s as [|c rest IH]; [reflexivity|].
  cbn [collapse_slashes]. destruct rest as [|c' rest']; [reflexivity|].
  destruct (Ascii.eqb c "/" && Ascii.eqb c' "/") eqn:Hboth; [|reflexivity].
  rewrite IH. apply andb_true_iff in Hboth as [Hc Hc']. cbn. congruence.
Qed.

(** No combination of prefix, data path and relative path yields a
    doubled separator. *)
Lemma collapse_slashes_no_double s : has_double_slash (collapse_slashes s) = false.
Proof.
  induction s as [|c rest IH]; [reflexivity|].
  cbn [collapse_slashes]. destruct rest as [|c' rest'];
    [cbn; rewrite orb_false_r; apply andb_false_r|].
  destruct (Ascii.eqb c "/" && Ascii.eqb c' "/") eqn:Hboth; [exact IH|].
  cbn [has_double_slash]. rewrite IH, collapse_slashes_start, orb_false_r. exact Hboth.
Qed.

Lemma getFullStoragePath_no_double_slash r relativePath :
  has_double_slash (getFullStoragePath r relativePath) = false.
Proof. unfold getFullStoragePath. apply collapse_slashes_no_double. Qed.

(** The bucket plays no part in the path. *)
Lemma getFullStoragePath_ignores_bucket r bucket' relativePath :
  getFullStoragePath (set_storage bucket' (dataPath r) (pathPrefix r) r) relativePath
  = getFullStoragePath r relativePath.
Proof. reflexivity. Qed.

(** C7, as the code has it.  With bucket [my-bucket] (or any other), data
    path [cms/data] and an empty prefix, the full storage path of
    [entries/blog.json] is [cms/data/entries/blog.json]: the data path
    and the relative path joined by one separator, with no separator left
    over from the empty prefix, and without the bucket. *)
Theorem getFullStoragePath_without_bucket r bucket' :
  getFullStoragePath (set_storage bucket' "cms/data" "" r) "entries/blog.json"
  = "cms/data/entries/blog.json".
Proof. reflexivity. Qed.

(** C7, as the claim has it, fails: the path does not start with the
    bucket. *)
Lemma getFullStoragePath_not_bucket_prefixed :
  getFullStoragePath (set_storage "my-bucket" "cms/data" "" repository) "entries/blog.json"
  <> "my-bucket/cms/data/entries/blog.json".
Proof. vm_compute. discriminate. Qed.

End RepositoryFacts.

(** ** Asset rows *)

Section AssetsFacts.
Import Js Duck Assets.

Variable extension : string -> option string.

Lemma useInline_Some assetMode content threshold bytes :
  useInline assetMode content threshold = Some bytes <->
  assetMode = "inline" /\ content = Some bytes /\ Z.of_nat (length bytes) <= threshold.
Proof.
  unfold useInline. destruct content as [c|]; [| split; [discriminate | intros (_ & [=] & _)]].
  destruct (String.eqb_spec assetMode "inline") as [->|Hmode];
    destruct (Z.leb_spec (Z.of_nat (length c)) threshold); cbn [andb]; split;
    try discriminate.
  - intros [= ->]. done.
  - intros (_ & [= ->] & _). reflexivity.
  - intros (_ & [= ->] & ?). lia.
  - intros (? & _). congruence.
  - intros (? & _). congruence.
Qed.

Lemma useInline_None assetMode content threshold :
  useInline assetMode content threshold = None <->
  ~ (assetMode = "inline" /\ exists bytes,
       content = Some bytes /\ Z.of_nat (length bytes) <= threshold).
Proof.
  destruct (useInline assetMode content threshold) as [bytes|] eqn:Huse; split.
  - discriminate.
  - intros Hno. exfalso. apply Hno. apply useInline_Some in Huse as (? & ? & ?). eauto.
  - intros _ (Hmode & bytes & Hc & Hlen).
    assert (useInline assetMode content threshold = Some bytes) as Hyes
      by (apply useInline_Some; auto).
    congruence.
  - reflexivity.
Qed.


(** C3, as the code has it.  Content longer than the threshold is never
    stored inline, whatever the asset mode, [inline] included: the row is
    [external], no bytes are bound, and the storage URL is recorded. *)
Theorem insertAsset_over_threshold_external repository asset bytes threshold :
  threshold < Z.of_nat (length bytes) ->
  exists sql,
    (forall DB (q : Query DB),
        insertAsset q extension repository asset (Some bytes) threshold
        = issue "Failed to insert asset: " q sql []) /\
    storesExternal (or_else (blobURL asset) (path asset)) sql [] /\
    ~ storesInline bytes sql [].
Proof.
  intros Hlen.
  assert (useInline (Repository.assetMode repository) (Some bytes) threshold = None) as Huse.
  { apply useInline_None. intros (_ & b & [= <-] & ?). lia. }
  eexists. split; [| split].
  - intros DB q. unfold insertAsset, issue. rewrite Huse. reflexivity.
  - done.
  - intros (_ & _ & [=] & _).
Qed.

(** [updateAsset] sends an UPDATE whatever it is given: the list of SET
    clauses always ends with the timestamp, so it is never empty. *)
Lemma updateAsset_never_skips id updates content :
  exists sets params,
    forall DB (q : Query DB),
      updateAsset q id updates content
      = issue "Failed to update asset: " q
          (Update "cms.assets" (sets ++ [("updated_at", CurrentTimestamp)]) (WhereEq "id" id))
          params.
Proof.
  unfold updateAsset, issue.
  destruct content as [bytes|]; [| destruct (truthy (upd_blobURL updates))];
    eexists _, _; intros DB q;
    rewrite length_app, Nat.add_comm; reflexivity.
Qed.

(** New content switches the row to inline storage and clears the URL. *)
Lemma updateAsset_content_inline id updates bytes :
  exists sets,
    (forall DB (q : Query DB),
        updateAsset q id updates (Some bytes)
        = issue "Failed to update asset: " q
            (Update "cms.assets" sets (WhereEq "id" id)) [bytes]) /\
    storesInline bytes (Update "cms.assets" sets (WhereEq "id" id)) [bytes].
Proof.
  unfold updateAsset, issue, push_if.
  destruct (truthy (upd_name updates)), (truthy (upd_path updates)),
    (upd_size updates) as [n|];
    (eexists; split; [intros DB q; reflexivity | done]).
Qed.

(** Without content, a new URL switches the row to external storage and
    clears the inline content. *)
Lemma updateAsset_url_external id updates url :
  upd_blobURL updates = Some url -> url <> "" ->
  exists sets,
    (forall DB (q : Query DB),
        updateAsset q id updates None
        = issue "Failed to update asset: " q
            (Update "cms.assets" sets (WhereEq "id" id)) []) /\
    storesExternal url (Update "cms.assets" sets (WhereEq "id" id)) [].
Proof.
  intros Hurl Hne.
  assert (truthy (upd_blobURL updates) = true /\ or_else (upd_blobURL updates) "" = url)
    as [Ht Ho].
  { rewrite Hurl. unfold truthy, or_else. destruct (String.eqb_spec url ""); done. }
  unfold updateAsset, issue, push_if. rewrite Ht, Ho.
  destruct (truthy (upd_name updates)), (truthy (upd_path updates)),
    (upd_size updates) as [n|];
    (eexists; split; [intros DB q; reflexivity | done]).
Qed.

(** C6, at the input where the code departs from it: with no field to
    update and no content, [updateAsset] still sends an UPDATE, which sets
    [updated_at] to the current timestamp in the row with that id. *)
Theorem updateAsset_empty_still_updates id :
  updateAsset recorder id (mkUpdates None None None None) None []
  = (inr tt, [(Update "cms.assets" [("updated_at", CurrentTimestamp)] (WhereEq "id" id), [])]).
Proof. reflexivity. Qed.

End AssetsFacts.

(** ** The schema probe *)

Section SchemaFacts.
Import Js Duck Schema.
Import Catalog.

Lemma filter_map_rows {A B} (f : B -> bool) (g : A -> B) (l : list A) :
  List.filter f (map g l) = map g (List.filter (fun a => f (g a)) l).
Proof.
  induction l as [|a l IH]; [reflexivity|].
  cbn. destruct (f (g a)); cbn; rewrite IH; reflexivity.
Qed.

Lemma filter_nil_iff {A} (f : A -> bool) (l : list A) :
  length (List.filter f l) = 0%nat <-> forall x, List.In x l -> f x = false.
Proof.
  induction l as [|a l IH]; cbn.
  - split; [intros _ x [] | reflexivity].
  - destruct (f a) eqn:Hfa; cbn.
    + split; [discriminate|]. intros H. specialize (H a (or_introl eq_refl)). congruence.
    + rewrite IH. split.
      * intros H x [<- | Hx]; auto.
      * intros H x Hx. apply H. auto.
Qed.

Lemma schemata_probe_rows cat :
  Catalog.query (fun _ => None) schemata_probe [] cat
  = (inr (map (project ["schema_name"])
            (map schemata_row (List.filter is_cms (elements (schemata cat))))), cat).
Proof.
  unfold Catalog.query, schemata_probe. cbn [relation String.eqb Ascii.eqb Bool.eqb].
  cbn.
  rewrite filter_map_rows. reflexivity.
Qed.

Lemma tables_probe_rows cat :
  Catalog.query (fun _ => None) tables_probe [] cat
  = (inr (map (project ["table_name"])
            (map tables_row (List.filter is_cms_table (elements (tables cat))))), cat).
Proof.
  unfold Catalog.query, tables_probe. cbn.
  rewrite filter_map_rows. do 4 f_equal.
  apply filter_ext. intros [s t]. cbn. unfold is_cms_table. cbn.
  destruct (String.eqb s "cms"); cbn; [|reflexivity].
  rewrite orb_false_r. reflexivity.
Qed.

Lemma schemata_count (S : gset string) :
  length (List.filter is_cms (elements S)) = 0%nat <-> "cms" ∉ S.
Proof.
  rewrite filter_nil_iff. split.
  - intros H Hin. apply elem_of_elements, list_elem_of_In in Hin.
    specialize (H _ Hin). discriminate.
  - intros Hnot x Hx. unfold is_cms. destruct (String.eqb_spec x "cms") as [->|]; [|reflexivity].
    exfalso. apply Hnot. apply elem_of_elements, list_elem_of_In. exact Hx.
Qed.

Lemma is_cms_table_iff t :
  is_cms_table t = true <-> t = ("cms", "entries") \/ t = ("cms", "assets").
Proof.
  destruct t as [s n]. unfold is_cms_table. cbn [fst snd].
  rewrite andb_true_iff, orb_true_iff, !String.eqb_eq. split.
  - intros [-> [-> | ->]]; auto.
  - intros [[= -> ->] | [= -> ->]]; auto.
Qed.

Lemma tables_count (T : gset (string * string)) :
  length (List.filter is_cms_table (elements T)) = 2%nat <->
  ("cms", "entries") ∈ T /\ ("cms", "assets") ∈ T.
Proof.
  set (found := List.filter is_cms_table (elements T)).
  assert (NoDup found) as Hnd.
  { apply NoDup_ListNoDup, List.NoDup_filter, NoDup_ListNoDup, NoDup_elements. }
  assert (forall x, x ∈ found <-> x ∈ T /\ is_cms_table x = true) as Hin.
  { intros x. unfold found. rewrite list_elem_of_In, filter_In, <- list_elem_of_In.
    rewrite elem_of_elements. reflexivity. }
  assert (NoDup [("cms", "entries"); ("cms", "assets")]) as Hnd2.
  { apply NoDup_cons. split; [| apply NoDup_singleton].
    rewrite list_elem_of_singleton. discriminate. }
  assert (forall x, x ∈ found -> x ∈ [("cms", "entries"); ("cms", "assets")]) as Hsub.
  { intros x Hx. apply Hin in Hx as [_ Hx]. apply is_cms_table_iff in Hx as [-> | ->].
    - apply list_elem_of_here.
    - apply list_elem_of_further, list_elem_of_here. }
  split.
  - intros Hlen.
    assert (found ≡ₚ [("cms", "entries"); ("cms", "assets")]) as Hperm.
    { apply submseteq_length_Permutation.
      - apply NoDup_submseteq; assumption.
      - rewrite Hlen. cbn. lia. }
    split.
    + apply (Hin ("cms", "entries")). rewrite Hperm. apply list_elem_of_here.
    + apply (Hin ("cms", "assets")). rewrite Hperm.
      apply list_elem_of_further, list_elem_of_here.
  - intros [He Ha].
    assert (found ≡ₚ [("cms", "entries"); ("cms", "assets")]) as Hperm.
    { apply NoDup_Permutation; try assumption.
      intros x. split; [apply Hsub|].
      intros Hx. apply Hin.
      apply elem_of_cons in Hx as [-> | Hx]; [done|].
      apply list_elem_of_singleton in Hx as ->. done. }
    rewrite Hperm. reflexivity.
Qed.

Lemma query_fault faults sql params cat e :
  faults sql = Some e -> Catalog.query faults sql params cat = (inl e, cat).
Proof. unfold Catalog.query. intros ->. reflexivity. Qed.

Lemma query_no_fault faults sql params cat :
  faults sql = None ->
  Catalog.query faults sql params cat = Catalog.query (fun _ => None) sql params cat.
Proof. unfold Catalog.query. intros ->. reflexivity. Qed.

(** Whatever the engine does, the probe comes back with a boolean, and
    with [true] only after both queries have answered. *)
Lemma schemaExists_any_engine {DB} (q : Query DB) db :
  exists b db',
    schemaExists q db = (inr b, db') /\
    (b = true ->
     exists rows1 db1 rows2,
       q schemata_probe [] db = (inr rows1, db1) /\
       q tables_probe [] db1 = (inr rows2, db') /\
       rows1 <> [] /\ length rows2 = 2%nat).
Proof.
  unfold schemaExists, try_catch, bind, ret.
  destruct (q schemata_probe [] db) as [[e|rows1] db1] eqn:H1.
  - eexists _, _. split; [reflexivity | discriminate].
  - destruct rows1 as [|row rows1]; cbn [length Nat.eqb].
    + eexists _, _. split; [reflexivity | discriminate].
    + destruct (q tables_probe [] db1) as [[e|rows2] db2] eqn:H2.
      * eexists _, _. split; [reflexivity | discriminate].
      * eexists _, _. split; [reflexivity|].
        intros Hb. apply Nat.eqb_eq in Hb.
        exists (row :: rows1), db1, rows2. done.
Qed.

(** C8. [schemaExists] never raises: for every engine it returns a
    boolean, and [true] only when both queries answered.  On a catalog it
    returns [true] if and only if neither query failed, the namespace
    [cms] exists, and the tables [entries] and [assets] are both in it. *)
Theorem schemaExists_exact_and_total :
  (forall DB (q : Query DB) db,
      exists b db',
        schemaExists q db = (inr b, db') /\
        (b = true ->
         exists rows1 db1 rows2,
           q schemata_probe [] db = (inr rows1, db1) /\
           q tables_probe [] db1 = (inr rows2, db') /\
           rows1 <> [] /\ length rows2 = 2%nat))
  /\
  (forall faults cat,
      exists b,
        schemaExists (Catalog.query faults) cat = (inr b, cat) /\
        (b = true <->
         faults schemata_probe = None /\ faults tables_probe = None /\
         "cms" ∈ schemata cat /\
         ("cms", "entries") ∈ tables cat /\ ("cms", "assets") ∈ tables cat)).
Proof.
  split; [intros DB q db; apply schemaExists_any_engine|].
  intros faults cat.
  unfold schemaExists, try_catch, bind, ret.
  destruct (faults schemata_probe) as [e1|] eqn:Hf1.
  { rewrite (query_fault _ _ _ _ _ Hf1). exists false. split; [reflexivity|].
    split; [discriminate | intros ([=] & _)]. }
  rewrite (query_no_fault _ _ _ _ Hf1), schemata_probe_rows, !length_map.
  destruct (length (List.filter is_cms (elements (schemata cat)))) as [|n] eqn:Hn1;
    cbn [Nat.eqb].
  { exists false. split; [reflexivity|]. split; [discriminate|].
    intros (_ & _ & Hcms & _). apply schemata_count in Hn1. contradiction. }
  assert ("cms" ∈ schemata cat) as Hcms.
  { destruct (decide ("cms" ∈ schemata cat)) as [?|Hnot]; [assumption|].
    apply schemata_count in Hnot. congruence. }
  destruct (faults tables_probe) as [e2|] eqn:Hf2.
  { rewrite (query_fault _ _ _ _ _ Hf2). exists false. split; [reflexivity|].
    split; [discriminate | intros (_ & [=] & _)]. }
  rewrite (query_no_fault _ _ _ _ Hf2), tables_probe_rows, !length_map.
  eexists. split; [reflexivity|].
  rewrite Nat.eqb_eq, tables_count. tauto.
Qed.

End SchemaFacts.

(** ** The commit identifier *)

Section CommitsFacts.
Import Js Duck Commits.

Context {W Conn : Type}.
Variable digest_SHA256 : Bytes -> thrown + Bytes.
Variable getConnection : M W Conn.
Variable getPresignedUrl : string -> Credentials.Operation -> string -> M W string.
Variable fetch_PUT : string -> Bytes -> string -> M W Credentials.Response.
Variable processEntryChanges : Conn -> list FileChange -> string -> M W unit.
Variable processAssetChanges : Conn -> list FileChange -> M W unit.
Variable exportEntriesToParquet : Conn -> M W Bytes.
Variable exportAssetsToParquet : Conn -> M W Bytes.
Variable Date_new : M W Z.

(** The two [set] calls fill the fresh array with the entries bytes
    followed by the assets bytes, and neither is out of range. *)
Lemma combinedContent_concat (entriesParquet assetsParquet : Bytes) :
  exists filled,
    Uint8Array_set entriesParquet 0
      (Uint8Array_new (length entriesParquet + length assetsParquet)) = inr filled /\
    Uint8Array_set assetsParquet (length entriesParquet) filled
    = inr (entriesParquet ++ assetsParquet).
Proof.
  exists (entriesParquet ++ replicate (length assetsParquet) Byte.x00).
  unfold Uint8Array_set, Uint8Array_new. split.
  - rewrite length_replicate.
    destruct (Nat.leb_spec (0 + length entriesParquet)
                (length entriesParquet + length assetsParquet)); [|lia].
    rewrite drop_replicate.
    replace (length entriesParquet + length assetsParquet - (0 + length entriesParquet))%nat
      with (length assetsParquet) by lia.
    reflexivity.
  - rewrite length_app, length_replicate.
    destruct (Nat.leb_spec (length entriesParquet + length assetsParquet)
                (length entriesParquet + length assetsParquet)); [|lia].
    rewrite take_app_length, drop_ge by (rewrite length_app, length_replicate; lia).
    rewrite app_nil_r. reflexivity.
Qed.

Lemma generateSha_run content (w : W) :
  generateSha digest_SHA256 content w =
    match digest_SHA256 content with
    | inr hash => (inr (substring 0 40 (hashHex hash)), w)
    | inl e => (inl (ErrorObj ("Failed to generate SHA: " +:+ describe e)), w)
    end.
Proof.
  unfold generateSha, try_catch, bind, lift, ret, throw.
  destruct (digest_SHA256 content); reflexivity.
Qed.

(** When [commitChanges] returns, each step up to the two exports has
    succeeded, and the identifier is [commitId] of what they produced. *)
Lemma commitChanges_inversion repository changes options (w w' : W) result :
  commitChanges digest_SHA256 getConnection getPresignedUrl fetch_PUT
    processEntryChanges processAssetChanges exportEntriesToParquet
    exportAssetsToParquet Date_new repository changes options w = (inr result, w') ->
  exists conn w0 w1 w2 w3 w4 entriesParquet assetsParquet,
    getConnection w = (inr conn, w0) /\
    processEntryChanges conn (List.filter isEntryChange changes)
      (or_else (collection_name options) "") w0 = (inr tt, w1) /\
    processAssetChanges conn (List.filter isAssetChange changes) w1 = (inr tt, w2) /\
    exportEntriesToParquet conn w2 = (inr entriesParquet, w3) /\
    exportAssetsToParquet conn w3 = (inr assetsParquet, w4) /\
    commitId digest_SHA256 entriesParquet assetsParquet = inr (sha result).
Proof.
  unfold commitChanges, try_catch, bind, throw, ret, lift. intros Hrun.
  destruct (getConnection w) as [[e|conn] w0] eqn:Hconn; [discriminate|].
  destruct (processEntryChanges conn _ _ w0) as [[e|[]] w1] eqn:Hentries; [discriminate|].
  destruct (processAssetChanges conn _ w1) as [[e|[]] w2] eqn:Hassets; [discriminate|].
  destruct (exportEntriesToParquet conn w2) as [[e|entriesParquet] w3] eqn:Hexp1;
    [discriminate|].
  destruct (exportAssetsToParquet conn w3) as [[e|assetsParquet] w4] eqn:Hexp2;
    [discriminate|].
  destruct (Promise_all2 _ _ w4) as [[e|[]] w5]; [discriminate|].
  destruct (combinedContent_concat entriesParquet assetsParquet) as (filled & Hset1 & Hset2).
  rewrite Hset1, Hset2, generateSha_run in Hrun.
  exists conn, w0, w1, w2, w3, w4, entriesParquet, assetsParquet.
  repeat (split; [assumption || reflexivity|]).
  unfold commitId.
  destruct (digest_SHA256 (entriesParquet ++ assetsParquet)) as [e|hash]; [discriminate|].
  destruct (Date_new w5) as [[e|date] w6]; [discriminate|].
  injection Hrun as <- _. reflexivity.
Qed.

Lemma commitChanges_snapshots repository changes options (w w' : W) result :
  commitChanges digest_SHA256 getConnection getPresignedUrl fetch_PUT
    processEntryChanges processAssetChanges exportEntriesToParquet
    exportAssetsToParquet Date_new repository changes options w = (inr result, w') ->
  exists entriesParquet assetsParquet w4,
    exportedSnapshots getConnection processEntryChanges processAssetChanges
      exportEntriesToParquet exportAssetsToParquet changes options w
    = (inr (entriesParquet, assetsParquet), w4) /\
    commitId digest_SHA256 entriesParquet assetsParquet = inr (sha result).
Proof.
  intros Hrun.
  destruct (commitChanges_inversion _ _ _ _ _ _ Hrun)
    as (conn & w0 & w1 & w2 & w3 & w4 & entriesParquet & assetsParquet
        & Hconn & Hentries & Hassets & Hexp1 & Hexp2 & Hid).
  exists entriesParquet, assetsParquet, w4. split; [|exact Hid].
  unfold exportedSnapshots, bind, ret.
  rewrite Hconn, Hentries, Hassets, Hexp1, Hexp2. reflexivity.
Qed.

(** C5. The commit identifier that [commitChanges] returns is the hash
    of the entries snapshot followed by the assets snapshot, as the two
    exports produced them in that run: it is [commitId] of the two byte
    sequences, which looks at their concatenation and at nothing else.  So
    a second commit, whatever its changes and the state it starts from,
    whose exports produce the same pair of buffers returns the same
    identifier. *)
Theorem commit_sha_from_snapshots repository changes options (w w' : W) result :
  commitChanges digest_SHA256 getConnection getPresignedUrl fetch_PUT
    processEntryChanges processAssetChanges exportEntriesToParquet
    exportAssetsToParquet Date_new repository changes options w = (inr result, w') ->
  (exists entriesParquet assetsParquet w4,
      exportedSnapshots getConnection processEntryChanges processAssetChanges
        exportEntriesToParquet exportAssetsToParquet changes options w
      = (inr (entriesParquet, assetsParquet), w4) /\
      commitId digest_SHA256 entriesParquet assetsParquet = inr (sha result))
  /\
  (forall repository2 changes2 options2 (w2 w2' : W) result2 snapshots w4 w4',
      commitChanges digest_SHA256 getConnection getPresignedUrl fetch_PUT
        processEntryChanges processAssetChanges exportEntriesToParquet
        exportAssetsToParquet Date_new repository2 changes2 options2 w2
      = (inr result2, w2') ->
      exportedSnapshots getConnection processEntryChanges processAssetChanges
        exportEntriesToParquet exportAssetsToParquet changes options w
      = (inr snapshots, w4) ->
      exportedSnapshots getConnection processEntryChanges processAssetChanges
        exportEntriesToParquet exportAssetsToParquet changes2 options2 w2
      = (inr snapshots, w4') ->
      sha result2 = sha result).
Proof.
  intros Hrun.
  destruct (commitChanges_snapshots _ _ _ _ _ _ Hrun)
    as (entriesParquet & assetsParquet & w4 & Hexported & Hid).
  split; [eauto|].
  intros repository2 changes2 options2 w2 w2' result2 snapshots w5 w5' Hrun2 Hsnap Hsnap2.
  destruct (commitChanges_snapshots _ _ _ _ _ _ Hrun2)
    as (entriesParquet2 & assetsParquet2 & w6 & Hexported2 & Hid2).
  rewrite Hexported in Hsnap. rewrite Hexported2 in Hsnap2.
  injection Hsnap as <- _. injection Hsnap2 as -> -> _.
  congruence.
Qed.

(** A commit all of whose steps succeed does return, with that hash. *)
Lemma commitChanges_succeeds repository changes options
    (w w0 w1 w2 w3 w4 w5 w6 : W) conn entriesParquet assetsParquet hash date :
  getConnection w = (inr conn, w0) ->
  processEntryChanges conn (List.filter isEntryChange changes)
    (or_else (collection_name options) "") w0 = (inr tt, w1) ->
  processAssetChanges conn (List.filter isAssetChange changes) w1 = (inr tt, w2) ->
  exportEntriesToParquet conn w2 = (inr entriesParquet, w3) ->
  exportAssetsToParquet conn w3 = (inr assetsParquet, w4) ->
  Promise_all2
    (uploadParquetFile getPresignedUrl fetch_PUT
       (Repository.getFullStoragePath repository "entries.parquet") entriesParquet)
    (uploadParquetFile getPresignedUrl fetch_PUT
       (Repository.getFullStoragePath repository "assets.parquet") assetsParquet) w4
  = (inr tt, w5) ->
  digest_SHA256 (entriesParquet ++ assetsParquet) = inr hash ->
  Date_new w5 = (inr date, w6) ->
  exists result,
    commitChanges digest_SHA256 getConnection getPresignedUrl fetch_PUT
      processEntryChanges processAssetChanges exportEntriesToParquet
      exportAssetsToParquet Date_new repository changes options w = (inr result, w6) /\
    sha result = substring 0 40 (hashHex hash) /\ date = Commits.date result.
Proof.
  intros Hconn Hentries Hassets Hexp1 Hexp2 Hup Hdigest Hdate.
  destruct (combinedContent_concat entriesParquet assetsParquet) as (filled & Hset1 & Hset2).
  unfold commitChanges, try_catch, bind, throw, ret, lift.
  rewrite Hconn, Hentries, Hassets, Hexp1, Hexp2, Hup, Hset1, Hset2, generateSha_run,
    Hdigest, Hdate.
  eexists. split; [reflexivity|]. done.
Qed.

End CommitsFacts.

(** ** Shutting the engine down *)

Section InitFacts.
Import Js Init.

(** C9. [closeDuckDB] never raises, whatever the calls it makes do.  It
    makes the calls of [teardown]: one for each of the connection, the
    engine and the worker that is set, each whether or not the ones before
    it threw, and none when nothing is set.  Afterwards the three
    references are unset and the extension flag is reset, so that
    [isDuckDBReady] and [hasActiveConnection] are false; from a state with
    nothing initialized the state is left as it was. *)
Theorem closeDuckDB_best_effort platform s :
  (exists s',
      closeDuckDB platform s = (inr tt, s') /\
      performed s' = performed s ++ teardown s /\
      db s' = None /\ conn s' = None /\ worker s' = None /\
      extensionsLoaded s' = false /\ isInitializing s' = isInitializing s /\
      isDuckDBReady s' = false /\ hasActiveConnection s' = false)
  /\
  (forall initializing done,
      closeDuckDB platform (mkState None None None initializing false done)
      = (inr tt, mkState None None None initializing false done)).
Proof.
  split; [| reflexivity].
  destruct s as [d c k i x p].
  unfold closeDuckDB, bind, gets, try_catch, perform, modify, ret, teardown.
  cbn [db conn worker performed isInitializing extensionsLoaded].
  destruct c as [c|], d as [d|], k as [k|];
    cbn [db conn worker performed isInitializing extensionsLoaded
         set_conn set_db set_worker set_extensionsLoaded];
    repeat (match goal with
            | |- context [platform ?h ?e] => destruct (platform h e)
            end;
            cbn [db conn worker performed isInitializing extensionsLoaded
                 set_conn set_db set_worker set_extensionsLoaded]);
    (eexists; split; [reflexivity|]);
    cbn [db conn worker performed isInitializing extensionsLoaded];
    rewrite ?app_nil_r, <- ?app_assoc; done.
Qed.

End InitFacts.

(** * Instances

    Each statement above that has hypotheses, applied to a concrete run. *)

Section Instances.
Import Js Examples.

Lemma getPresignedUrl_caches_GET_only_witness :
  (get_once.1 = inr (Str "https://store.example/signed") /\
   get_again.1 = inr (Str "https://store.example/signed") /\
   length (Credentials.sent get_again.2) = 1%nat)
  /\
  length (Credentials.sent put_again.2) = 2%nat.
Proof.
  destruct (getPresignedUrl_caches_GET_only signing session "a.parquet"
              "application/octet-stream") as (Hget & Hput & _).
  - reflexivity.
  - reflexivity.
  - discriminate.
  - split.
    + apply (Hget (answer (signed "https://store.example/signed" 900))
                  (signed "https://store.example/signed" 900) 2000
                  get_once.1 get_once.2 get_again.1 get_again.2).
      * reflexivity.
      * reflexivity.
      * reflexivity.
      * reflexivity.
      * discriminate.
      * apply surjective_pairing.
      * vm_compute. reflexivity.
      * apply surjective_pairing.
    + apply (Hput 2000 put_once.1 put_once.2 put_again.1 put_again.2).
      * reflexivity.
      * apply surjective_pairing.
      * apply surjective_pairing.
Defined.


Lemma shared_expiry_keeps_older_urls_witness :
  (first_run.1 = inr (Str "https://store.example/a") /\
   Credentials.expiry (Credentials.cache first_run.2) = 101005 /\
   Credentials.servedFromCache (Credentials.atTime 200000 first_run.2) "a.parquet" = false)
  /\
  (Credentials.expiry (Credentials.cache second_run.2) = 950005 /\
   Credentials.getPresignedUrl short_then_long "a.parquet" Credentials.GET
     "application/octet-stream" (Credentials.atTime 200000 second_run.2)
   = (inr (Str "https://store.example/a"), Credentials.atTime 200000 second_run.2))
  /\
  (Credentials.expiry (Credentials.cache second_batch.2) = 950005 /\
   Credentials.getPresignedUrl short_then_long "a.parquet" Credentials.GET
     "application/octet-stream" (Credentials.atTime 200000 second_batch.2)
   = (inr (Str "https://store.example/a"), Credentials.atTime 200000 second_batch.2)).
Proof.
  destruct (shared_expiry_keeps_older_urls short_then_long session "a.parquet"
              "application/octet-stream"
              (answer (signed "https://store.example/a" 100))
              (signed "https://store.example/a" 100) first_run.1 first_run.2)
    as (Hfirst & Hexpiry & Hstale & Hlater).
  - reflexivity.
  - reflexivity.
  - discriminate.
  - reflexivity.
  - reflexivity.
  - reflexivity.
  - reflexivity.
  - discriminate.
  - apply surjective_pairing.
  - vm_compute. discriminate.
  - vm_compute. discriminate.
  - destruct (Hlater 50000 (answer (signed "https://store.example/b" 900))
                (signed "https://store.example/b" 900)) as [Hsingle Hbatch].
    + reflexivity.
    + reflexivity.
    + reflexivity.
    + vm_compute. discriminate.
    + split; [| split].
      * split; [exact Hfirst|]. split; [rewrite Hexpiry; reflexivity|].
        apply Hstale. vm_compute. discriminate.
      * destruct (Hsingle "b.parquet" "application/octet-stream" second_run.1 second_run.2)
          as (Hshared & _ & Hserved).
        -- discriminate.
        -- apply surjective_pairing.
        -- vm_compute. discriminate.
        -- vm_compute. discriminate.
        -- split; [rewrite Hshared; reflexivity|].
           apply Hserved. vm_compute. reflexivity.
      * destruct (Hbatch ["b.parquet"; "c.parquet"] second_batch.1 second_batch.2)
          as (Hshared & _ & Hserved).
        -- reflexivity.
        -- apply surjective_pairing.
        -- vm_compute. discriminate.
        -- vm_compute. discriminate.
        -- split; [rewrite Hshared; reflexivity|].
           apply Hserved. vm_compute. reflexivity.
Defined.

Lemma insertAsset_over_threshold_external_witness :
  exists sql,
    (forall DB (q : Duck.Query DB),
        Assets.insertAsset q png_extension inline_repository photo (Some three_bytes) 2
        = Assets.issue "Failed to insert asset: " q sql []) /\
    Assets.storesExternal "media/photo.png" sql [] /\
    ~ Assets.storesInline three_bytes sql [].
Proof.
  apply (insertAsset_over_threshold_external png_extension inline_repository photo
           three_bytes 2).
  reflexivity.
Defined.

(** C3, as the claim has it, fails: in mode [inline], three bytes against
    a threshold of two are not stored inline. *)
Lemma insertAsset_inline_mode_not_forced :
  ~ (exists sql params,
        (Assets.insertAsset Duck.recorder png_extension inline_repository photo
           (Some three_bytes) 2 []).2 = [(sql, params)] /\
        Assets.storesInline three_bytes sql params).
Proof.
  intros (sql & params & Hrecorded & Hmode & _).
  vm_compute in Hrecorded. injection Hrecorded as <- <-.
  vm_compute in Hmode. discriminate.
Qed.

Lemma commit_sha_from_snapshots_witness :
  (exists entriesParquet assetsParquet (w4 : unit),
      Commits.exportedSnapshots (W := unit) (Conn := unit) (ret tt)
        (fun _ _ _ => ret tt) (fun _ _ => ret tt)
        (fun _ => ret [Byte.x0a; Byte.xff]) (fun _ => ret [Byte.x10])
        [] (Commits.mkOptions (Some "posts")) tt
      = (inr (entriesParquet, assetsParquet), w4) /\
      Commits.commitId plain_digest entriesParquet assetsParquet
      = inr (Commits.sha plain_result))
  /\
  Commits.sha plain_result = "0aff10".
Proof.
  destruct (commit_sha_from_snapshots (W := unit) (Conn := unit) plain_digest
              (ret tt)
              (fun _ _ _ => ret "https://store.example/put")
              (fun _ _ _ => ret (answer (signed "" 0)))
              (fun _ _ _ => ret tt)
              (fun _ _ => ret tt)
              (fun _ => ret [Byte.x0a; Byte.xff])
              (fun _ => ret [Byte.x10])
              (ret 1700000000000)
              Repository.repository [] (Commits.mkOptions (Some "posts")) tt tt plain_result)
    as [Hid _].
  - vm_compute. reflexivity.
  - split; [exact Hid | reflexivity].
Defined.

End Instances.

(** * Further properties *)

(** ** The credential cache, continued *)

Section CredentialsMore.
Import Js Credentials.

Lemma fetchPresignedUrls_run net paths s :
  fetchPresignedUrls net paths s =
    let validPaths := filter (fun p => truthy (Some p) = true) paths in
    let pathsToFetch :=
      if isCacheValid s
      then filter (fun p => truthy_value (get (urls (cache s)) p) = false) validPaths
      else validPaths in
    if (length paths =? 0)%nat then
      (inl (ErrorObj "Valid array of paths is required"), s)
    else if (length validPaths =? 0)%nat then
      (inl (ErrorObj "No valid paths provided"), s)
    else if (length pathsToFetch =? 0)%nat then
      (inr (fromCache validPaths (cache s)), s)
    else
      match proxyRequest net "/presign-batch" (PresignBatchBody pathsToFetch) s with
      | (inr response, s1) =>
          let s2 := updateCache (json_urls response) (json_expiresIn response) s1 in
          (inr (fromCache validPaths (cache s2)), s2)
      | (inl e, s1) => (inl e, s1)
      end.
Proof.
  unfold fetchPresignedUrls. cbv zeta.
  destruct (length paths =? 0)%nat; [reflexivity|].
  destruct (length (filter _ paths) =? 0)%nat; [reflexivity|].
  unfold bind at 1. unfold gets at 1. unfold bind at 1. unfold gets at 1.
  destruct (length (if isCacheValid s then _ else _) =? 0)%nat; [reflexivity|].
  unfold bind, modify, gets, ret.
  destruct (proxyRequest net "/presign-batch" _ s) as [[e|response] s1]; reflexivity.
Qed.

Lemma fromCache_lookup validPaths c p :
  fromCache validPaths c !! p
  = if decide (p ∈ validPaths) then Some (get (urls c) p) else None.
Proof.
  unfold fromCache.
  assert (forall acc : gmap string (option value),
             foldl (fun acc p => <[ p := get (urls c) p ]> acc) acc validPaths !! p
             = if decide (p ∈ validPaths) then Some (get (urls c) p) else acc !! p) as Hgen.
  { induction validPaths as [|q l IH]; intros acc; cbn [foldl].
    - destruct (decide (p ∈ [])) as [Hin|_]; [inversion Hin | reflexivity].
    - rewrite IH. destruct (decide (p ∈ l)) as [Hl|Hl].
      + rewrite decide_True by (apply list_elem_of_further; exact Hl). reflexivity.
      + destruct (decide (p = q)) as [->|Hne].
        * rewrite decide_True by apply list_elem_of_here.
          apply lookup_insert_eq.
        * rewrite decide_False by (rewrite elem_of_cons; tauto).
          apply lookup_insert_ne. congruence. }
  rewrite Hgen. destruct (decide (p ∈ validPaths)); [reflexivity | apply lookup_empty].
Qed.

Lemma filter_truthy_replicate n :
  filter (fun p => truthy (Some p) = true) (replicate n "") = [].
Proof. induction n as [|n IH]; [reflexivity|]. cbn. exact IH. Qed.

(** An empty array, or one that holds nothing but empty paths, is turned
    down before anything is sent. *)
Lemma fetchPresignedUrls_rejects_empty net s :
  fetchPresignedUrls net [] s
  = (inl (ErrorObj "Valid array of paths is required"), s) /\
  forall n,
    fetchPresignedUrls net (replicate (S n) "") s
    = (inl (ErrorObj "No valid paths provided"), s).
Proof.
  split; [reflexivity|]. intros n.
  rewrite fetchPresignedUrls_run. cbv zeta.
  rewrite filter_truthy_replicate. reflexivity.
Qed.

Lemma validPaths_elem (paths : list string) p :
  p ∈ filter (fun p => truthy (Some p) = true) paths <-> p ∈ paths /\ p <> "".
Proof. rewrite list_elem_of_filter, truthy_Some. tauto. Qed.

Lemma length_zero_nil {A} (l : list A) : (length l =? 0)%nat = true <-> l = [].
Proof. destruct l; cbn; split; congruence. Qed.

Lemma decide_validPaths (paths : list string) p {B} (x y : B) :
  (if decide (p ∈ filter (fun p => truthy (Some p) = true) paths) then x else y)
  = (if decide (p ∈ paths /\ p <> "") then x else y).
Proof.
  destruct (decide (p ∈ filter _ paths)) as [Hin|Hin], (decide (p ∈ paths /\ p <> ""));
    try reflexivity; exfalso; rewrite validPaths_elem in Hin; tauto.
Qed.

(** X1. When the cache is valid and a read of it yields something truthy
    for every non-empty path asked for (a URL it holds, or a member of
    [Object.prototype]), the batch is answered from the cache: nothing is
    sent, the state is untouched, and the result has exactly the non-empty
    paths as keys, each with what the read of the cache yields for it. *)
Theorem fetchPresignedUrls_all_cached net paths s :
  isCacheValid s = true ->
  (exists p, p ∈ paths /\ p <> "") ->
  (forall p, p ∈ paths -> p <> "" -> truthy_value (get (urls (cache s)) p) = true) ->
  exists result,
    fetchPresignedUrls net paths s = (inr result, s) /\
    forall p,
      result !! p
      = if decide (p ∈ paths /\ p <> "") then Some (get (urls (cache s)) p) else None.
Proof.
  intros Hvalid (p0 & Hp0 & Hne0) Hcached.
  rewrite fetchPresignedUrls_run. cbv zeta. rewrite Hvalid.
  destruct (length paths =? 0)%nat eqn:Hlen.
  { apply length_zero_nil in Hlen. subst paths. inversion Hp0. }
  destruct (length (filter (fun p => truthy (Some p) = true) paths) =? 0)%nat eqn:Hlenv.
  { apply length_zero_nil in Hlenv.
    assert (p0 ∈ filter (fun p => truthy (Some p) = true) paths) as Hin
      by (apply validPaths_elem; auto).
    rewrite Hlenv in Hin. inversion Hin. }
  assert (filter (fun p => truthy_value (get (urls (cache s)) p) = false)
            (filter (fun p => truthy (Some p) = true) paths) = []) as ->.
  { apply elem_of_nil_inv. intros p Hp.
    apply list_elem_of_filter in Hp as [Hno Hp]. apply validPaths_elem in Hp as [Hp Hne].
    rewrite (Hcached p Hp Hne) in Hno. discriminate. }
  cbn [length Nat.eqb]. eexists. split; [reflexivity|].
  intros p. rewrite fromCache_lookup. apply decide_validPaths.
Qed.

(** X2. What a batch asks the proxy for: a single request to
    [/presign-batch], for the non-empty paths for which a read of the
    cache yields nothing truthy, which is all of them when the cache is no
    longer valid.  While the cache is valid, a path that names a member
    of [Object.prototype] and has no URL in the cache is not asked for. *)
Theorem fetchPresignedUrls_fetches_missing net paths s r s' :
  fetchPresignedUrls net paths s = (r, s') ->
  sent s' <> sent s ->
  exists pathsToFetch,
    sent s' = sent s ++ [request_of s "/presign-batch" (PresignBatchBody pathsToFetch)] /\
    (forall p,
        p ∈ pathsToFetch <->
        p ∈ paths /\ p <> "" /\
        (isCacheValid s = true -> truthy_value (get (urls (cache s)) p) = false)) /\
    (isCacheValid s = true ->
     forall p, p ∈ Object_prototype -> urls (cache s) !! p = None -> p ∉ pathsToFetch).
Proof.
  rewrite fetchPresignedUrls_run. cbv zeta.
  set (validPaths := filter (fun p => truthy (Some p) = true) paths).
  set (pathsToFetch := if isCacheValid s then _ else validPaths).
  destruct (length paths =? 0)%nat; [intros [= <- <-]; congruence|].
  destruct (length validPaths =? 0)%nat; [intros [= <- <-]; congruence|].
  destruct (length pathsToFetch =? 0)%nat; [intros [= <- <-]; congruence|].
  destruct (proxyRequest net "/presign-batch" (PresignBatchBody pathsToFetch) s)
    as [res s1] eqn:Hreq.
  intros Hrun Hsent.
  assert (sent s' = sent s1) as Hsame by (destruct res; injection Hrun as _ <-; reflexivity).
  rewrite Hsame in Hsent.
  destruct (proxyRequest_sent _ _ _ _ _ _ Hreq Hsent) as [Hc Ha].
  destruct (proxyRequest_after _ _ _ _ _ _ Hc Ha Hreq) as [Hlog _].
  exists pathsToFetch. split; [congruence|].
  assert (forall p,
             p ∈ pathsToFetch <->
             p ∈ paths /\ p <> "" /\
             (isCacheValid s = true -> truthy_value (get (urls (cache s)) p) = false))
    as Hasked.
  { intros p. unfold pathsToFetch. destruct (isCacheValid s).
    - rewrite list_elem_of_filter. unfold validPaths. rewrite validPaths_elem. tauto.
    - unfold validPaths. rewrite validPaths_elem. split; [intros [? ?] | tauto].
      split; [assumption|]. split; [assumption | discriminate]. }
  split; [exact Hasked|].
  intros Hvalid p Hmember Hown Hin. apply Hasked in Hin as (_ & _ & Hfalsy).
  specialize (Hfalsy Hvalid). unfold get in Hfalsy.
  rewrite Hown, bool_decide_eq_true_2 in Hfalsy by exact Hmember. discriminate.
Qed.

(** X3. The result of a batch that went to the proxy and was answered has
    exactly the non-empty paths asked for as keys; each holds what a read
    of the merged cache yields: the URL of the answer first, that of the
    old cache second, and otherwise the member of [Object.prototype] the
    path names, or [undefined]. *)
Theorem fetchPresignedUrls_returns_union net paths s response data result s' :
  (net (length (sent s))).2 = Resolved response ->
  ok response = true -> json response = inr data ->
  fetchPresignedUrls net paths s = (inr result, s') ->
  sent s' <> sent s ->
  forall p,
    result !! p
    = if decide (p ∈ paths /\ p <> "")
      then Some (match json_urls data !! p, urls (cache s) !! p with
                 | Some u, _ => Some (Str u)
                 | None, Some u => Some (Str u)
                 | None, None =>
                     if bool_decide (p ∈ Object_prototype) then Some (Member p) else None
                 end)
      else None.
Proof.
  intros Hnet Hok Hj Hrun Hsent.
  destruct (fetchPresignedUrls_fetched _ _ _ _ _ _ _ Hnet Hok Hj Hrun Hsent)
    as [pathsToFetch Hs'].
  rewrite fetchPresignedUrls_run in Hrun. cbv zeta in Hrun.
  destruct (length paths =? 0)%nat; [discriminate|].
  destruct (length (filter (fun p => truthy (Some p) = true) paths) =? 0)%nat;
    [discriminate|].
  destruct (length (if isCacheValid s then _ else _) =? 0)%nat.
  { injection Hrun as _ <-. congruence. }
  destruct (proxyRequest net "/presign-batch" _ s) as [[e|response'] s1]; [discriminate|].
  pose proof (f_equal fst Hrun) as Hresult. pose proof (f_equal snd Hrun) as Hs2.
  cbn [fst snd] in Hresult, Hs2. injection Hresult as <-. intros p.
  assert (json_urls response' ∪ urls (cache s1) = json_urls data ∪ urls (cache s)) as Hmerged.
  { change (urls (cache (updateCache (json_urls response') (json_expiresIn response') s1))
            = json_urls data ∪ urls (cache s)).
    rewrite Hs2, Hs'. reflexivity. }
  rewrite fromCache_lookup, decide_validPaths. cbn [urls]. rewrite Hmerged.
  destruct (decide (p ∈ paths /\ p <> "")); [| reflexivity].
  f_equal. unfold get. rewrite lookup_union.
  destruct (json_urls data !! p), (urls (cache s) !! p); reflexivity.
Qed.

Lemma proxyRequest_guard net endpoint body s :
  ~ (configured s /\ authenticated s) ->
  proxyRequest net endpoint body s =
    (inl (ErrorObj (if truthy (proxyUrl (config s))
                    then "Not authenticated. Call setSessionToken() first."
                    else "Credential proxy not configured. Call configureProxy() first.")),
     s).
Proof.
  unfold configured, authenticated. intros H.
  unfold proxyRequest, bind, gets, throwError, throw.
  destruct (truthy (proxyUrl (config s))); cbn [negb]; [| reflexivity].
  destruct (truthy (sessionToken s)); cbn [negb]; [| reflexivity].
  exfalso. auto.
Qed.

Lemma getPresignedUrl_guard net s path operation contentType :
  path <> "" ->
  (operation = GET -> servedFromCache s path = false) ->
  ~ (configured s /\ authenticated s) ->
  getPresignedUrl net path operation contentType s =
    (inl (ErrorObj (if truthy (proxyUrl (config s))
                    then "Not authenticated. Call setSessionToken() first."
                    else "Credential proxy not configured. Call configureProxy() first.")),
     s).
Proof.
  intros Hp Hmiss Hguard.
  rewrite getPresignedUrl_miss by assumption.
  rewrite proxyRequest_guard by assumption. reflexivity.
Qed.

(** X4. A call that needs the proxy while the proxy URL or the session token
    is missing fails with the matching message, the missing proxy URL
    first, and neither sends anything nor changes the state. *)
Theorem getPresignedUrl_needs_proxy_and_token net s path operation contentType :
  path <> "" ->
  (operation = GET -> servedFromCache s path = false) ->
  ~ (configured s /\ authenticated s) ->
  getPresignedUrl net path operation contentType s =
    (inl (ErrorObj (if truthy (proxyUrl (config s))
                    then "Not authenticated. Call setSessionToken() first."
                    else "Credential proxy not configured. Call configureProxy() first.")),
     s).
Proof. apply getPresignedUrl_guard. Qed.

(** What a cleared cache still answers.  The expiry it is left with is 0,
    which counts as valid while the clock shows a time more than the
    buffer before the epoch: a GET for a path that names a member of
    [Object.prototype] is then answered with that member, token or no
    token. *)
Lemma cleared_cache_before_epoch net path contentType s :
  now s < - REFRESH_BUFFER_MS -> path ∈ Object_prototype ->
  getPresignedUrl net path GET contentType (clearCredentials s)
  = (inr (Member path), clearCredentials s).
Proof.
  intros Hclock Hmember.
  apply getPresignedUrl_inherited; [| exact Hmember | apply lookup_empty].
  unfold isCacheValid. cbn [now cache expiry clearCredentials set_cache set_sessionToken].
  apply Z.ltb_lt. lia.
Qed.

(** X5. After the proxy has turned a call down with 401 or 403, every later
    call for any path and operation fails with "Not authenticated" and
    sends nothing, until a new session token is set: what the denial left
    of the configuration is the proxy URL, not the token or the cache.
    (The clock is taken not to show a time more than the buffer before
    the epoch: the expiry the denial leaves is 0.) *)
Theorem denial_closes_session net s response path operation contentType r s' :
  (net (length (sent s))).2 = Resolved response ->
  denied response = true ->
  getPresignedUrl net path operation contentType s = (r, s') ->
  sent s' <> sent s ->
  forall net' path' operation' contentType' t,
    path' <> "" -> - REFRESH_BUFFER_MS <= t ->
    getPresignedUrl net' path' operation' contentType' (atTime t s')
    = (inl (ErrorObj "Not authenticated. Call setSessionToken() first."), atTime t s').
Proof.
  intros Hnet Hdenied Hrun Hsent net' path' operation' contentType' t Hp' Ht.
  destruct (getPresignedUrl_sent _ _ _ _ _ _ _ Hrun Hsent) as [Hp Hmiss].
  rewrite getPresignedUrl_miss in Hrun by assumption.
  destruct (proxyRequest net "/presign" _ s) as [res s1] eqn:Hreq.
  assert (sent s1 <> sent s) as Hsent1.
  { destruct res; injection Hrun as _ <-; [assumption|].
    destruct (Operation_eqb operation GET); assumption. }
  destruct (proxyRequest_sent _ _ _ _ _ _ Hreq Hsent1) as [Hc Ha].
  rewrite (proxyRequest_denied _ _ _ _ _ Hc Ha Hnet Hdenied) in Hreq.
  injection Hreq as <- <-. injection Hrun as _ <-.
  rewrite getPresignedUrl_guard.
  - cbn. unfold configured in Hc. rewrite Hc. reflexivity.
  - assumption.
  - intros _. unfold servedFromCache, isCacheValid. cbn [atTime now cache expiry
      clearCredentials set_cache].
    destruct (Z.ltb_spec (t + REFRESH_BUFFER_MS) 0); [lia | reflexivity].
  - unfold authenticated. cbn. intros [_ [=]].
Qed.

(** X6. Only a 401 or 403 costs the credentials.  When a call fails for any
    other reason (another status, a network error, a body that is not
    JSON, a missing path) the proxy configuration, the session token and
    the cache are what they were. *)
Theorem failure_without_denial_keeps_credentials net s path operation contentType e s' :
  deniedAnswer (net (length (sent s))).2 = false ->
  getPresignedUrl net path operation contentType s = (inl e, s') ->
  config s' = config s /\ sessionToken s' = sessionToken s /\ cache s' = cache s.
Proof.
  intros Hd Hrun.
  destruct (String.eqb_spec path "") as [->|Hp].
  { unfold getPresignedUrl, throwError, throw in Hrun. cbn in Hrun.
    injection Hrun as _ <-. done. }
  destruct (servedFromCache s path && Operation_eqb operation GET) eqn:Hserved.
  - apply andb_true_iff in Hserved as [Hserved Hop].
    destruct operation; try discriminate.
    destruct (getPresignedUrl_served net path contentType s Hp Hserved) as (v & _ & Hhit).
    rewrite Hhit in Hrun. discriminate.
  - rewrite getPresignedUrl_miss in Hrun.
    2: assumption.
    2: { intros ->. rewrite andb_true_r in Hserved. exact Hserved. }
    destruct (proxyRequest net "/presign" _ s) as [res s1] eqn:Hreq.
    destruct res as [e1|response]; [|discriminate].
    injection Hrun as _ <-.
    destruct (truthy (proxyUrl (config s))) eqn:Hc, (truthy (sessionToken s)) eqn:Ha.
    1: { destruct (proxyRequest_after _ _ _ _ _ _ Hc Ha Hreq) as [_ Hstate].
         rewrite Hd in Hstate. subst s1. done. }
    all: rewrite proxyRequest_guard in Hreq
           by (unfold configured, authenticated; intros [? ?]; congruence);
         injection Hreq as _ <-; done.
Qed.

(** [clearCredentials] leaves an empty cache that reports size 0, expiry
    0 and 0 seconds left, whatever was there before; it keeps the proxy
    configuration, and doing it twice changes nothing more. *)
Lemma clearCredentials_resets s :
  0 <= now s ->
  getCacheState (clearCredentials s) = mkCacheState 0 0 0 /\
  sessionToken (clearCredentials s) = None /\
  config (clearCredentials s) = config s /\
  clearCredentials (clearCredentials s) = clearCredentials s.
Proof.
  intros Hnow. split; [| done].
  unfold getCacheState, clearCredentials. cbn. rewrite map_size_empty. f_equal.
  assert ((0 - now s) / 1000 <= 0) by (apply Z.div_le_upper_bound; lia).
  lia.
Qed.

(** X7. Once the proxy is configured and a session token is set, a PUT or
    DELETE for a path sends exactly one POST to [proxyUrl/presign] with
    the token as bearer, the storage provider and the path; the content
    type goes along for a PUT only. *)
Theorem configured_session_signs net s0 proxy storage token path operation contentType :
  proxy <> "" -> storage <> "" -> token <> "" -> path <> "" -> operation <> GET ->
  exists s1 s2,
    configureProxy (mkConfig (Some proxy) (Some storage)) s0 = (inr tt, s1) /\
    setSessionToken (Some token) s1 = (inr tt, s2) /\
    sent (getPresignedUrl net path operation contentType s2).2
    = sent s0 ++ [mkRequest (proxy +:+ "/presign") ("Bearer " +:+ token) (Some storage)
                    (PresignBody operation path
                       (if Operation_eqb operation PUT then Some contentType else None))].
Proof.
  intros Hproxy Hstorage Htoken Hpath Hop.
  assert (forall x, x <> "" -> truthy (Some x) = true /\ or_else (Some x) "" = x) as Hnonempty.
  { intros x Hx. unfold truthy, or_else. destruct (String.eqb_spec x ""); done. }
  destruct (Hnonempty _ Hproxy) as [Htp Hop'], (Hnonempty _ Hstorage) as [Hts _],
    (Hnonempty _ Htoken) as [Htt Hot].
  eexists _, _. split; [| split].
  - unfold configureProxy. cbn [proxyUrl provider]. rewrite Htp, Hts. reflexivity.
  - unfold setSessionToken. rewrite Htt. reflexivity.
  - destruct (getPresignedUrl net path operation contentType _) as [r s3] eqn:Hrun.
    rewrite getPresignedUrl_miss in Hrun by (assumption || congruence).
    destruct (proxyRequest net "/presign" _ _) as [res s'] eqn:Hreq.
    assert (Operation_eqb operation GET = false) as Hnot
      by (destruct operation; cbn; congruence).
    rewrite Hnot in Hrun.
    assert (s3 = s') as -> by (destruct res; injection Hrun as _ <-; reflexivity).
    apply proxyRequest_after in Hreq as [Hsent _]; [| exact Htp | exact Htt].
    cbn [snd]. rewrite Hsent. unfold request_of.
    cbn [sent config sessionToken proxyUrl provider set_sessionToken set_config].
    rewrite Hop', Hot. reflexivity.
Qed.

(** The seconds [getCacheState] reports are never negative, and are at
    least 60 whenever the cache still counts as valid. *)
Lemma getCacheState_expiresIn s :
  0 <= cs_expiresIn (getCacheState s) /\
  (isCacheValid s = true -> 60 <= cs_expiresIn (getCacheState s)).
Proof.
  unfold getCacheState, isCacheValid, REFRESH_BUFFER_MS. cbn. split; [lia|].
  intros Hvalid. apply Z.ltb_lt in Hvalid.
  assert (60 <= (expiry (cache s) - now s) / 1000) by (apply Z.div_le_lower_bound; lia).
  lia.
Qed.

End CredentialsMore.

(** ** The token exchange *)

Section TokenExchangeFacts.
Import Js TokenExchange.

(** A provider other than [github] or [gitlab] is refused before anything
    is sent, whatever the proxy URL; a missing OAuth token is reported
    first. *)
Lemma exchangeToken_validates_first net args log :
  is_provider (provider args) = false ->
  exchangeToken net args log =
    (inl (ErrorObj (if truthy (oauthToken args) then provider_message
                    else "Valid OAuth token is required")), log).
Proof.
  intros Hp. unfold exchangeToken.
  destruct (truthy (oauthToken args)); cbn [negb]; [| reflexivity].
  rewrite Hp. cbn [negb]. rewrite orb_true_r. reflexivity.
Qed.

(** X8. With valid arguments exactly one request goes to
    [proxyURL/token-exchange], carrying the OAuth token and the provider.
    When the proxy answers it with a session token and a user, these are
    returned with the lifetime the proxy gave, or 900 seconds when it gave
    none or gave 0: the lifetime returned is never 0.  An answer without
    a session token or without a user is an error. *)
Theorem exchangeToken_answered net token prov proxy log response data :
  token <> "" -> (prov = "github" \/ prov = "gitlab") -> proxy <> "" ->
  net (length log) = Resolved response -> ok response = true ->
  json response = inr data ->
  exists outcome,
    exchangeToken net (mkArgs (Some token) (Some prov) (Some proxy)) log
    = (outcome, log ++ [mkRequest (proxy +:+ "/token-exchange") token prov]) /\
    match json_user data with
    | Some u =>
        if truthy (json_sessionToken data) then
          exists lifetime,
            outcome = inr (mkExchanged (or_else (json_sessionToken data) "") u lifetime) /\
            lifetime <> 0 /\
            (forall n, json_expiresIn data = Some n -> n <> 0 -> lifetime = n) /\
            (json_expiresIn data = Some 0 -> lifetime = 900) /\
            (json_expiresIn data = None -> lifetime = 900)
        else
          outcome = inl (ErrorObj
            "Invalid response from credential proxy: missing sessionToken or user")
    | None =>
        outcome = inl (ErrorObj
          "Invalid response from credential proxy: missing sessionToken or user")
    end.
Proof.
  intros Htoken Hprov Hproxy Hnet Hok Hj.
  assert (forall x, x <> "" -> truthy (Some x) = true /\ or_else (Some x) "" = x) as Hnonempty.
  { intros x Hx. unfold truthy, or_else. destruct (String.eqb_spec x ""); done. }
  destruct (Hnonempty _ Htoken) as [Htt Hot], (Hnonempty _ Hproxy) as [Htp Hop].
  assert (truthy (Some prov) = true /\ or_else (Some prov) "" = prov /\
          is_provider (Some prov) = true) as (Htv & Hov & Hiv).
  { destruct Hprov as [-> | ->]; done. }
  unfold exchangeToken. cbn [oauthToken provider proxyURL].
  rewrite Htt, Htv, Hiv, Htp, Hot, Hov, Hop. cbn [negb orb].
  unfold try_catch, bind, fetch. rewrite Hnet, Hok, Hj. cbn [negb].
  destruct (json_user data) as [u|].
  - destruct (truthy (json_sessionToken data)).
    + eexists. split; [reflexivity|]. eexists. split; [reflexivity|].
      unfold expiresIn_or_default, DEFAULT_PRESIGN_EXPIRY.
      destruct (json_expiresIn data) as [n|].
      * destruct (Z.eqb_spec n 0) as [->|Hn].
        -- split; [done|]. split; [intros m [= <-] Hm; congruence|].
           split; [reflexivity | discriminate].
        -- split; [assumption|]. split; [intros m [= <-] _; reflexivity|].
           split; [intros [= ->]; congruence | discriminate].
      * split; [done|]. split; [discriminate|]. split; [discriminate | reflexivity].
    + eexists. split; reflexivity.
  - eexists. split; reflexivity.
Qed.

End TokenExchangeFacts.

(** ** Storage paths, continued *)

Section PathFacts.
Import Js Repository.

Lemma collapse_slashes_fixed s :
  has_double_slash s = false -> collapse_slashes s = s.
Proof.
  induction s as [|c rest IH]; [reflexivity|].
  cbn [has_double_slash collapse_slashes]. intros H.
  apply orb_false_iff in H as [Hhere Hrest].
  destruct rest as [|c' rest']; [reflexivity|].
  cbn [starts_with_slash] in Hhere. rewrite Hhere, (IH Hrest). reflexivity.
Qed.

Lemma starts_with_slash_app a b :
  starts_with_slash (a +:+ b)
  = match a with EmptyString => starts_with_slash b | _ => starts_with_slash a end.
Proof. destruct a; reflexivity. Qed.

Lemma endsWith_slash_cons c s :
  Files.ends_with_slash (String c s)
  = match s with EmptyString => Ascii.eqb c "/" | _ => Files.ends_with_slash s end.
Proof.
  unfold Files.ends_with_slash, Commits.endsWith.
  destruct s as [|c' s']; [cbn; destruct (Ascii.eqb_spec c "/"); subst; reflexivity|].
  change (String.length (String c (String c' s'))) with (S (String.length (String c' s'))).
  change (String.length "/") with 1%nat.
  cbn [Nat.leb]. replace (S (String.length (String c' s')) - 1)%nat
    with (S (String.length (String c' s') - 1)) by (cbn; lia).
  cbn [substring]. reflexivity.
Qed.

Lemma has_double_slash_app a b :
  has_double_slash (a +:+ b)
  = has_double_slash a || (Files.ends_with_slash a && starts_with_slash b)
    || has_double_slash b.
Proof.
  induction a as [|c rest IH]; [reflexivity|].
  change (String c rest +:+ b) with (String c (rest +:+ b)).
  cbn [has_double_slash]. rewrite IH, starts_with_slash_app, endsWith_slash_cons.
  destruct rest as [|c' rest'].
  - cbn. destruct (Ascii.eqb c "/"), (starts_with_slash b), (has_double_slash b); reflexivity.
  - destruct (Ascii.eqb c "/" && starts_with_slash (String c' rest')),
      (has_double_slash (String c' rest')),
      (Files.ends_with_slash (String c' rest') && starts_with_slash b),
      (has_double_slash b); reflexivity.
Qed.

Lemma collapse_slashes_cons c c' rest :
  collapse_slashes (String c (String c' rest))
  = if Ascii.eqb c "/" && Ascii.eqb c' "/" then collapse_slashes (String c' rest)
    else String c (collapse_slashes (String c' rest)).
Proof. reflexivity. Qed.

(** A separator that follows one, at the seam of [a] and [b], is
    dropped. *)
Lemma collapse_slashes_seam a b :
  has_double_slash a = false -> Files.ends_with_slash a = true ->
  has_double_slash b = false -> starts_with_slash b = false ->
  collapse_slashes (a +:+ String "/" b) = a +:+ b.
Proof.
  intros Ha Hend Hb Hstart.
  induction a as [|c rest IH]; [discriminate|].
  rewrite endsWith_slash_cons in Hend.
  cbn [has_double_slash] in Ha. apply orb_false_iff in Ha as [Hhere Hrest].
  change (String c rest +:+ String "/" b) with (String c (rest +:+ String "/" b)).
  destruct rest as [|c' rest'].
  - apply Ascii.eqb_eq in Hend. subst c.
    change (EmptyString +:+ String "/" b) with (String "/" b).
    rewrite collapse_slashes_cons. cbn [andb Ascii.eqb Bool.eqb].
    change (String "/" EmptyString +:+ b) with (String "/" b).
    apply collapse_slashes_fixed. cbn [has_double_slash]. rewrite Hstart, Hb. reflexivity.
  - change (String c' rest' +:+ String "/" b) with (String c' (rest' +:+ String "/" b)).
    rewrite collapse_slashes_cons. cbn [starts_with_slash] in Hhere. rewrite Hhere.
    change (String c' (rest' +:+ String "/" b)) with (String c' rest' +:+ String "/" b).
    rewrite (IH Hrest Hend). reflexivity.
Qed.

Lemma string_length_app a b :
  String.length (a +:+ b) = (String.length a + String.length b)%nat.
Proof.
  induction a as [|c a IH]; [reflexivity|].
  change (S (String.length (a +:+ b)) = S (String.length a + String.length b)).
  rewrite IH. reflexivity.
Qed.

Lemma filter_Boolean_cons p parts :
  filter_Boolean (p :: parts)
  = if String.eqb p "" then filter_Boolean parts else p :: filter_Boolean parts.
Proof. unfold filter_Boolean. cbn. destruct (String.eqb p ""); reflexivity. Qed.

(** X9. Components that are not empty and have no separator at either end or
    doubled inside come out joined by single separators, unchanged
    themselves. *)
Theorem getFullStoragePath_joins_clean r relativePath :
  Files.clean (pathPrefix r) -> Files.clean (dataPath r) -> Files.clean relativePath ->
  getFullStoragePath r relativePath
  = pathPrefix r +:+ "/" +:+ dataPath r +:+ "/" +:+ relativePath.
Proof.
  intros (Hp & Hpd & Hps & Hpe) (Hd & Hdd & Hds & Hde) (Hr & Hrd & Hrs & Hre).
  unfold getFullStoragePath. rewrite !filter_Boolean_cons.
  apply String.eqb_neq in Hp, Hd, Hr. rewrite Hp, Hd, Hr.
  change (filter_Boolean []) with (@nil string).
  change (String.concat "/" [pathPrefix r; dataPath r; relativePath])
    with (pathPrefix r +:+ "/" +:+ dataPath r +:+ "/" +:+ relativePath).
  apply collapse_slashes_fixed.
  assert (forall a b, a <> "" -> has_double_slash a = false -> Files.ends_with_slash a = false ->
                      has_double_slash b = false -> starts_with_slash b = false ->
                      has_double_slash (a +:+ "/" +:+ b) = false /\
                      starts_with_slash (a +:+ "/" +:+ b) = starts_with_slash a) as Hjoin.
  { intros a b Hne Ha Hae Hb Hbs. split.
    - rewrite has_double_slash_app, Ha, Hae.
      change ("/" +:+ b) with (String "/" b). cbn [has_double_slash]. rewrite Hbs, Hb.
      reflexivity.
    - rewrite starts_with_slash_app. destruct a; [congruence | reflexivity]. }
  apply String.eqb_neq in Hp, Hd.
  destruct (Hjoin (dataPath r) relativePath Hd Hdd Hde Hrd Hrs) as [Hinner Hinner_start].
  apply (Hjoin (pathPrefix r)); try assumption. congruence.
Qed.

(** X10. Where a commit writes the two snapshots is where a later load looks
    for them exactly when the data path ends with a separator (the path
    prefix being empty, and the data path not empty and free of doubled
    separators): the load appends the file name to the data path as it
    is. *)
Theorem snapshot_paths_agree r :
  pathPrefix r = "" -> dataPath r <> "" -> has_double_slash (dataPath r) = false ->
  (Files.getDataPaths r
   = (getFullStoragePath r "entries.parquet", getFullStoragePath r "assets.parquet")
   <-> Files.ends_with_slash (dataPath r) = true).
Proof.
  intros Hprefix Hdata Hclean.
  assert (forall name, name <> "" ->
                       has_double_slash name = false -> starts_with_slash name = false ->
                       getFullStoragePath r name
                       = if Files.ends_with_slash (dataPath r) then dataPath r +:+ name
                         else dataPath r +:+ String "/" name) as Hwrite.
  { intros name Hne Hn Hs. unfold getFullStoragePath. rewrite !filter_Boolean_cons, Hprefix.
    apply String.eqb_neq in Hdata, Hne. rewrite Hdata, Hne.
    change (String.concat "/" (dataPath r :: name :: filter_Boolean []))
      with (dataPath r +:+ String "/" name).
    destruct (Files.ends_with_slash (dataPath r)) eqn:Hend.
    - apply collapse_slashes_seam; assumption.
    - apply collapse_slashes_fixed. rewrite has_double_slash_app, Hclean, Hend.
      cbn [has_double_slash]. rewrite Hs, Hn. reflexivity. }
  unfold Files.getDataPaths.
  rewrite (Hwrite "entries.parquet"), (Hwrite "assets.parquet")
    by (reflexivity || discriminate).
  destruct (Files.ends_with_slash (dataPath r)); split; try done.
  intros Heq. exfalso. injection Heq as Heq _.
  apply (f_equal String.length) in Heq. rewrite !string_length_app in Heq. cbn in Heq. lia.
Qed.

End PathFacts.

(** ** Installing the repository *)

Section IndexFacts.
Import Js Index.

Lemma includes_In value l : includes value l = true <-> List.In value l.
Proof.
  unfold includes. rewrite existsb_exists. split.
  - intros (x & Hx & Heq). apply String.eqb_eq in Heq. subst. assumption.
  - intros H. exists value. split; [assumption | apply String.eqb_refl].
Qed.

(** X11. [init] either installs a repository that has passed every check, and
    returns that same object, or returns nothing and leaves the repository
    as it was: there is no partly assigned state.  An installed repository
    has one of the known storage types, providers and asset modes, a
    bucket, a credential proxy and a data path. *)
Theorem init_all_or_nothing backend repository :
  match init backend repository with
  | (Some returned, installed) =>
      installed = returned /\
      Repository.service installed = "duckdb" /\
      List.In (Repository.storageType installed) STORAGE_TYPES /\
      List.In (Repository.storageProvider installed) STORAGE_PROVIDERS /\
      List.In (Repository.assetMode installed) ASSET_MODES /\
      Repository.bucket installed <> "" /\
      Repository.credentialProxy installed <> "" /\
      Repository.dataPath installed <> ""
  | (None, installed) => installed = repository
  end.
Proof.
  unfold init. destruct backend as [backend|]; [|reflexivity].
  destruct (bool_decide (cfg_name backend = Some BACKEND_NAME)); cbn [negb]; [|reflexivity].
  destruct (includes (or_default (cfg_storage_type backend) "parquet") STORAGE_TYPES)
    eqn:Htype; cbn [negb]; [|reflexivity].
  destruct (includes (storageProvider (parseStorageConfig backend)) STORAGE_PROVIDERS)
    eqn:Hprovider; cbn [negb]; [|reflexivity].
  destruct (truthy (Some (bucket (parseStorageConfig backend)))) eqn:Hbucket;
    cbn [negb]; [|reflexivity].
  destruct (truthy (Some (or_default (cfg_credential_proxy backend) ""))) eqn:Hproxy;
    cbn [negb]; [|reflexivity].
  destruct (includes (or_default (cfg_asset_mode backend) "inline") ASSET_MODES)
    eqn:Hmode; cbn [negb]; [|reflexivity].
  apply includes_In in Htype, Hprovider, Hmode.
  apply truthy_Some in Hbucket, Hproxy.
  cbn [Repository.service Repository.storageType Repository.storageProvider
       Repository.assetMode Repository.bucket Repository.credentialProxy
       Repository.dataPath].
  repeat (split; [assumption || reflexivity|]).
  unfold parseStorageConfig. cbn [dataPath]. unfold or_else.
  destruct (cfg_data_path _) as [d|]; [|discriminate].
  destruct (String.eqb_spec d ""); [discriminate | assumption].
Qed.

End IndexFacts.

(** ** Creating, probing and dropping the schema *)

Section SchemaOpsFacts.
Import Js Duck Sql Schema SchemaOps.
Import Catalog CatalogDDL.

Lemma plain_exec_no_faults :
  plain (exec no_faults) = fun s params cat => Catalog.query (fun _ => None) s params cat.
Proof. reflexivity. Qed.

(** What the probe answers on a catalog that turns nothing down. *)
Lemma schemaExists_catalog cat :
  schemaExists (plain (exec no_faults)) cat
  = (inr (bool_decide ("cms" ∈ schemata cat /\
                       ("cms", "entries") ∈ tables cat /\ ("cms", "assets") ∈ tables cat)),
     cat).
Proof.
  rewrite plain_exec_no_faults.
  unfold schemaExists, try_catch, bind, ret.
  rewrite schemata_probe_rows, !length_map.
  destruct (length (List.filter is_cms (elements (schemata cat)))) as [|n] eqn:Hn1;
    cbn [Nat.eqb].
  { apply schemata_count in Hn1. rewrite bool_decide_eq_false_2; [reflexivity | tauto]. }
  assert ("cms" ∈ schemata cat) as Hcms.
  { destruct (decide ("cms" ∈ schemata cat)) as [?|Hnot]; [assumption|].
    apply schemata_count in Hnot. congruence. }
  rewrite tables_probe_rows, !length_map.
  f_equal. f_equal.
  destruct (Nat.eqb_spec (length (List.filter is_cms_table (elements (tables cat)))) 2)
    as [Hlen|Hlen].
  - apply tables_count in Hlen. rewrite bool_decide_eq_true_2; [reflexivity | tauto].
  - rewrite bool_decide_eq_false_2; [reflexivity|].
    intros (_ & He & Ha). apply Hlen, tables_count. tauto.
Qed.

Lemma initializeSchema_run cat :
  initializeSchema (exec no_faults) cat
  = (inr tt, add_table "cms" "assets" (add_table "cms" "entries" (add_schema "cms" cat))).
Proof.
  unfold initializeSchema, run, getEntriesTableSQL, getAssetsTableSQL, try_catch, bind, ret,
    exec, no_faults.
  cbv beta iota.
  rewrite bool_decide_eq_true_2 by (cbn; set_solver). cbv beta iota.
  rewrite bool_decide_eq_true_2 by (cbn; set_solver). reflexivity.
Qed.

(** X12. On a catalog that turns nothing down, [initializeSchema] succeeds from
    any state, [schemaExists] then answers [true], nothing that was in the
    catalog is lost, and a second call changes nothing. *)
Theorem initializeSchema_then_exists cat :
  exists cat',
    initializeSchema (exec no_faults) cat = (inr tt, cat') /\
    schemaExists (plain (exec no_faults)) cat' = (inr true, cat') /\
    schemata cat ⊆ schemata cat' /\ tables cat ⊆ tables cat' /\
    initializeSchema (exec no_faults) cat' = (inr tt, cat').
Proof.
  eexists. split; [apply initializeSchema_run|].
  split; [| split; [| split]].
  - rewrite schemaExists_catalog. rewrite bool_decide_eq_true_2; [reflexivity|].
    cbn. set_solver.
  - cbn. set_solver.
  - cbn. set_solver.
  - rewrite initializeSchema_run. f_equal.
    unfold add_table, add_schema. cbn [schemata tables]. f_equal.
    + set_solver.
    + set_solver.
Qed.

(** X13. A statement turned down part-way is not rolled back: when the
    namespace could be created and the entries table could not,
    [initializeSchema] raises, the namespace stays behind, the assets table
    is not attempted, and the catalog is as complete as it was before. *)
Theorem initializeSchema_no_rollback faults cat e :
  faults (CreateSchema "cms") = None ->
  faults getEntriesTableSQL = Some e ->
  initializeSchema (exec faults) cat
  = (inl (ErrorObj ("Failed to initialize database schema: " +:+ message_of e)),
     add_schema "cms" cat) /\
  (schemaExists (plain (exec no_faults)) (add_schema "cms" cat) = (inr true, add_schema "cms" cat)
   <-> ("cms", "entries") ∈ tables cat /\ ("cms", "assets") ∈ tables cat).
Proof.
  intros H1 H2. split.
  - unfold initializeSchema, run, try_catch, bind, ret, exec, throw.
    rewrite H1, H2. reflexivity.
  - rewrite schemaExists_catalog. cbn [add_schema schemata tables]. split.
    + intros [= Hb]. apply bool_decide_eq_true in Hb. tauto.
    + intros [He Ha]. rewrite bool_decide_eq_true_2; [reflexivity|]. set_solver.
Qed.

(** X14. [dropSchema] undoes [initializeSchema]: afterwards [schemaExists]
    answers [false], from any catalog; the tables of other namespaces stay;
    and [initializeSchema] brings the schema back. *)
Theorem dropSchema_then_missing cat :
  exists cat',
    dropSchema (exec no_faults) cat = (inr tt, cat') /\
    schemaExists (plain (exec no_faults)) cat' = (inr false, cat') /\
    (forall n t, n <> "cms" -> (n, t) ∈ tables cat' <-> (n, t) ∈ tables cat) /\
    (forall n, n <> "cms" -> n ∈ schemata cat' <-> n ∈ schemata cat) /\
    exists cat'',
      initializeSchema (exec no_faults) cat' = (inr tt, cat'') /\
      schemaExists (plain (exec no_faults)) cat'' = (inr true, cat'').
Proof.
  exists (drop_schema "cms" cat). split; [reflexivity|].
  split; [| split; [| split]].
  - rewrite schemaExists_catalog. rewrite bool_decide_eq_false_2; [reflexivity|].
    cbn. set_solver.
  - intros n t Hn. cbn. rewrite elem_of_filter. cbn. tauto.
  - intros n Hn. cbn. set_solver.
  - eexists. split; [apply initializeSchema_run|].
    rewrite schemaExists_catalog. rewrite bool_decide_eq_true_2; [reflexivity|].
    cbn. set_solver.
Qed.

(** [createIndices] depends on the tables: on a catalog that turns nothing
    down it succeeds exactly when both tables are there, changes nothing,
    and so it succeeds after [initializeSchema]. *)
Lemma createIndices_needs_tables cat :
  (exists r, createIndices (exec no_faults) cat = (r, cat)) /\
  (createIndices (exec no_faults) cat = (inr tt, cat) <->
   ("cms", "entries") ∈ tables cat /\ ("cms", "assets") ∈ tables cat).
Proof.
  unfold createIndices, getIndicesSQL, run_each, run, try_catch, bind, ret, throw, exec,
    no_faults.
  cbv beta iota.
  destruct (decide (("cms", "entries") ∈ tables cat)) as [He|He].
  - destruct (decide (("cms", "assets") ∈ tables cat)) as [Ha|Ha].
    + repeat (first [rewrite (bool_decide_eq_true_2 _ He) | rewrite (bool_decide_eq_true_2 _ Ha)];
              cbv beta iota).
      split; [eexists; reflexivity|]. tauto.
    + repeat (first [rewrite (bool_decide_eq_true_2 _ He) | rewrite (bool_decide_eq_false_2 _ Ha)];
              cbv beta iota).
      split; [eexists; reflexivity|].
      split; [discriminate | tauto].
  - rewrite !(bool_decide_eq_false_2 _ He). cbv beta iota. split; [eexists; reflexivity|].
    split; [discriminate | tauto].
Qed.

End SchemaOpsFacts.

(** ** The steps of a commit *)

Section CommitStepsFacts.
Import Js Duck Sql CommitSteps.

Lemma strip_extension_app s ext :
  ext <> "" -> contains is_dot ext = false ->
  strip_extension (s +:+ "." +:+ ext) = s.
Proof.
  intros Hne Hnd. induction s as [|c s IH].
  - change ("" +:+ "." +:+ ext) with (String "." ext).
    cbn [strip_extension is_dot Ascii.eqb Bool.eqb andb].
    rewrite Hnd. destruct ext; [congruence | reflexivity].
  - change (String c s +:+ "." +:+ ext) with (String c (s +:+ "." +:+ ext)).
    cbn [strip_extension]. rewrite IH.
    assert (contains is_dot (s +:+ "." +:+ ext) = true) as ->.
    { clear. induction s as [|c' s IH]; [reflexivity|].
      change (String c' s +:+ "." +:+ ext) with (String c' (s +:+ "." +:+ ext)).
      cbn [contains]. rewrite IH. apply orb_true_r. }
    rewrite andb_false_r. reflexivity.
Qed.

Lemma strip_extension_none s :
  contains is_dot s = false -> strip_extension s = s.
Proof.
  induction s as [|c s IH]; [reflexivity|].
  cbn [contains strip_extension]. intros [Hc Hs]%orb_false_iff.
  rewrite Hc, IH by assumption. reflexivity.
Qed.

Lemma split_not_nil sep s : split sep s <> [].
Proof.
  destruct s as [|c s]; cbn [split]; [discriminate|].
  destruct (sep c); [discriminate|]. destruct (split sep s); discriminate.
Qed.

Lemma split_none sep s : contains sep s = false -> split sep s = [s].
Proof.
  induction s as [|c s IH]; [reflexivity|].
  cbn [contains split]. intros [Hc Hs]%orb_false_iff.
  rewrite Hc, IH by assumption. reflexivity.
Qed.

Lemma split_app sep s c t :
  sep c = true -> split sep (s +:+ String c t) = split sep s ++ split sep t.
Proof.
  intros Hc. induction s as [|c' s IH].
  - change ("" +:+ String c t) with (String c t). cbn [split]. rewrite Hc. reflexivity.
  - change (String c' s +:+ String c t) with (String c' (s +:+ String c t)).
    cbn [split]. rewrite IH. destruct (sep c'); [reflexivity|].
    pose proof (split_not_nil sep s) as Hs.
    destruct (split sep s) as [|seg segs]; [congruence | reflexivity].
Qed.

Lemma pop_app l1 l2 : l2 <> [] -> pop (l1 ++ l2) = pop l2.
Proof.
  intros Hl2. unfold pop. induction l1 as [|x l1 IH]; [reflexivity|].
  cbn [app]. rewrite <- IH. cbn [List.last].
  destruct (l1 ++ l2) eqn:Happ; [| reflexivity].
  apply app_eq_nil in Happ as [_ ->]. congruence.
Qed.

Lemma pop_split_file dir file :
  contains is_slash file = false ->
  pop (split is_slash (dir +:+ "/" +:+ file)) = file /\
  pop (split is_slash file) = file.
Proof.
  intros Hfile. split.
  - change (dir +:+ "/" +:+ file) with (dir +:+ String "/" file).
    rewrite split_app by reflexivity.
    rewrite pop_app by apply split_not_nil.
    rewrite split_none by assumption. reflexivity.
  - rewrite split_none by assumption. reflexivity.
Qed.

Lemma app_string_assoc (a b c : string) : (a +:+ b) +:+ c = a +:+ (b +:+ c).
Proof.
  induction a as [|x a IH]; [reflexivity|].
  change (String x ((a +:+ b) +:+ c) = String x (a +:+ b +:+ c)).
  rewrite IH. reflexivity.
Qed.

(** X15. The slug derived from a path is the file name without its extension:
    what stands between the last slash before the last dot and that dot,
    when something other than a dot follows the dot.  A file without a
    name before the dot gets the empty slug. *)
Theorem slugOfPath_file_name dir name ext :
  contains is_slash name = false -> ext <> "" -> contains is_dot ext = false ->
  slugOfPath (dir +:+ "/" +:+ name +:+ "." +:+ ext) = name /\
  slugOfPath (name +:+ "." +:+ ext) = name.
Proof.
  intros Hname Hne Hnd. unfold slugOfPath.
  assert (forall s, or_else (Some s) "" = s) as Hor.
  { intros s. unfold or_else, truthy. destruct s; reflexivity. }
  rewrite !Hor. split.
  - replace (dir +:+ "/" +:+ name +:+ "." +:+ ext)
      with ((dir +:+ "/" +:+ name) +:+ "." +:+ ext)
      by (rewrite !app_string_assoc; reflexivity).
    rewrite strip_extension_app by assumption.
    apply (pop_split_file dir name Hname).
  - rewrite strip_extension_app by assumption.
    apply (pop_split_file "" name Hname).
Qed.

(** The extension is sought in the whole path, not in the file name: when
    the file name has no dot and a folder has one, the slug is taken from
    the folder, and the file name is lost. *)
Lemma slugOfPath_dotted_folder folder rest file :
  contains is_slash folder = false ->
  contains is_dot rest = false -> contains is_dot file = false ->
  slugOfPath (folder +:+ "." +:+ rest +:+ "/" +:+ file) = folder.
Proof.
  intros Hfolder Hrest Hfile. unfold slugOfPath.
  assert (forall s, or_else (Some s) "" = s) as Hor.
  { intros s. unfold or_else, truthy. destruct s; reflexivity. }
  rewrite Hor.
  rewrite strip_extension_app.
  - apply (pop_split_file "" folder Hfolder).
  - destruct rest; discriminate.
  - clear Hfolder. induction rest as [|c rest IH].
    + exact Hfile.
    + cbn [contains] in Hrest. apply orb_false_iff in Hrest as [Hc Hrest].
      change (String c rest +:+ "/" +:+ file) with (String c (rest +:+ "/" +:+ file)).
      cbn [contains]. rewrite Hc, IH by assumption. reflexivity.
Qed.

(** A path without any dot keeps its last segment as the slug. *)
Lemma slugOfPath_no_extension dir file :
  contains is_dot dir = false -> contains is_dot file = false ->
  contains is_slash file = false ->
  slugOfPath (dir +:+ "/" +:+ file) = file.
Proof.
  intros Hdir Hfile Hslash. unfold slugOfPath.
  assert (forall s, or_else (Some s) "" = s) as Hor.
  { intros s. unfold or_else, truthy. destruct s; reflexivity. }
  rewrite Hor, strip_extension_none.
  - apply (pop_split_file dir file Hslash).
  - induction dir as [|c dir IH].
    + exact Hfile.
    + cbn [contains] in Hdir. apply orb_false_iff in Hdir as [Hc Hdir].
      change (String c dir +:+ "/" +:+ file) with (String c (dir +:+ "/" +:+ file)).
      cbn [contains]. rewrite Hc, IH by assumption. reflexivity.
Qed.

Lemma collapse_slashes_nonempty s : s <> "" -> Repository.collapse_slashes s <> "".
Proof.
  induction s as [|c rest IH]; [congruence|]. intros _.
  destruct rest as [|c' rest']; [discriminate|].
  rewrite collapse_slashes_cons.
  destruct (Ascii.eqb c "/" && Ascii.eqb c' "/"); [apply IH|]; discriminate.
Qed.

Lemma getFullStoragePath_nonempty r relativePath :
  relativePath <> "" -> Repository.getFullStoragePath r relativePath <> "".
Proof.
  intros Hne. unfold Repository.getFullStoragePath.
  apply collapse_slashes_nonempty.
  rewrite !filter_Boolean_cons. unfold Repository.filter_Boolean. cbn [List.filter].
  destruct (String.eqb_spec relativePath "") as [|_]; [contradiction|].
  destruct relativePath as [|x rel]; [contradiction|].
  destruct (String.eqb_spec (Repository.pathPrefix r) "") as [_|Hp];
    destruct (String.eqb_spec (Repository.dataPath r) "") as [_|Hd];
    cbn [String.concat].
  - discriminate.
  - destruct (Repository.dataPath r); [contradiction | discriminate].
  - destruct (Repository.pathPrefix r); [contradiction | discriminate].
  - destruct (Repository.pathPrefix r); [contradiction | discriminate].
Qed.

Lemma or_else_Some_nonempty s d : s <> "" -> or_else (Some s) d = s.
Proof. intros Hs. unfold or_else, truthy. destruct s; [contradiction | reflexivity]. Qed.

(** X16. Where the bytes of a new or changed asset go, in a world that takes
    everything.  One INSERT is sent in every case.  In [inline] mode
    content of at most 5 MiB goes into the row; in [external] mode content
    over 5 MiB is put into the store first, under the storage path that
    the row then refers to.  In every other case (inline mode and larger
    content, external mode and smaller content, another mode) nothing is
    uploaded and nothing is bound: the row refers to [blobURL], or else to
    the path, and the bytes are in neither place. *)
Theorem processAssetChanges_where_bytes_go extension repository act p a d w :
  act = "create" \/ act = "update" ->
  has_data (Some d) = true ->
  exists values params ups,
    processAssetChanges Ledger.conn_query Ledger.getPresignedUrl Ledger.fetch_PUT
      extension repository [mkFileChange act p (Some d) (Some a)] w
    = (inr tt,
       Ledger.mkLedger
         (Ledger.statements w
          ++ [(Plain (Insert "cms.assets" Assets.assets_columns values), params)])
         (Ledger.uploads w ++ ups)) /\
    ((Repository.assetMode repository = "inline" /\
      Z.of_nat (length (content_of d)) <= 5 * 1024 * 1024 /\
      ups = [] /\
      Assets.storesInline (content_of d)
        (Insert "cms.assets" Assets.assets_columns values) params)
     \/
     (Repository.assetMode repository = "external" /\
      5 * 1024 * 1024 < Z.of_nat (length (content_of d)) /\
      ups = [(Repository.getFullStoragePath repository ("assets/" +:+ Assets.path a),
              content_of d, upload_mimeType a)] /\
      Assets.storesExternal
        (Repository.getFullStoragePath repository ("assets/" +:+ Assets.path a))
        (Insert "cms.assets" Assets.assets_columns values) params)
     \/
     (~ (Repository.assetMode repository = "inline" /\
         Z.of_nat (length (content_of d)) <= 5 * 1024 * 1024) /\
      ~ (Repository.assetMode repository = "external" /\
         5 * 1024 * 1024 < Z.of_nat (length (content_of d))) /\
      ups = [] /\
      Assets.storesExternal (or_else (Assets.blobURL a) (Assets.path a))
        (Insert "cms.assets" Assets.assets_columns values) params)).
Proof.
  intros Hact Hdata.
  assert (String.eqb act "delete" = false /\
          String.eqb act "create" || String.eqb act "update" = true) as [Hd Hcu].
  { destruct Hact as [-> | ->]; split; reflexivity. }
  unfold processAssetChanges. cbn [length Nat.eqb for_each].
  unfold processAssetChange.
  cbn [action asset data]. rewrite Hd, Hcu, Hdata.
  destruct (String.eqb_spec (Repository.assetMode repository) "external") as [Hext|Hext];
    destruct (Z.ltb_spec (5 * 1024 * 1024) (Z.of_nat (length (content_of d)))) as [Hbig|Hbig];
    cbn [andb].
  - (* external, large: upload, then a row that refers to the upload *)
    assert (Assets.useInline (Repository.assetMode repository) (Some (content_of d))
              Assets.DEFAULT_INLINE_THRESHOLD = None) as Huse.
    { unfold Assets.useInline. rewrite Hext. reflexivity. }
    unfold Assets.insertAsset. rewrite Huse.
    eexists _, _, _. split; [reflexivity|].
    right. left. split; [assumption|]. split; [lia|]. split; [reflexivity|].
    unfold Assets.storesExternal. cbn [Assets.blobURL set_blobURL].
    rewrite or_else_Some_nonempty by (apply getFullStoragePath_nonempty; discriminate).
    done.
  - (* external, small: no upload, a row that refers to something else *)
    assert (Assets.useInline (Repository.assetMode repository) (Some (content_of d))
              Assets.DEFAULT_INLINE_THRESHOLD = None) as Huse.
    { unfold Assets.useInline. rewrite Hext. reflexivity. }
    unfold Assets.insertAsset. rewrite Huse.
    eexists _, _, []. split; [rewrite app_nil_r; reflexivity|].
    right. right. split; [| split; [| split]].
    + intros [Hin _]. congruence.
    + intros [_ ?]. lia.
    + reflexivity.
    + done.
  - (* another mode, large *)
    assert (Assets.useInline (Repository.assetMode repository) (Some (content_of d))
              Assets.DEFAULT_INLINE_THRESHOLD = None) as Huse.
    { apply useInline_None. intros (_ & b & [= <-] & Hle).
      unfold Assets.DEFAULT_INLINE_THRESHOLD in Hle. lia. }
    unfold Assets.insertAsset. rewrite Huse.
    eexists _, _, []. split; [rewrite app_nil_r; reflexivity|].
    right. right. split; [| split; [| split]].
    + intros [_ ?]. lia.
    + intros [? _]. congruence.
    + reflexivity.
    + done.
  - (* another mode, small: inline exactly when the mode is [inline] *)
    destruct (String.eqb_spec (Repository.assetMode repository) "inline") as [Hin|Hin].
    + assert (Assets.useInline (Repository.assetMode repository) (Some (content_of d))
                Assets.DEFAULT_INLINE_THRESHOLD = Some (content_of d)) as Huse.
      { apply useInline_Some. unfold Assets.DEFAULT_INLINE_THRESHOLD. done. }
      unfold Assets.insertAsset. rewrite Huse.
      eexists _, _, []. split; [rewrite app_nil_r; reflexivity|].
      left. done.
    + assert (Assets.useInline (Repository.assetMode repository) (Some (content_of d))
                Assets.DEFAULT_INLINE_THRESHOLD = None) as Huse.
      { apply useInline_None. intros (? & _). congruence. }
      unfold Assets.insertAsset. rewrite Huse.
      eexists _, _, []. split; [rewrite app_nil_r; reflexivity|].
      right. right. split; [| split; [| split]].
      * intros [? _]. congruence.
      * intros [? _]. congruence.
      * reflexivity.
      * done.
Qed.


(** A failed upload ends the run: the failure is passed on under the name
    of the change, the asset is not inserted, and no later change is
    looked at. *)
Lemma upload_failure_aborts {W} (conn_query : Exec W)
    (getPresignedUrl : string -> Credentials.Operation -> string -> M W string)
    (fetch_PUT : string -> Bytes -> string -> M W Credentials.Response)
    extension repository act p a d rest w e w1 :
  act = "create" \/ act = "update" ->
  has_data (Some d) = true ->
  Repository.assetMode repository = "external" ->
  5 * 1024 * 1024 < Z.of_nat (length (content_of d)) ->
  uploadExternalAsset getPresignedUrl fetch_PUT
    (Repository.getFullStoragePath repository ("assets/" +:+ Assets.path a))
    (content_of d) (upload_mimeType a) w = (inl e, w1) ->
  processAssetChanges conn_query getPresignedUrl fetch_PUT extension repository
    (mkFileChange act p (Some d) (Some a) :: rest) w
  = (inl (ErrorObj ("Failed to process asset change (" +:+ act +:+ " "
                    +:+ or_else (Some (Assets.path a)) p +:+ "): " +:+ describe e)),
     w1).
Proof.
  intros Hact Hdata Hext Hbig Hup.
  assert (String.eqb act "delete" = false /\
          String.eqb act "create" || String.eqb act "update" = true) as [Hd Hcu].
  { destruct Hact as [-> | ->]; split; reflexivity. }
  unfold processAssetChanges. cbn [length Nat.eqb for_each].
  unfold processAssetChange, named_path.
  cbn [action asset data path]. rewrite Hd, Hcu, Hdata, Hext.
  cbn [String.eqb Ascii.eqb Bool.eqb andb].
  apply Z.ltb_lt in Hbig. rewrite Hbig.
  unfold try_catch, bind, throw. rewrite Hup. reflexivity.
Qed.

End CommitStepsFacts.

(** ** Rows of the assets table *)

Section AssetsTableFacts.
Import Js Duck Sql Assets AssetOps AssetsTable.

Variable extension : string -> option string.

(** The messages of the engine, whatever they are. *)
Variable complaint : Fault -> string.

Lemma fresh_no_duplicate id t :
  fresh id t -> existsb (fun i => String.eqb id i) (ids t) = false.
Proof.
  intros Hfresh. apply not_true_is_false. intros Hex.
  apply existsb_exists in Hex as (i & Hi & Hhas).
  apply String.eqb_eq in Hhas as <-.
  apply list_elem_of_In in Hi. unfold ids in Hi.
  apply list_elem_of_omap in Hi as (r & Hr & Hf).
  specialize (Hfresh r Hr). unfold has_id, has_value in Hfresh.
  rewrite Hf, String.eqb_refl in Hfresh. discriminate.
Qed.

Lemma no_id_filter id (l : list Row) :
  (forall row, row ∈ l -> has_id id row = false) ->
  List.filter (Catalog.holds (WhereEq "id" id)) l = [].
Proof.
  induction l as [|r l IH]; [reflexivity|]. intros H.
  cbn [List.filter].
  change (Catalog.holds (WhereEq "id" id) r) with (has_id id r).
  rewrite (H r) by apply list_elem_of_here.
  apply IH. intros row Hrow. apply H, list_elem_of_further, Hrow.
Qed.

(** Selecting by a key that was fresh before a row with it was added
    yields that row alone. *)
Lemma select_added id t row columns params :
  fresh id t -> Catalog.field "id" row = Some id ->
  exec complaint (Plain (Select columns "cms.assets" (WhereEq "id" id))) params
       (mkTable (rows t ++ [row]) (clock t))
  = (inr [Catalog.project columns row], mkTable (rows t ++ [row]) (clock t)).
Proof.
  intros Hfresh Hid. unfold exec. cbn [String.eqb Ascii.eqb Bool.eqb negb rows].
  rewrite List.filter_app, (no_id_filter _ _ Hfresh). cbn [List.filter app].
  change (Catalog.holds (WhereEq "id" id) row) with (has_id id row).
  unfold has_id, has_value. rewrite Hid, String.eqb_refl. reflexivity.
Qed.

(** An insert by reference adds its row. *)
Lemma insertAsset_external repository asset content threshold t :
  useInline (Repository.assetMode repository) content threshold = None ->
  fresh (sha asset) t ->
  insertAsset (plain (exec complaint)) extension repository asset content threshold t
  = (inr tt,
     mkTable
       (rows t ++
        [external_row (String_of (getMimeTypeFromPath extension (path asset))) asset
           (clock t)])
       (clock t)).
Proof.
  intros Huse Hfresh. unfold insertAsset. rewrite Huse.
  unfold try_catch, bind, ret, plain, exec.
  cbn -[pretty fresh existsb].
  rewrite (fresh_no_duplicate (sha asset) t) by assumption.
  reflexivity.
Qed.

(** An insert of bytes carries a placeholder, for which the engine has no
    value: it is turned down whatever the table holds. *)
Lemma insertAsset_inline repository asset content threshold bytes t :
  useInline (Repository.assetMode repository) content threshold = Some bytes ->
  insertAsset (plain (exec complaint)) extension repository asset content threshold t
  = (inl (ErrorObj ("Failed to insert asset: " +:+ complaint UnboundParameter)), t).
Proof.
  intros Huse. unfold insertAsset. rewrite Huse. reflexivity.
Qed.

Lemma fetch_missing id t :
  fresh id t ->
  fetchAssetContent (exec complaint) id t
  = (inl (ErrorObj ("Failed to fetch asset content: Asset not found: " +:+ id)), t).
Proof.
  intros Hfresh. unfold fetchAssetContent, try_catch, bind, ret, throw, exec.
  cbn [String.eqb Ascii.eqb Bool.eqb negb].
  rewrite (no_id_filter _ _ Hfresh). reflexivity.
Qed.

Lemma fetch_added id t row :
  fresh id t -> Catalog.field "id" row = Some id ->
  fetchAssetContent (exec complaint) id (mkTable (rows t ++ [row]) (clock t))
  = (inr (mkAssetContent
            (match Catalog.field "content"
                     (Catalog.project ["content"; "storage_url"; "storage_mode"] row) with
             | Some blob => Some (bytes_of_string blob)
             | None => None
             end)
            (or_null (Catalog.field "storage_url"
                        (Catalog.project ["content"; "storage_url"; "storage_mode"] row)))
            (or_else (Catalog.field "storage_mode"
                        (Catalog.project ["content"; "storage_url"; "storage_mode"] row))
                     "external")),
     mkTable (rows t ++ [row]) (clock t)).
Proof.
  intros Hfresh Hid. unfold fetchAssetContent, try_catch, bind, ret.
  rewrite (select_added id t row _ _ Hfresh Hid). reflexivity.
Qed.

Lemma insert_then_content repository asset content threshold t :
  useInline (Repository.assetMode repository) content threshold = None ->
  fresh (sha asset) t ->
  exists t',
    insertAsset (plain (exec complaint)) extension repository asset content threshold t
    = (inr tt, t') /\
    fetchAssetContent (exec complaint) (sha asset) t'
    = (inr (mkAssetContent None (or_null (Some (or_else (blobURL asset) (path asset))))
                           "external"), t').
Proof.
  intros Huse Hfresh. eexists. split.
  - apply insertAsset_external; assumption.
  - rewrite (fetch_added _ _ _ Hfresh); reflexivity.
Qed.

(** X17. Insert, then look up, on the table [initializeAssetsTable]
    declares and for an asset whose fields are plain text.  An insert by
    reference under a key that the table did not have is found again by
    [fetchAssetContent] under its sha, with the URL and no bytes (no URL
    either when the URL recorded is the empty text).  An insert of bytes
    never gets that far: its statement has a placeholder, the connection
    passes no value for it, and [insertAsset] raises with what the engine
    says about that, the table being as it was. *)
Theorem insertAsset_then_fetch repository asset content threshold t :
  fresh (sha asset) t -> storable asset ->
  match useInline (Repository.assetMode repository) content threshold with
  | Some _ =>
      insertAsset (plain (exec complaint)) extension repository asset content threshold t
      = (inl (ErrorObj ("Failed to insert asset: " +:+ complaint UnboundParameter)), t) /\
      fetchAssetContent (exec complaint) (sha asset) t
      = (inl (ErrorObj ("Failed to fetch asset content: Asset not found: " +:+ sha asset)),
         t)
  | None =>
      exists t',
        insertAsset (plain (exec complaint)) extension repository asset content threshold t
        = (inr tt, t') /\
        fetchAssetContent (exec complaint) (sha asset) t'
        = (inr (mkAssetContent None (or_null (Some (or_else (blobURL asset) (path asset))))
                               "external"), t')
  end.
Proof.
  intros Hfresh _.
  destruct (useInline (Repository.assetMode repository) content threshold) as [bytes|]
    eqn:Huse.
  - split; [eapply insertAsset_inline; exact Huse | apply fetch_missing, Hfresh].
  - apply insert_then_content; assumption.
Qed.

Lemma filter_all {A} (p : A -> bool) (l : list A) :
  (forall x, x ∈ l -> p x = true) -> List.filter p l = l.
Proof.
  induction l as [|a l IH]; [reflexivity|]. intros H.
  cbn [List.filter]. rewrite (H a) by apply list_elem_of_here.
  rewrite IH; [reflexivity|]. intros x Hx. apply H, list_elem_of_further, Hx.
Qed.

Lemma keep_others id (l : list Row) :
  (forall row, row ∈ l -> has_id id row = false) ->
  List.filter (fun row => negb (where_holds (Some (WhereEq "id" id)) row)) l = l.
Proof.
  intros H. apply filter_all. intros row Hrow.
  cbn [where_holds].
  change (Catalog.holds (WhereEq "id" id) row) with (has_id id row).
  rewrite (H row Hrow). reflexivity.
Qed.

Lemma map_others id (f : Row -> Row) (l : list Row) :
  (forall row, row ∈ l -> has_id id row = false) ->
  map (fun row => if Catalog.holds (WhereEq "id" id) row then f row else row) l = l.
Proof.
  induction l as [|r l IH]; [reflexivity|]. intros H.
  cbn [map].
  change (Catalog.holds (WhereEq "id" id) r) with (has_id id r).
  rewrite (H r) by apply list_elem_of_here.
  rewrite IH; [reflexivity|]. intros row Hrow. apply H, list_elem_of_further, Hrow.
Qed.

Lemma delete_missing id t :
  fresh id t -> deleteAsset (exec complaint) id t = (inr tt, t).
Proof.
  intros Hfresh. unfold deleteAsset, try_catch, bind, ret, exec.
  cbn [String.eqb Ascii.eqb Bool.eqb negb].
  rewrite (keep_others _ _ Hfresh). destruct t; reflexivity.
Qed.

Lemma delete_added id t row :
  fresh id t -> Catalog.field "id" row = Some id ->
  deleteAsset (exec complaint) id (mkTable (rows t ++ [row]) (clock t)) = (inr tt, t).
Proof.
  intros Hfresh Hid. unfold deleteAsset, try_catch, bind, ret, exec.
  cbn [String.eqb Ascii.eqb Bool.eqb negb rows clock].
  rewrite List.filter_app, (keep_others _ _ Hfresh). cbn [List.filter where_holds].
  change (Catalog.holds (WhereEq "id" id) row) with (has_id id row).
  unfold has_id, has_value. rewrite Hid, String.eqb_refl. cbn [negb].
  rewrite app_nil_r. destruct t; reflexivity.
Qed.

(** X18. Insert, then delete, on the same table and for the same assets.
    [deleteAsset] under the sha removes the row an insert by reference
    added and nothing else: the table is as it was, and a look-up fails
    with [Asset not found]. *)
Theorem insertAsset_then_delete repository asset content threshold t :
  useInline (Repository.assetMode repository) content threshold = None ->
  fresh (sha asset) t -> storable asset ->
  exists t',
    insertAsset (plain (exec complaint)) extension repository asset content threshold t
    = (inr tt, t') /\
    deleteAsset (exec complaint) (sha asset) t' = (inr tt, t) /\
    fetchAssetContent (exec complaint) (sha asset) t
    = (inl (ErrorObj ("Failed to fetch asset content: Asset not found: " +:+ sha asset)), t).
Proof.
  intros Huse Hfresh _.
  eexists. split; [apply insertAsset_external; assumption|]. split.
  - apply delete_added; [assumption | reflexivity].
  - apply fetch_missing, Hfresh.
Qed.

Lemma update_missing id sets params t bs :
  fresh id t ->
  bindings (clock t) sets = Some bs ->
  existsb (fun b => String.eqb b.1 "id") bs = false ->
  exec complaint (Plain (Update "cms.assets" sets (WhereEq "id" id))) params t = (inr [], t).
Proof.
  intros Hfresh Hbs Hkey. unfold exec.
  cbn [String.eqb Ascii.eqb Bool.eqb negb]. rewrite Hbs.
  rewrite (no_id_filter _ _ Hfresh). cbn [map omap]. rewrite Hkey. cbn [andb].
  rewrite (map_others _ _ _ Hfresh). destruct t; reflexivity.
Qed.

(** An update with new bytes carries a placeholder too. *)
Lemma updateAsset_content id updates bytes t :
  updateAsset (plain (exec complaint)) id updates (Some bytes) t
  = (inl (ErrorObj ("Failed to update asset: " +:+ complaint UnboundParameter)), t).
Proof.
  unfold updateAsset, push_if, plain.
  destruct (truthy (upd_name updates)), (truthy (upd_path updates)),
    (upd_size updates) as [n|]; reflexivity.
Qed.

(** X19. A key that is not in the table, the key and the new fields being
    plain text.  [fetchAssetContent] raises; [deleteAsset] succeeds and
    leaves the table as it is, and so does [updateAsset] without content.
    [updateAsset] with content raises, with what the engine says about
    the placeholder that has no value, and leaves the table as it is. *)
Theorem missing_asset id updates content t :
  fresh id t -> is_plain id = true -> spellable updates ->
  fetchAssetContent (exec complaint) id t
  = (inl (ErrorObj ("Failed to fetch asset content: Asset not found: " +:+ id)), t) /\
  deleteAsset (exec complaint) id t = (inr tt, t) /\
  updateAsset (plain (exec complaint)) id updates content t
  = match content with
    | Some _ =>
        (inl (ErrorObj ("Failed to update asset: " +:+ complaint UnboundParameter)), t)
    | None => (inr tt, t)
    end.
Proof.
  intros Hfresh _ _. split; [apply fetch_missing, Hfresh|].
  split; [apply delete_missing, Hfresh|].
  destruct content as [bytes|]; [apply updateAsset_content|].
  unfold updateAsset, push_if, plain.
  destruct (truthy (upd_name updates)), (truthy (upd_path updates)),
    (upd_size updates) as [n|], (truthy (upd_blobURL updates));
    cbn [app length Nat.eqb]; unfold try_catch, bind, ret;
    (erewrite update_missing; [reflexivity | exact Hfresh | reflexivity | reflexivity]).
Qed.

Lemma update_added id sets params t row bs :
  fresh id t -> Catalog.field "id" row = Some id ->
  bindings (clock t) sets = Some bs ->
  existsb (fun b => String.eqb b.1 "id") bs = false ->
  violation (apply_bindings bs row) = None ->
  exec complaint (Plain (Update "cms.assets" sets (WhereEq "id" id))) params
       (mkTable (rows t ++ [row]) (clock t))
  = (inr [], mkTable (rows t ++ [apply_bindings bs row]) (clock t)).
Proof.
  intros Hfresh Hid Hbs Hkey Hok. unfold exec.
  cbn [String.eqb Ascii.eqb Bool.eqb negb rows clock]. rewrite Hbs.
  rewrite List.filter_app, (no_id_filter _ _ Hfresh). cbn [List.filter app].
  change (Catalog.holds (WhereEq "id" id) row) with (has_id id row).
  assert (has_id id row = true) as Hhas.
  { unfold has_id, has_value. rewrite Hid. apply String.eqb_refl. }
  rewrite Hhas. cbn [map omap list_omap]. rewrite Hok, Hkey. cbn [andb].
  rewrite map_app, (map_others _ _ _ Hfresh). cbn [map].
  change (Catalog.holds (WhereEq "id" id) row) with (has_id id row).
  rewrite Hhas. reflexivity.
Qed.

(** X20. Insert by reference, update, then look up, on the same table and
    for plain fields.  [updateAsset] with a new URL and no content (and
    no new path) moves the row to that URL: the look-up yields it, and no
    bytes.  [updateAsset] with new content raises, and the look-up yields
    what was inserted. *)
Theorem updateAsset_then_fetch repository asset content threshold updates content' t :
  useInline (Repository.assetMode repository) content threshold = None ->
  fresh (sha asset) t -> storable asset -> spellable updates ->
  truthy (upd_path updates) = false ->
  (content' = None -> truthy (upd_blobURL updates) = true) ->
  exists t1,
    insertAsset (plain (exec complaint)) extension repository asset content threshold t
    = (inr tt, t1) /\
    match content' with
    | Some _ =>
        updateAsset (plain (exec complaint)) (sha asset) updates content' t1
        = (inl (ErrorObj ("Failed to update asset: " +:+ complaint UnboundParameter)), t1) /\
        fetchAssetContent (exec complaint) (sha asset) t1
        = (inr (mkAssetContent None (or_null (Some (or_else (blobURL asset) (path asset))))
                               "external"), t1)
    | None =>
        exists t2,
          updateAsset (plain (exec complaint)) (sha asset) updates content' t1
          = (inr tt, t2) /\
          fetchAssetContent (exec complaint) (sha asset) t2
          = (inr (mkAssetContent None (upd_blobURL updates) "external"), t2)
    end.
Proof.
  intros Huse Hfresh _ _ Hpath Hurl.
  eexists. split; [apply insertAsset_external; assumption|].
  destruct content' as [bytes'|].
  - split; [apply updateAsset_content|].
    rewrite (fetch_added _ _ _ Hfresh); reflexivity.
  - assert (forall u, truthy u = true -> or_null (Some (or_else u "")) = u) as Hnull.
    { intros [[|c u]|]; try discriminate. reflexivity. }
    unfold updateAsset, push_if, plain.
    rewrite Hpath, (Hurl eq_refl).
    destruct (truthy (upd_name updates)), (upd_size updates) as [n|];
      eexists;
      cbn [app length Nat.eqb]; unfold try_catch, bind, ret;
      (erewrite update_added;
       [ | exact Hfresh | reflexivity | reflexivity | reflexivity | reflexivity ]);
      (split; [reflexivity|]);
      (rewrite fetch_added; [ | exact Hfresh | reflexivity]);
      cbn -[pretty or_null or_else]; rewrite (Hnull _ (Hurl eq_refl)); reflexivity.
Qed.

(** X21. [insertAsset] never overwrites: when the table has a row under
    the sha of the asset, [insertAsset] raises and the table is as it
    was.  What it raises with is what the engine says about the
    placeholder for an insert of bytes, and about the key for an insert
    by reference. *)
Theorem insertAsset_existing_key repository asset content threshold t :
  sha asset ∈ ids t -> storable asset ->
  insertAsset (plain (exec complaint)) extension repository asset content threshold t
  = (inl (ErrorObj
            ("Failed to insert asset: "
             +:+ complaint
                   match useInline (Repository.assetMode repository) content threshold with
                   | Some _ => UnboundParameter
                   | None => DuplicateKey
                   end)),
     t).
Proof.
  intros Hin _.
  assert (existsb (fun i => String.eqb (sha asset) i) (ids t) = true) as Hex.
  { apply existsb_exists. exists (sha asset). split.
    - apply list_elem_of_In, Hin.
    - apply String.eqb_refl. }
  unfold insertAsset.
  destruct (useInline (Repository.assetMode repository) content threshold) as [bytes|];
    unfold try_catch, bind, ret, throw, plain, exec;
    cbn -[pretty existsb String.append]; rewrite ?Hex; reflexivity.
Qed.

End AssetsTableFacts.

(** ** From a commit to the table *)

Section CommitOnTableFacts.
Import Js Duck Sql CommitSteps AssetsTable.

Variable extension : string -> option string.
Variable complaint : Fault -> string.

(** The credential proxy and the object store, whatever they do. *)
Variable getPresignedUrl : string -> Credentials.Operation -> string -> M Table string.
Variable fetch_PUT : string -> Bytes -> string -> M Table Credentials.Response.

(** X30. From a commit to the table [initializeAssetsTable] declares, for
    an asset whose fields are plain text.  In [inline] mode a created or
    updated asset of at most 5 MiB never lands: [processAssetChanges]
    hands its bytes to [insertAsset], whose statement has a placeholder
    for which the connection passes no value, and the commit step raises
    with what the engine says about that, whatever the credential proxy
    and the object store would do; the table is as it was, and a look-up
    under a sha that was not there still finds nothing. *)
Theorem inline_commit_never_lands repository act p a d t :
  Repository.assetMode repository = "inline" ->
  act = "create" \/ act = "update" ->
  has_data (Some d) = true ->
  Z.of_nat (length (content_of d)) <= 5 * 1024 * 1024 ->
  storable a ->
  processAssetChanges (exec complaint) getPresignedUrl fetch_PUT extension repository
    [mkFileChange act p (Some d) (Some a)] t
  = (inl (ErrorObj ("Failed to process asset change (" +:+ act +:+ " "
                    +:+ or_else (Some (Assets.path a)) p
                    +:+ "): Failed to insert asset: " +:+ complaint UnboundParameter)),
     t) /\
  (fresh (Assets.sha a) t ->
   AssetOps.fetchAssetContent (exec complaint) (Assets.sha a) t
   = (inl (ErrorObj ("Failed to fetch asset content: Asset not found: " +:+ Assets.sha a)),
      t)).
Proof.
  intros Hmode Hact Hdata Hsmall _.
  split; [| apply fetch_missing].
  assert (String.eqb act "delete" = false /\
          String.eqb act "create" || String.eqb act "update" = true) as [Hd Hcu].
  { destruct Hact as [-> | ->]; split; reflexivity. }
  assert (Assets.useInline (Repository.assetMode repository) (Some (content_of d))
            Assets.DEFAULT_INLINE_THRESHOLD = Some (content_of d)) as Huse.
  { apply useInline_Some. unfold Assets.DEFAULT_INLINE_THRESHOLD. done. }
  unfold processAssetChanges. cbn [length Nat.eqb for_each].
  unfold processAssetChange.
  cbn [action asset data]. rewrite Hd, Hcu, Hdata, Hmode.
  cbn [String.eqb Ascii.eqb Bool.eqb andb].
  unfold try_catch, bind. unfold ret at 1.
  rewrite (insertAsset_inline extension complaint repository a (Some (content_of d))
             Assets.DEFAULT_INLINE_THRESHOLD (content_of d) t Huse).
  reflexivity.
Qed.

End CommitOnTableFacts.

(** ** The columns of the assets table *)

Section AssetsColumnsFacts.
Import Js Duck Sql Assets.

Variable extension : string -> option string.

Lemma elem_of_decide (c : string) (l : list string) :
  bool_decide (c ∈ l) = true -> c ∈ l.
Proof. apply bool_decide_eq_true. Qed.

(** X22. The row [insertAsset] writes fits the table that
    [initializeAssetsTable] declares, column by column.  It does not fit
    the table that [initializeSchema] declares under the same name: that
    one has no [kind] and no [storage_mode], two columns every insert
    names. *)
Theorem insertAsset_columns_declared repository asset content threshold :
  exists sql params,
    insertAsset Duck.recorder extension repository asset content threshold []
    = (inr tt, [(sql, params)]) /\
    (forall c, c ∈ named sql -> c ∈ declared AssetOps.assetsTableSQL) /\
    "kind" ∈ named sql /\ "storage_mode" ∈ named sql /\
    ("kind" ∉ declared SchemaOps.getAssetsTableSQL) /\
    ("storage_mode" ∉ declared SchemaOps.getAssetsTableSQL).
Proof.
  assert (forall c, c ∈ assets_columns -> c ∈ declared AssetOps.assetsTableSQL) as Hall.
  { intros c Hc. unfold assets_columns in Hc.
    repeat (apply elem_of_cons in Hc as [-> | Hc];
            [apply elem_of_decide; vm_compute; reflexivity|]).
    apply elem_of_nil in Hc. contradiction. }
  assert ("kind" ∈ assets_columns /\ "storage_mode" ∈ assets_columns) as [Hk Hm].
  { split; apply elem_of_decide; vm_compute; reflexivity. }
  assert (("kind" ∉ declared SchemaOps.getAssetsTableSQL) /\
          ("storage_mode" ∉ declared SchemaOps.getAssetsTableSQL)) as [Hk' Hm'].
  { split; intros Hin; apply (bool_decide_pack _) in Hin; vm_compute in Hin; exact Hin. }
  unfold insertAsset.
  destruct (useInline (Repository.assetMode repository) content threshold) as [bytes|];
    (eexists _, _; split; [reflexivity|]); cbn [named]; auto.
Qed.

(** [updateAsset] changes the three storage columns together or not at
    all, so that a row that satisfies the check on them before the update
    satisfies it after: with content they say inline, with a URL and no
    content they say external, and otherwise none of them is assigned. *)
Lemma updateAsset_storage_columns_together id updates content :
  exists sql params,
    (forall DB (q : Query DB),
        updateAsset q id updates content = issue "Failed to update asset: " q sql params) /\
    match content with
    | Some bytes => storesInline bytes sql params
    | None =>
        if truthy (upd_blobURL updates)
        then storesExternal (or_else (upd_blobURL updates) "") sql params
        else assigned "storage_mode" sql = None /\ assigned "content" sql = None /\
             assigned "storage_url" sql = None /\ params = []
    end.
Proof.
  unfold updateAsset, issue, push_if.
  destruct content as [bytes|]; [| destruct (truthy (upd_blobURL updates))];
    destruct (truthy (upd_name updates)), (truthy (upd_path updates)),
      (upd_size updates) as [n|];
    (eexists _, _; split; [intros DB q; reflexivity | done]).
Qed.

End AssetsColumnsFacts.

(** ** Bringing the engine up and down *)

Section LifecycleFacts.
Import Js Lifecycle.

Ltac lifecycle_simpl :=
  cbn [vars calls Init.db Init.conn Init.worker Init.isInitializing Init.extensionsLoaded
       Init.performed Init.set_db Init.set_conn Init.set_worker Init.set_extensionsLoaded
       set_isInitializing fst snd] in *.

Ltac lifecycle_unfold :=
  unfold initialize, createWorkerFromUrl, connection_of, loadExtensions,
    configureForPresignedURLs, query_, finally_, call, try_catch, bind, ret, throw,
    gets, modify, set_vars, unit_of in *;
  lifecycle_simpl.

Ltac lifecycle_case :=
  match goal with
  | |- context [match ?x with _ => _ end] =>
      lazymatch x with
      | context [match _ with _ => _ end] => fail
      | _ => destruct x eqn:?
      end
  | |- context [if ?x then _ else _] =>
      lazymatch x with
      | context [match _ with _ => _ end] => fail
      | _ => destruct x eqn:?
      end
  end;
  lifecycle_simpl.

Ltac calls_made :=
  rewrite <- ?app_assoc, ?drop_app_length; cbn [app].

Lemma initialize_outcome platform w r w' :
  Init.db (vars w) = None -> Init.worker (vars w) = None ->
  (forall h k, terminate platform h k = None) ->
  initialize platform w = (r, w') ->
  Init.isInitializing (vars w') = false /\
  Init.conn (vars w') = Init.conn (vars w) /\
  match r with
  | inr d => Init.db (vars w') = Some d /\ Init.worker (vars w') <> None
  | inl e =>
      Init.db (vars w') = None /\ Init.worker (vars w') = None /\
      (exists reason, e = ErrorObj ("Failed to initialize DuckDB WASM: " +:+ reason)) /\
      forall k, NewDatabase k ∈ drop (length (calls w)) (calls w') ->
                TerminateWorker k ∈ drop (length (calls w)) (calls w')
  end.
Proof.
  intros Hdb Hworker Hterm Hrun. destruct w as [[d c k i x p] cs].
  cbn in Hdb, Hworker. subst d k.
  revert Hrun. lifecycle_unfold.
  repeat lifecycle_case; intros [= <- <-]; lifecycle_simpl.
  all: rewrite ?Hterm in *; try discriminate.
  all: repeat split; try done; eauto.
  all: intros k' Hk'; revert Hk'; calls_made; set_solver.
Qed.

(** X23. However [initDuckDB] ends when nothing is set and no call is in
    flight, it returns, and the flag is cleared.  When it succeeds the
    engine and its worker are set; when it fails, and terminating a worker
    does not throw, both are unset again, and a worker that was created
    has been terminated. *)
Theorem initDuckDB_cleans_up platform others fuel w :
  Init.db (vars w) = None -> Init.worker (vars w) = None ->
  Init.isInitializing (vars w) = false ->
  (forall h k, terminate platform h k = None) ->
  exists r w',
    initDuckDB platform others fuel w = Some (r, w') /\
    Init.isInitializing (vars w') = false /\
    Init.conn (vars w') = Init.conn (vars w) /\
    match r with
    | inr d => Init.db (vars w') = Some d /\ Init.worker (vars w') <> None
    | inl e =>
        Init.db (vars w') = None /\ Init.worker (vars w') = None /\
        (exists reason, e = ErrorObj ("Failed to initialize DuckDB WASM: " +:+ reason)) /\
        forall k, NewDatabase k ∈ drop (length (calls w)) (calls w') ->
                  TerminateWorker k ∈ drop (length (calls w)) (calls w')
    end.
Proof.
  intros Hdb Hworker Hflag Hterm.
  destruct (initialize platform w) as [r w'] eqn:Hrun.
  exists r, w'. split.
  - unfold initDuckDB. rewrite Hdb, Hflag, Hrun. reflexivity.
  - exact (initialize_outcome platform w r w' Hdb Hworker Hterm Hrun).
Qed.

Lemma initialize_success platform w d w' :
  initialize platform w = (inr d, w') -> Init.db (vars w') = Some d.
Proof.
  destruct w as [[d0 c k i x p] cs].
  lifecycle_unfold.
  repeat lifecycle_case; intros [= <- <-]; lifecycle_simpl; try discriminate; reflexivity.
Qed.

Lemma wait_cleared others fuel w w' :
  wait others fuel w = Some w' -> Init.isInitializing (vars w') = false.
Proof.
  revert w. induction fuel as [|fuel IH]; intros w; cbn [wait];
    destruct (Init.isInitializing (vars w)) eqn:Hflag; try discriminate.
  - intros [= <-]. exact Hflag.
  - apply IH.
  - intros [= <-]. exact Hflag.
Qed.

Lemma initDuckDB_success platform others fuel w d w' :
  initDuckDB platform others fuel w = Some (inr d, w') -> Init.db (vars w') = Some d.
Proof.
  unfold initDuckDB.
  destruct (Init.db (vars w)) as [d0|] eqn:Hdb; [intros [= <- <-]; exact Hdb|].
  destruct (Init.isInitializing (vars w)).
  - destruct (wait others fuel w) as [w1|]; [|discriminate].
    destruct (Init.db (vars w1)) as [d1|] eqn:Hdb1; [|discriminate].
    intros [= <- <-]. exact Hdb1.
  - intros [= Hrun]. exact (initialize_success _ _ _ _ Hrun).
Qed.

Lemma load_each_calls platform c extensions w r w' :
  load_each platform c extensions w = (r, w') ->
  vars w' = vars w /\ exists statements, calls w' = calls w ++ map (Query c) statements.
Proof.
  revert w. induction extensions as [|extension rest IH]; intros w; cbn [load_each].
  - intros [= <- <-]. split; [reflexivity|]. exists []. cbn. rewrite app_nil_r. reflexivity.
  - unfold query_, call, try_catch, bind, throw, unit_of. cbn [vars calls].
    repeat lifecycle_case; try (intros [= <- <-]; cbn [vars calls]; split; [reflexivity|]).
    + eexists [_]. reflexivity.
    + eexists [_; _]. rewrite <- !app_assoc. reflexivity.
    + intros Hrest. apply IH in Hrest as [Hvars [statements Hcalls]].
      cbn [vars calls] in Hvars, Hcalls. split; [exact Hvars|].
      eexists (_ :: _ :: statements). rewrite Hcalls, <- !app_assoc. reflexivity.
Qed.

Lemma connection_of_success platform w c w' :
  connection_of platform w = (inr c, w') ->
  Init.conn (vars w') = Some c /\ Init.db (vars w') = Init.db (vars w).
Proof.
  destruct w as [[d0 c0 k i x p] cs].
  lifecycle_unfold.
  repeat lifecycle_case; intros [= <- <-]; lifecycle_simpl; try discriminate; try done.
  all: match goal with
       | H : load_each _ _ _ _ = _ |- _ => apply load_each_calls in H as [Hvars _]
       end.
  all: rewrite Hvars; done.
Qed.

(** X24. The connection is a singleton.  When [getConnection] returns a
    connection, it is the one the module holds, the engine is set, and any
    further call returns the same connection without making any call or
    changing anything. *)
Theorem getConnection_reuses platform others fuel w c w' :
  getConnection platform others fuel w = Some (inr c, w') ->
  Init.conn (vars w') = Some c /\ Init.db (vars w') <> None /\
  forall fuel', getConnection platform others fuel' w' = Some (inr c, w').
Proof.
  intros Hrun.
  assert (Init.conn (vars w') = Some c /\ Init.db (vars w') <> None) as [Hconn Hdb].
  { revert Hrun. unfold getConnection.
    destruct (Init.db (vars w)) as [d|] eqn:Hd.
    - intros [= Hc]. apply connection_of_success in Hc as [? Hsame].
      split; [assumption|]. rewrite Hsame, Hd. discriminate.
    - destruct (initDuckDB platform others fuel w) as [[[e|d] w1]|] eqn:Hinit;
        try discriminate.
      intros [= Hc]. apply connection_of_success in Hc as [? Hsame].
      split; [assumption|]. rewrite Hsame, (initDuckDB_success _ _ _ _ _ _ Hinit).
      discriminate. }
  split; [assumption|]. split; [assumption|].
  intros fuel'. unfold getConnection.
  destruct (Init.db (vars w')) as [d|]; [|congruence].
  unfold connection_of, bind, gets, ret. rewrite Hconn. reflexivity.
Qed.

(** X25. A connection whose set-up fails is dropped and never closed.  When the
    engine is up, a connection could be opened and a statement of the
    set-up is then turned down, [getConnection] raises and forgets the
    connection: it has made no call to close it, and [closeDuckDB] will
    make none either. *)
Theorem failed_setup_leaks_connection platform others fuel w d h e w' :
  Init.db (vars w) = Some d -> Init.conn (vars w) = None ->
  connect platform (calls w) d = inr h ->
  getConnection platform others fuel w = Some (inl e, w') ->
  Init.conn (vars w') = None /\ Init.db (vars w') = Some d /\
  (exists statements,
      calls w' = calls w ++ Connect d :: map (Query h) statements) /\
  Init.performed (vars w') = Init.performed (vars w) /\
  (forall x, Init.ConnectionClose x ∉ Init.teardown (vars w')) /\
  exists reason, e = ErrorObj ("Failed to create DuckDB connection: " +:+ reason).
Proof.
  intros Hdb Hconn Hconnect. unfold getConnection. rewrite Hdb.
  destruct w as [[d0 c0 k i x p] cs]. cbn in Hdb, Hconn, Hconnect. subst d0 c0.
  intros [= Hrun]. revert Hrun.
  lifecycle_unfold. rewrite Hconnect. lifecycle_simpl.
  repeat lifecycle_case; intros [= <- <-]; lifecycle_simpl; try discriminate.
  all: try match goal with
           | H : load_each _ _ _ _ = _ |- _ =>
               apply load_each_calls in H as [Hvars [statements Hcalls]];
               cbn [vars calls] in Hvars, Hcalls; rewrite ?Hvars, ?Hcalls
           end.
  all: unfold Init.teardown; lifecycle_simpl.
  all: split; [reflexivity|]; split; [reflexivity|]; split; [| split; [reflexivity|]; split].
  all: try (eexists; reflexivity).
  all: try (intros y Hy; destruct k; set_solver).
  - exists ["SET reliable_head_requests = false"]. rewrite <- app_assoc. reflexivity.
  - exists statements. rewrite <- app_assoc. reflexivity.
  - exists (statements ++ ["SET reliable_head_requests = false"]).
    rewrite map_app, <- !app_assoc. reflexivity.
Qed.

Lemma getConnection_sound bundle k d c others fuel w :
  idle w ->
  getConnection (sound bundle k d c) others fuel w
  = Some (inr c,
          mkWorld (Init.mkState (Some d) (Some c) (Some k) false true
                                (Init.performed (vars w)))
                  (calls w ++ bring_up bundle k d c)).
Proof.
  intros (Hdb & Hconn & Hworker & Hflag & Hext).
  destruct w as [[d0 c0 k0 i x p] cs]. cbn in Hdb, Hconn, Hworker, Hflag, Hext. subst.
  cbv -[app String.append]. rewrite <- !app_assoc. reflexivity.
Qed.

Lemma closeDuckDB_idle closing d c k x p cs :
  exists p',
    closeDuckDB closing (mkWorld (Init.mkState (Some d) (Some c) (Some k) false x p) cs)
    = (inr tt, mkWorld (Init.mkState None None None false false p') cs).
Proof.
  unfold closeDuckDB, Init.closeDuckDB, bind, gets, try_catch, Init.perform, modify, ret.
  cbn [vars calls Init.db Init.conn Init.worker Init.performed Init.isInitializing
       Init.extensionsLoaded].
  repeat (match goal with
          | |- context [closing ?h ?e] => destruct (closing h e)
          end;
          cbn [Init.db Init.conn Init.worker Init.performed Init.isInitializing
               Init.extensionsLoaded Init.set_conn Init.set_db Init.set_worker
               Init.set_extensionsLoaded]);
    eexists; reflexivity.
Qed.

(** X26. Up, down, and up again, on a platform where every call succeeds.
    From nothing, [getConnection] makes the calls of [bring_up] and
    returns the connection; [closeDuckDB] then leaves nothing set,
    whatever the closing calls do; and the next [getConnection] makes all
    the calls of [bring_up] again, the loading of the extensions
    included. *)
Theorem getConnection_after_close bundle k d c others fuel closing w :
  idle w ->
  exists w1 w2 w3,
    getConnection (sound bundle k d c) others fuel w = Some (inr c, w1) /\
    calls w1 = calls w ++ bring_up bundle k d c /\
    closeDuckDB closing w1 = (inr tt, w2) /\
    idle w2 /\ calls w2 = calls w1 /\
    getConnection (sound bundle k d c) others fuel w2 = Some (inr c, w3) /\
    calls w3 = calls w1 ++ bring_up bundle k d c.
Proof.
  intros Hidle.
  pose proof (getConnection_sound bundle k d c others fuel w Hidle) as H1.
  destruct (closeDuckDB_idle closing d c k true (Init.performed (vars w))
              (calls w ++ bring_up bundle k d c)) as [p' H2].
  eexists _, _, _. split; [exact H1|]. split; [reflexivity|].
  split; [exact H2|]. split; [repeat split|]. split; [reflexivity|].
  split; [apply getConnection_sound; repeat split | reflexivity].
Qed.

End LifecycleFacts.

(** ** Signing in and out *)

Section SessionFacts.
Import Js Session.

Lemma closeDuckDB_any closing w :
  exists w',
    Lifecycle.closeDuckDB closing w = (inr tt, w') /\
    Init.db (Lifecycle.vars w') = None /\ Init.conn (Lifecycle.vars w') = None /\
    Init.worker (Lifecycle.vars w') = None /\
    Init.extensionsLoaded (Lifecycle.vars w') = false /\
    Lifecycle.calls w' = Lifecycle.calls w.
Proof.
  destruct w as [[d c k i x p] cs].
  unfold Lifecycle.closeDuckDB, Init.closeDuckDB, bind, gets, try_catch, Init.perform,
    modify, ret.
  cbn [Lifecycle.vars Lifecycle.calls Init.db Init.conn Init.worker Init.performed
       Init.isInitializing Init.extensionsLoaded].
  destruct c as [c|], d as [d|], k as [k|];
    cbn [Init.db Init.conn Init.worker Init.performed Init.isInitializing
         Init.extensionsLoaded Init.set_conn Init.set_db Init.set_worker
         Init.set_extensionsLoaded];
    repeat (match goal with
            | |- context [closing ?h ?e] => destruct (closing h e)
            end;
            cbn [Init.db Init.conn Init.worker Init.performed Init.isInitializing
                 Init.extensionsLoaded Init.set_conn Init.set_db Init.set_worker
                 Init.set_extensionsLoaded]);
    (eexists; split; [reflexivity|]); done.
Qed.

(** X27. [signOut] never raises.  Afterwards the engine, its connection and
    its worker are unset, the session token and the cached URLs are gone,
    and the repository is back to its defaults; the proxy configuration
    is kept.  A request for a presigned URL then fails before anything is
    sent (the clock not showing a time more than the buffer before the
    epoch: the expiry left is 0). *)
Theorem signOut_ends_session closing a :
  exists a',
    signOut closing a = (inr tt, a') /\
    Init.db (Lifecycle.vars (engine a')) = None /\
    Init.conn (Lifecycle.vars (engine a')) = None /\
    Init.worker (Lifecycle.vars (engine a')) = None /\
    Credentials.wiped (credentials a') /\
    Credentials.config (credentials a') = Credentials.config (credentials a) /\
    repository a' = Repository.repository /\
    (- Credentials.REFRESH_BUFFER_MS <= Credentials.now (credentials a) ->
     forall net path operation contentType,
       exists e,
         Credentials.getPresignedUrl net path operation contentType (credentials a')
         = (inl e, credentials a')).
Proof.
  destruct (closeDuckDB_any closing (engine a)) as (w' & Hclose & Hdb & Hconn & Hworker & _).
  eexists. split.
  { unfold signOut, try_catch, bind, in_engine, clearCredentials, in_credentials,
      resetRepository, modify.
    rewrite Hclose. cbn [engine credentials repository exchanges]. reflexivity. }
  cbn [engine credentials repository exchanges].
  repeat (split; [done|]).
  intros Hclock net path operation contentType.
  destruct (String.eqb_spec path "") as [->|Hpath].
  - eexists. reflexivity.
  - eexists. rewrite getPresignedUrl_miss.
    + rewrite proxyRequest_guard; [reflexivity|].
      intros [_ Hauth]. unfold Credentials.authenticated in Hauth. discriminate.
    + exact Hpath.
    + intros _. unfold Credentials.servedFromCache, Credentials.isCacheValid.
      cbn [Credentials.now Credentials.cache Credentials.expiry Credentials.clearCredentials
           Credentials.set_cache Credentials.set_sessionToken].
      destruct (Z.ltb_spec (Credentials.now (credentials a) + Credentials.REFRESH_BUFFER_MS) 0);
        [lia | reflexivity].
Qed.

Lemma sign_in_failed_wipes {A} error a r a' :
  Some (@sign_in_failed A error a) = Some (r, a') ->
  Credentials.wiped (credentials a') /\
  r = inl (ErrorObj ("Failed to sign in: " +:+ describe error)).
Proof.
  unfold sign_in_failed, clearCredentials, in_credentials, bind, modify, throw.
  cbn [engine credentials repository exchanges]. intros [= <- <-]. done.
Qed.

(** X28. A sign-in that fails leaves no session behind: whatever raised, the
    token exchange, the engine or the checks before them, the session
    token and the cached URLs are gone afterwards, those of a session that
    was open before the attempt included. *)
Theorem signIn_failure_wipes platform others net oauth_provider performOAuth fuel
    options_token a e a' :
  signIn platform others net oauth_provider performOAuth fuel options_token a
  = Some (inl e, a') ->
  Credentials.wiped (credentials a') /\
  exists reason, e = ErrorObj ("Failed to sign in: " +:+ reason).
Proof.
  unfold signIn.
  destruct (authenticate net oauth_provider performOAuth options_token a)
    as [[error|[u|]] a1].
  - intros Hfail. apply sign_in_failed_wipes in Hfail as [Hw [= ->]]. eauto.
  - destruct (Lifecycle.initDuckDB platform others fuel (engine a1)) as [[[error|d] w]|];
      try discriminate.
    intros Hfail. apply sign_in_failed_wipes in Hfail as [Hw [= ->]]. eauto.
  - discriminate.
Qed.

(** An authorization that is given up changes nothing: with a proxy
    configured and no token passed in, when the popup yields no token
    [signIn] returns nothing, and the state, an open session included, is
    as it was. *)
Lemma signIn_abort_changes_nothing platform others net oauth_provider performOAuth fuel
    options_token result a :
  Repository.credentialProxy (repository a) <> "" ->
  truthy options_token = false ->
  performOAuth (Repository.credentialProxy (repository a)) (getOAuthProvider oauth_provider)
  = inr result ->
  truthy result = false ->
  signIn platform others net oauth_provider performOAuth fuel options_token a
  = Some (inr None, a).
Proof.
  intros Hproxy Htoken Hoauth Hresult. apply truthy_Some in Hproxy.
  unfold signIn, authenticate, bind, gets, ret.
  rewrite Hproxy, Htoken, Hoauth, Hresult. reflexivity.
Qed.

Lemma configure_run proxy a :
  proxy <> "" ->
  exists storage,
    storage <> "" /\
    configure proxy a
    = (inr tt,
       mkApp (engine a)
             (Credentials.set_config (Credentials.mkConfig (Some proxy) (Some storage))
                                     (credentials a))
             (repository a) (exchanges a)).
Proof.
  intros Hproxy. apply truthy_Some in Hproxy.
  unfold configure, bind, gets, in_credentials, Credentials.configureProxy.
  cbn [Credentials.proxyUrl Credentials.provider]. rewrite Hproxy. cbn [negb].
  exists (or_else (Some (Repository.storageProvider (repository a))) "s3").
  assert (or_else (Some (Repository.storageProvider (repository a))) "s3" <> "") as Hs.
  { unfold or_else, truthy.
    destruct (String.eqb_spec (Repository.storageProvider (repository a)) "");
      cbn; [discriminate | assumption]. }
  split; [exact Hs|]. apply truthy_Some in Hs. rewrite Hs. reflexivity.
Qed.

Lemma authenticate_success net oauth_provider performOAuth options_token a u a1 :
  authenticate net oauth_provider performOAuth options_token a = (inr (Some u), a1) ->
  engine a1 = engine a /\ repository a1 = repository a /\
  backendName u = Index.BACKEND_NAME /\ token u <> "" /\
  Repository.credentialProxy (repository a) <> "" /\
  exists storage,
    storage <> "" /\
    credentials a1
    = Credentials.set_config
        (Credentials.mkConfig (Some (Repository.credentialProxy (repository a)))
                              (Some storage))
        (Credentials.set_sessionToken (Some (token u)) (credentials a)).
Proof.
  unfold authenticate, bind, gets, ret, throw.
  destruct (truthy (Some (Repository.credentialProxy (repository a)))) eqn:Hproxy;
    cbn [negb]; [| discriminate].
  apply truthy_Some in Hproxy.
  destruct (truthy options_token) eqn:Htoken.
  - unfold in_credentials at 1, Credentials.setSessionToken. rewrite Htoken. cbn [negb].
    unfold modify. cbn [credentials engine repository exchanges].
    match goal with
    | |- context [configure ?p ?x] =>
        destruct (configure_run p x Hproxy) as (storage & Hs & ->)
    end.
    cbn [engine credentials repository exchanges].
    intros [= <- <-]. cbn [engine credentials repository exchanges backendName token].
    repeat split; try done.
    + destruct options_token as [[|c t]|]; try discriminate; cbn; discriminate.
    + exists storage. split; [exact Hs|].
      destruct options_token as [[|c t]|]; try discriminate; reflexivity.
  - destruct (performOAuth _ _) as [e|result]; [discriminate|].
    destruct (truthy result) eqn:Hresult; cbn [negb]; [| discriminate].
    unfold in_exchanges at 1.
    destruct (TokenExchange.exchangeToken net _ (exchanges a)) as [[e|x] log] eqn:Hx;
      [discriminate|].
    assert (TokenExchange.sessionToken x <> "") as Hsession.
    { revert Hx. unfold TokenExchange.exchangeToken.
      repeat match goal with
             | |- context [if ?b then _ else _] => destruct b; try discriminate
             end.
      unfold try_catch, bind, TokenExchange.fetch, throw, ret.
      destruct (net (length (exchanges a))) as [e|response]; [destruct e; discriminate|].
      destruct (negb (TokenExchange.ok response)); [discriminate|].
      destruct (TokenExchange.json response) as [e|data]; [destruct e; discriminate|].
      destruct (TokenExchange.json_user data); [| discriminate].
      destruct (truthy (TokenExchange.json_sessionToken data)) eqn:Ht; [| discriminate].
      intros [= <- _]. cbn.
      destruct (TokenExchange.json_sessionToken data) as [[|c t]|]; try discriminate;
        cbn; discriminate. }
    unfold in_credentials at 1, Credentials.setSessionToken.
    apply truthy_Some in Hsession as Htruthy. rewrite Htruthy. cbn [negb].
    unfold modify. cbn [credentials engine repository exchanges].
    match goal with
    | |- context [configure ?p ?y] =>
        destruct (configure_run p y Hproxy) as (storage & Hs & ->)
    end.
    cbn [engine credentials repository exchanges].
    intros [= <- <-]. cbn [engine credentials repository exchanges backendName token].
    repeat split; try done. exists storage. done.
Qed.

(** X29. A sign-in that succeeds opens the session: the token it returns is
    the session token, the proxy of the repository is configured, and the
    engine is up, so that requests to the proxy are let through. *)
Theorem signIn_success_opens_session platform others net oauth_provider performOAuth fuel
    options_token a u a' :
  signIn platform others net oauth_provider performOAuth fuel options_token a
  = Some (inr (Some u), a') ->
  Credentials.sessionToken (credentials a') = Some (token u) /\
  Credentials.proxyUrl (Credentials.config (credentials a'))
  = Some (Repository.credentialProxy (repository a)) /\
  Credentials.configured (credentials a') /\ Credentials.authenticated (credentials a') /\
  Init.db (Lifecycle.vars (engine a')) <> None /\
  backendName u = "duckdb" /\ repository a' = repository a.
Proof.
  unfold signIn.
  destruct (authenticate net oauth_provider performOAuth options_token a)
    as [[error|[u0|]] a1] eqn:Hauth.
  - intros Hfail. apply sign_in_failed_wipes in Hfail as [_ [=]].
  - destruct (Lifecycle.initDuckDB platform others fuel (engine a1)) as [[[error|d] w]|]
      eqn:Hinit; try discriminate.
    intros [= -> <-]. cbn [engine credentials repository exchanges].
    apply authenticate_success in Hauth
      as (_ & Hrepo & Hname & Htoken & Hproxy & storage & Hs & ->).
    apply initDuckDB_success in Hinit.
    unfold Credentials.configured, Credentials.authenticated.
    cbn [Credentials.sessionToken Credentials.config Credentials.set_config
         Credentials.set_sessionToken Credentials.proxyUrl].
    apply truthy_Some in Htoken, Hproxy.
    repeat split; try done. rewrite Hinit. discriminate.
  - discriminate.
Qed.

End SessionFacts.

(** ** The further properties, on concrete runs *)

Section Scenes.
Import Js Examples Scenarios.

Lemma fetchPresignedUrls_all_cached_witness :
  exists result,
    Credentials.fetchPresignedUrls signing ["a.parquet"; ""; "valueOf"] warm
    = (inr result, warm) /\
    result !! "a.parquet" = Some (Some (Str "https://store.example/a")) /\
    result !! "valueOf" = Some (Some (Member "valueOf")) /\
    result !! "" = None.
Proof.
  destruct (fetchPresignedUrls_all_cached signing ["a.parquet"; ""; "valueOf"] warm)
    as (result & Hrun & Hresult).
  - reflexivity.
  - exists "a.parquet". split; [apply list_elem_of_here | discriminate].
  - intros p Hp Hne.
    apply elem_of_cons in Hp as [-> | Hp]; [reflexivity|].
    apply elem_of_cons in Hp as [-> | Hp]; [contradiction|].
    apply list_elem_of_singleton in Hp as ->. reflexivity.
  - exists result. split; [exact Hrun|].
    rewrite !Hresult. split; [| split].
    + rewrite decide_True; [reflexivity|]. split; [set_solver | discriminate].
    + rewrite decide_True; [reflexivity|]. split; [set_solver | discriminate].
    + rewrite decide_False; [reflexivity|]. intros [_ Hne]. contradiction.
Defined.

Lemma fetchPresignedUrls_fetches_missing_witness :
  exists pathsToFetch,
    Credentials.sent mixed_run.2
    = Credentials.sent warm
      ++ [Credentials.request_of warm "/presign-batch"
            (Credentials.PresignBatchBody pathsToFetch)] /\
    "b.parquet" ∈ pathsToFetch /\ "toString" ∉ pathsToFetch /\ "a.parquet" ∉ pathsToFetch.
Proof.
  destruct (fetchPresignedUrls_fetches_missing signing ["toString"; "b.parquet"] warm
              mixed_run.1 mixed_run.2) as (pathsToFetch & Hsent & Hasked & Hmember).
  - apply surjective_pairing.
  - vm_compute. discriminate.
  - exists pathsToFetch. split; [exact Hsent|]. split; [| split].
    + apply Hasked. split; [set_solver|]. split; [discriminate | reflexivity].
    + apply (Hmember eq_refl); [unfold Object_prototype; set_solver | reflexivity].
    + intros Hin. apply Hasked in Hin as (Hin & _). set_solver.
Defined.

Lemma fetchPresignedUrls_returns_union_witness :
  mixed_result !! "b.parquet" = Some (Some (Str "https://store.example/signed")) /\
  mixed_result !! "toString" = Some (Some (Member "toString")) /\
  mixed_result !! "a.parquet" = None.
Proof.
  assert (Credentials.fetchPresignedUrls signing ["toString"; "b.parquet"] warm
          = (inr mixed_result, mixed_run.2)) as Hrun by (vm_compute; reflexivity).
  assert (Credentials.sent mixed_run.2 <> Credentials.sent warm) as Hsent
    by (vm_compute; discriminate).
  pose proof (fetchPresignedUrls_returns_union signing ["toString"; "b.parquet"] warm
                (answer (signed "https://store.example/signed" 900))
                (signed "https://store.example/signed" 900) mixed_result mixed_run.2
                eq_refl eq_refl eq_refl Hrun Hsent)
    as Hresult.
  rewrite !Hresult. split; [| split].
  - rewrite decide_True; [reflexivity|]. split; [set_solver | discriminate].
  - rewrite decide_True; [reflexivity|]. split; [set_solver | discriminate].
  - rewrite decide_False; [reflexivity|]. intros [Hin _]. set_solver.
Defined.

Lemma getPresignedUrl_needs_proxy_and_token_witness :
  Credentials.getPresignedUrl signing "a.parquet" Credentials.PUT "application/octet-stream"
    (Credentials.initial 1000)
  = (inl (ErrorObj "Credential proxy not configured. Call configureProxy() first."),
     Credentials.initial 1000).
Proof.
  apply (getPresignedUrl_needs_proxy_and_token signing (Credentials.initial 1000)
           "a.parquet" Credentials.PUT "application/octet-stream").
  - discriminate.
  - discriminate.
  - intros [Hconfigured _]. vm_compute in Hconfigured. discriminate.
Defined.

Lemma denial_closes_session_witness :
  Credentials.getPresignedUrl signing "b.parquet" Credentials.PUT "application/octet-stream"
    (Credentials.atTime 5000 denied_run.2)
  = (inl (ErrorObj "Not authenticated. Call setSessionToken() first."),
     Credentials.atTime 5000 denied_run.2).
Proof.
  apply (denial_closes_session denying session unauthorized "a.parquet" Credentials.GET
           "application/octet-stream" denied_run.1 denied_run.2).
  - reflexivity.
  - reflexivity.
  - apply surjective_pairing.
  - vm_compute. discriminate.
  - discriminate.
  - vm_compute. discriminate.
Defined.

Lemma failure_without_denial_keeps_credentials_witness :
  Credentials.config offline_run.2 = Credentials.config session /\
  Credentials.sessionToken offline_run.2 = Credentials.sessionToken session /\
  Credentials.cache offline_run.2 = Credentials.cache session.
Proof.
  apply (failure_without_denial_keeps_credentials offline session "a.parquet"
           Credentials.GET "application/octet-stream" offline_error).
  - reflexivity.
  - vm_compute. reflexivity.
Defined.

Lemma configured_session_signs_witness :
  exists s1 s2,
    Credentials.configureProxy
      (Credentials.mkConfig (Some "https://proxy.example") (Some "r2"))
      (Credentials.initial 1000) = (inr tt, s1) /\
    Credentials.setSessionToken (Some "session-token") s1 = (inr tt, s2) /\
    Credentials.sent
      (Credentials.getPresignedUrl signing "a.parquet" Credentials.PUT "image/png" s2).2
    = Credentials.sent (Credentials.initial 1000)
      ++ [Credentials.mkRequest ("https://proxy.example" +:+ "/presign")
            ("Bearer " +:+ "session-token") (Some "r2")
            (Credentials.PresignBody Credentials.PUT "a.parquet"
               (if Credentials.Operation_eqb Credentials.PUT Credentials.PUT
                then Some "image/png" else None))].
Proof.
  apply (configured_session_signs signing (Credentials.initial 1000)
           "https://proxy.example" "r2" "session-token" "a.parquet" Credentials.PUT
           "image/png"); discriminate.
Defined.

Lemma exchangeToken_answered_witness :
  (TokenExchange.exchangeToken exchanging
     (TokenExchange.mkArgs (Some "gho_token") (Some "github") (Some "https://proxy.example"))
     []).1
  = inr (TokenExchange.mkExchanged "session-token" [("login", "octocat")] 3600) /\
  (TokenExchange.exchangeToken exchanging_for_nothing
     (TokenExchange.mkArgs (Some "glpat_token") (Some "gitlab") (Some "https://proxy.example"))
     []).1
  = inr (TokenExchange.mkExchanged "session-token" [("login", "octocat")] 900).
Proof.
  split.
  - destruct (exchangeToken_answered exchanging "gho_token" "github" "https://proxy.example"
                [] exchange_response exchanged) as (outcome & Hrun & Houtcome).
    + discriminate.
    + left. reflexivity.
    + discriminate.
    + reflexivity.
    + reflexivity.
    + reflexivity.
    + rewrite Hrun. cbn [fst].
      cbn in Houtcome. destruct Houtcome as (lifetime & -> & _ & Hgiven & _).
      rewrite (Hgiven 3600 eq_refl); [reflexivity | discriminate].
  - destruct (exchangeToken_answered exchanging_for_nothing "glpat_token" "gitlab"
                "https://proxy.example" []
                (TokenExchange.mkResponse 200 (inr "") (inr exchanged_for_nothing))
                exchanged_for_nothing) as (outcome & Hrun & Houtcome).
    + discriminate.
    + right. reflexivity.
    + discriminate.
    + reflexivity.
    + reflexivity.
    + reflexivity.
    + rewrite Hrun. cbn [fst].
      cbn in Houtcome. destruct Houtcome as (lifetime & -> & _ & _ & Hzero & _).
      rewrite (Hzero eq_refl). reflexivity.
Defined.


Lemma getFullStoragePath_joins_clean_witness :
  Repository.getFullStoragePath prefixed_repository "entries.parquet"
  = "site" +:+ "/" +:+ "cms/data" +:+ "/" +:+ "entries.parquet".
Proof.
  apply (getFullStoragePath_joins_clean prefixed_repository "entries.parquet");
    repeat split; discriminate.
Defined.

Lemma snapshot_paths_agree_witness :
  Files.getDataPaths slashed_repository
  = (Repository.getFullStoragePath slashed_repository "entries.parquet",
     Repository.getFullStoragePath slashed_repository "assets.parquet").
Proof.
  apply (snapshot_paths_agree slashed_repository).
  - reflexivity.
  - discriminate.
  - reflexivity.
  - reflexivity.
Defined.

Lemma initializeSchema_no_rollback_witness :
  SchemaOps.initializeSchema (CatalogDDL.exec no_entries_table) empty_catalog
  = (inl (ErrorObj ("Failed to initialize database schema: "
                    +:+ message_of (ErrorObj "Out of Memory Error"))),
     CatalogDDL.add_schema "cms" empty_catalog).
Proof.
  apply (initializeSchema_no_rollback no_entries_table empty_catalog
           (ErrorObj "Out of Memory Error")); reflexivity.
Defined.

Lemma slugOfPath_file_name_witness :
  CommitSteps.slugOfPath ("content/posts" +:+ "/" +:+ "hello-world" +:+ "." +:+ "md")
  = "hello-world" /\
  CommitSteps.slugOfPath ("hello-world" +:+ "." +:+ "md") = "hello-world".
Proof.
  apply (slugOfPath_file_name "content/posts" "hello-world" "md");
    [reflexivity | discriminate | reflexivity].
Defined.

Lemma processAssetChanges_where_bytes_go_witness :
  exists values params ups,
    CommitSteps.processAssetChanges Ledger.conn_query Ledger.getPresignedUrl
      Ledger.fetch_PUT png_extension external_repository
      [CommitSteps.mkFileChange "create" "media/photo.png"
         (Some (CommitSteps.Binary three_bytes)) (Some photo)]
      Ledger.empty
    = (inr tt,
       Ledger.mkLedger
         (Ledger.statements Ledger.empty
          ++ [(Sql.Plain (Duck.Insert "cms.assets" Assets.assets_columns values), params)])
         (Ledger.uploads Ledger.empty ++ ups)) /\
    ups = [] /\ params = [] /\
    Assets.storesExternal "media/photo.png"
      (Duck.Insert "cms.assets" Assets.assets_columns values) params.
Proof.
  destruct (processAssetChanges_where_bytes_go png_extension external_repository "create"
              "media/photo.png" photo (CommitSteps.Binary three_bytes) Ledger.empty)
    as (values & params & ups & Hrun & Hcases).
  - left. reflexivity.
  - reflexivity.
  - exists values, params, ups. split; [exact Hrun|].
    destruct Hcases as [(Hmode & _) | [(_ & Hbig & _) | (_ & _ & Hups & Hrow)]].
    + discriminate Hmode.
    + vm_compute in Hbig. discriminate Hbig.
    + split; [exact Hups|]. split; [apply Hrow | exact Hrow].
Defined.

Lemma photo_storable : AssetsTable.storable photo.
Proof. repeat split; vm_compute; discriminate. Qed.

Lemma empty_table_fresh id : AssetsTable.fresh id empty_table.
Proof. intros row Hrow. apply elem_of_nil in Hrow. destruct Hrow. Qed.

Lemma insertAsset_then_fetch_witness :
  (Assets.insertAsset (Sql.plain (AssetsTable.exec codes)) png_extension inline_repository
     photo (Some three_bytes) Assets.DEFAULT_INLINE_THRESHOLD empty_table
   = (inl (ErrorObj "Failed to insert asset: parameter without a value"), empty_table) /\
   AssetOps.fetchAssetContent (AssetsTable.exec codes) "3f2a" empty_table
   = (inl (ErrorObj "Failed to fetch asset content: Asset not found: 3f2a"), empty_table))
  /\
  (exists t',
      Assets.insertAsset (Sql.plain (AssetsTable.exec codes)) png_extension
        external_repository photo (Some three_bytes) Assets.DEFAULT_INLINE_THRESHOLD
        empty_table = (inr tt, t') /\
      AssetOps.fetchAssetContent (AssetsTable.exec codes) "3f2a" t'
      = (inr (AssetOps.mkAssetContent None (Some "media/photo.png") "external"), t')).
Proof.
  split.
  - apply (insertAsset_then_fetch png_extension codes inline_repository photo
             (Some three_bytes) Assets.DEFAULT_INLINE_THRESHOLD empty_table
             (empty_table_fresh "3f2a") photo_storable).
  - apply (insertAsset_then_fetch png_extension codes external_repository photo
             (Some three_bytes) Assets.DEFAULT_INLINE_THRESHOLD empty_table
             (empty_table_fresh "3f2a") photo_storable).
Defined.

Lemma insertAsset_then_delete_witness :
  exists t',
    Assets.insertAsset (Sql.plain (AssetsTable.exec codes)) png_extension external_repository
      photo (Some three_bytes) Assets.DEFAULT_INLINE_THRESHOLD empty_table = (inr tt, t') /\
    AssetOps.deleteAsset (AssetsTable.exec codes) "3f2a" t' = (inr tt, empty_table) /\
    AssetOps.fetchAssetContent (AssetsTable.exec codes) "3f2a" empty_table
    = (inl (ErrorObj ("Failed to fetch asset content: Asset not found: " +:+ "3f2a")),
       empty_table).
Proof.
  apply (insertAsset_then_delete png_extension codes external_repository photo
           (Some three_bytes) Assets.DEFAULT_INLINE_THRESHOLD empty_table).
  - reflexivity.
  - apply empty_table_fresh.
  - apply photo_storable.
Defined.

Lemma photo_table_fresh : AssetsTable.fresh "0000" photo_table.
Proof. intros row Hrow. apply list_elem_of_singleton in Hrow. rewrite Hrow. reflexivity. Qed.

Lemma missing_asset_witness :
  (AssetOps.fetchAssetContent (AssetsTable.exec codes) "0000" photo_table
   = (inl (ErrorObj ("Failed to fetch asset content: Asset not found: " +:+ "0000")),
      photo_table) /\
   AssetOps.deleteAsset (AssetsTable.exec codes) "0000" photo_table = (inr tt, photo_table) /\
   Assets.updateAsset (Sql.plain (AssetsTable.exec codes)) "0000" renamed None photo_table
   = (inr tt, photo_table))
  /\
  Assets.updateAsset (Sql.plain (AssetsTable.exec codes)) "0000" renamed (Some three_bytes)
    photo_table
  = (inl (ErrorObj "Failed to update asset: parameter without a value"), photo_table).
Proof.
  split.
  - apply (missing_asset codes "0000" renamed None photo_table photo_table_fresh).
    + reflexivity.
    + repeat split.
  - apply (missing_asset codes "0000" renamed (Some three_bytes) photo_table
             photo_table_fresh).
    + reflexivity.
    + repeat split.
Defined.

Lemma updateAsset_then_fetch_witness :
  (exists t2,
      Assets.updateAsset (Sql.plain (AssetsTable.exec codes)) "3f2a" moved None photo_table
      = (inr tt, t2) /\
      AssetOps.fetchAssetContent (AssetsTable.exec codes) "3f2a" t2
      = (inr (AssetOps.mkAssetContent None (Some "https://cdn.example/3f2a.png") "external"),
         t2))
  /\
  (Assets.updateAsset (Sql.plain (AssetsTable.exec codes)) "3f2a" renamed (Some three_bytes)
     photo_table
   = (inl (ErrorObj "Failed to update asset: parameter without a value"), photo_table) /\
   AssetOps.fetchAssetContent (AssetsTable.exec codes) "3f2a" photo_table
   = (inr (AssetOps.mkAssetContent None (Some "media/photo.png") "external"), photo_table)).
Proof.
  split.
  - destruct (updateAsset_then_fetch png_extension codes external_repository photo None
                Assets.DEFAULT_INLINE_THRESHOLD moved None empty_table)
      as (t1 & Hinsert & t2 & Hupdate & Hfetch).
    + reflexivity.
    + apply empty_table_fresh.
    + apply photo_storable.
    + repeat split.
    + reflexivity.
    + reflexivity.
    + assert (t1 = photo_table) as -> by (unfold photo_table; rewrite Hinsert; reflexivity).
      exists t2. split; assumption.
  - destruct (updateAsset_then_fetch png_extension codes external_repository photo None
                Assets.DEFAULT_INLINE_THRESHOLD renamed (Some three_bytes) empty_table)
      as (t1 & Hinsert & Hupdate & Hfetch).
    + reflexivity.
    + apply empty_table_fresh.
    + apply photo_storable.
    + repeat split.
    + reflexivity.
    + discriminate.
    + assert (t1 = photo_table) as -> by (unfold photo_table; rewrite Hinsert; reflexivity).
      split; assumption.
Defined.

Lemma insertAsset_existing_key_witness :
  Assets.insertAsset (Sql.plain (AssetsTable.exec codes)) png_extension external_repository
    photo (Some three_bytes) Assets.DEFAULT_INLINE_THRESHOLD photo_table
  = (inl (ErrorObj "Failed to insert asset: duplicate key"), photo_table) /\
  Assets.insertAsset (Sql.plain (AssetsTable.exec codes)) png_extension inline_repository
    photo (Some three_bytes) Assets.DEFAULT_INLINE_THRESHOLD photo_table
  = (inl (ErrorObj "Failed to insert asset: parameter without a value"), photo_table).
Proof.
  split.
  - apply (insertAsset_existing_key png_extension codes external_repository photo
             (Some three_bytes) Assets.DEFAULT_INLINE_THRESHOLD photo_table).
    + apply list_elem_of_here.
    + apply photo_storable.
  - apply (insertAsset_existing_key png_extension codes inline_repository photo
             (Some three_bytes) Assets.DEFAULT_INLINE_THRESHOLD photo_table).
    + apply list_elem_of_here.
    + apply photo_storable.
Defined.

Lemma inline_commit_never_lands_witness :
  CommitSteps.processAssetChanges (AssetsTable.exec codes)
    (fun _ _ _ => throw (ErrorObj "the proxy is down"))
    (fun _ _ _ => throw (ErrorObj "the store is down"))
    png_extension inline_repository
    [CommitSteps.mkFileChange "create" "media/photo.png"
       (Some (CommitSteps.Binary three_bytes)) (Some photo)]
    empty_table
  = (inl (ErrorObj ("Failed to process asset change (create media/photo.png): "
                    +:+ "Failed to insert asset: parameter without a value")),
     empty_table) /\
  AssetOps.fetchAssetContent (AssetsTable.exec codes) "3f2a" empty_table
  = (inl (ErrorObj "Failed to fetch asset content: Asset not found: 3f2a"), empty_table).
Proof.
  destruct (inline_commit_never_lands png_extension codes
              (fun _ _ _ => throw (ErrorObj "the proxy is down"))
              (fun _ _ _ => throw (ErrorObj "the store is down"))
              inline_repository "create" "media/photo.png" photo
              (CommitSteps.Binary three_bytes) empty_table) as [Hcommit Hlookup].
  - reflexivity.
  - left. reflexivity.
  - reflexivity.
  - vm_compute. discriminate.
  - apply photo_storable.
  - split; [exact Hcommit | apply Hlookup, empty_table_fresh].
Defined.

Lemma initDuckDB_cleans_up_witness :
  exists r w',
    Lifecycle.initDuckDB no_instance stay 0 blank = Some (r, w') /\
    Init.isInitializing (Lifecycle.vars w') = false /\
    Init.conn (Lifecycle.vars w') = Init.conn (Lifecycle.vars blank) /\
    match r with
    | inr d => Init.db (Lifecycle.vars w') = Some d /\ Init.worker (Lifecycle.vars w') <> None
    | inl e =>
        Init.db (Lifecycle.vars w') = None /\ Init.worker (Lifecycle.vars w') = None /\
        (exists reason, e = ErrorObj ("Failed to initialize DuckDB WASM: " +:+ reason)) /\
        forall k, Lifecycle.NewDatabase k
                    ∈ drop (length (Lifecycle.calls blank)) (Lifecycle.calls w') ->
                  Lifecycle.TerminateWorker k
                    ∈ drop (length (Lifecycle.calls blank)) (Lifecycle.calls w')
    end.
Proof.
  apply (initDuckDB_cleans_up no_instance stay 0 blank); reflexivity.
Defined.

Lemma getConnection_reuses_witness :
  Init.conn (Lifecycle.vars connected) = Some 3%nat /\
  Init.db (Lifecycle.vars connected) <> None /\
  forall fuel', Lifecycle.getConnection sound stay fuel' connected
                = Some (inr 3%nat, connected).
Proof.
  apply (getConnection_reuses sound stay 0 blank 3%nat connected).
  vm_compute. reflexivity.
Defined.

Lemma failed_setup_leaks_connection_witness :
  Init.conn (Lifecycle.vars failed_connection_world) = None /\
  Init.db (Lifecycle.vars failed_connection_world) = Some 2%nat /\
  (exists statements,
      Lifecycle.calls failed_connection_world
      = Lifecycle.calls engine_up
        ++ Lifecycle.Connect 2 :: map (Lifecycle.Query 3) statements) /\
  Init.performed (Lifecycle.vars failed_connection_world)
  = Init.performed (Lifecycle.vars engine_up) /\
  (forall x, Init.ConnectionClose x ∉ Init.teardown (Lifecycle.vars failed_connection_world)) /\
  exists reason,
    failed_connection_error = ErrorObj ("Failed to create DuckDB connection: " +:+ reason).
Proof.
  apply (failed_setup_leaks_connection no_extensions stay 0 engine_up 2%nat 3%nat
           failed_connection_error failed_connection_world).
  - reflexivity.
  - reflexivity.
  - reflexivity.
  - vm_compute. reflexivity.
Defined.

Lemma getConnection_after_close_witness :
  exists w1 w2 w3,
    Lifecycle.getConnection (Lifecycle.sound bundle 1 2 3) stay 0 blank
    = Some (inr 3%nat, w1) /\
    Lifecycle.calls w1 = Lifecycle.calls blank ++ Lifecycle.bring_up bundle 1 2 3 /\
    Lifecycle.closeDuckDB (fun _ _ => None) w1 = (inr tt, w2) /\
    Lifecycle.idle w2 /\ Lifecycle.calls w2 = Lifecycle.calls w1 /\
    Lifecycle.getConnection (Lifecycle.sound bundle 1 2 3) stay 0 w2
    = Some (inr 3%nat, w3) /\
    Lifecycle.calls w3 = Lifecycle.calls w1 ++ Lifecycle.bring_up bundle 1 2 3.
Proof.
  apply (getConnection_after_close bundle 1 2 3 stay 0 (fun _ _ => None) blank).
  repeat split.
Defined.

Lemma signOut_ends_session_witness :
  exists a',
    Session.signOut (fun _ _ => None) app = (inr tt, a') /\
    Credentials.wiped (Session.credentials a') /\
    exists e,
      Credentials.getPresignedUrl signing "toString" Credentials.GET
        "application/octet-stream" (Session.credentials a')
      = (inl e, Session.credentials a').
Proof.
  destruct (signOut_ends_session (fun _ _ => None) app)
    as (a' & Hrun & _ & _ & _ & Hwiped & _ & _ & Hfails).
  exists a'. split; [exact Hrun|]. split; [exact Hwiped|].
  apply Hfails. vm_compute. discriminate.
Defined.

Lemma signIn_failure_wipes_witness :
  Credentials.wiped (Session.credentials failed_sign_in_app) /\
  exists reason, failed_sign_in_error = ErrorObj ("Failed to sign in: " +:+ reason).
Proof.
  apply (signIn_failure_wipes sound stay exchanging None no_popup 0 None unconfigured_app
           failed_sign_in_error failed_sign_in_app).
  vm_compute. reflexivity.
Defined.

Lemma signIn_success_opens_session_witness :
  Credentials.sessionToken (Session.credentials signed_in_app)
  = Some (Session.token token_user) /\
  Credentials.proxyUrl (Credentials.config (Session.credentials signed_in_app))
  = Some (Repository.credentialProxy (Session.repository app)) /\
  Credentials.configured (Session.credentials signed_in_app) /\
  Credentials.authenticated (Session.credentials signed_in_app) /\
  Init.db (Lifecycle.vars (Session.engine signed_in_app)) <> None /\
  Session.backendName token_user = "duckdb" /\
  Session.repository signed_in_app = Session.repository app.
Proof.
  apply (signIn_success_opens_session sound stay exchanging None no_popup 0
           (Some "pat-123") app token_user signed_in_app).
  vm_compute. reflexivity.
Defined.

End Scenes.
